(** * Family Tree Builder: the interactive canvas and its gesture handlers

    A shallow embedding of [src/InteractiveCanvas.tsx] (desktop canvas),
    [src/PersonNode.tsx] (desktop node) and [mobile/mobile-app.js]
    (mobile node, canvas and application), with the properties of the
    specification stated over it.

    Numbers.  JavaScript numbers are IEEE doubles; here they are exact
    rationals ([Q]), so rounding error is outside the model.  A quotient
    by zero is [Infinity] or [NaN] in JavaScript and has no rational
    value: division by a variable is the partial [fdiv], and a handler
    that would compute such a quotient ends in the fault [NonFinite].
    Equality of numbers is [Qeq] ([==]).

    React.  A handler is a closure over the state of the render it was
    created in: it reads that snapshot, and its [setX(v)] calls replace
    fields of the next state (the last call wins); [setX(prev => ...)]
    reads the pending state.  Handlers are functions from the snapshot
    to the next state and the list of callbacks they invoked. *)

From Stdlib Require Import QArith Qround Qabs Lqa Lia ZArith Bool.
From stdpp Require Import gmap strings list pretty.

(** ** JavaScript arithmetic on rationals *)

Inductive Fault : Type :=
  | NonFinite   (* a quotient by zero: Infinity or NaN *)
  | TypeError.  (* a property read on undefined *)

Inductive result (A : Type) : Type :=
  | Ok (a : A)
  | Throw (f : Fault).
Arguments Ok {A} a.
Arguments Throw {A} f.

#[global] Instance result_ret : MRet result := fun A a => Ok a.
#[global] Instance result_bind : MBind result := fun A B k r =>
  match r with
  | Ok a => k a
  | Throw f => Throw f
  end.

Definition fdiv (a b : Q) : result Q :=
  if Qeq_bool b 0 then Throw NonFinite else Ok (a / b)%Q.

Definition Qltb (a b : Q) : bool := negb (Qle_bool b a).

Definition Math_max (a b : Q) : Q := if Qle_bool a b then b else a.
Definition Math_min (a b : Q) : Q := if Qle_bool a b then a else b.
Definition Math_abs (a : Q) : Q := Qabs a.
(** [Math.round] rounds to the nearest integer, halves upwards. *)
Definition Math_round (a : Q) : Q := inject_Z (Qfloor (a + (1 # 2))).

Module Point.
Record t : Type := mk { x : Q; y : Q }.
Definition equiv (a b : t) : Prop := (x a == x b)%Q /\ (y a == y b)%Q.
End Point.

(** [getBoundingClientRect()]: only [left] and [top] are read. *)
Module DOMRect.
Record t : Type := mk { left : Q; top : Q }.
End DOMRect.

Module Touch.
Record t : Type := mk { clientX : Q; clientY : Q }.
End Touch.

(** [className?.includes(sub)] *)
Fixpoint includes (sub s : string) : bool :=
  String.prefix sub s ||
  match s with
  | EmptyString => false
  | String _ s' => includes sub s'
  end.

(** [Math.max(0.1, Math.min(3, v))] *)
Definition clampZoom (v : Q) : Q := Math_max (1 # 10) (Math_min 3 v).

(** ** The desktop canvas: [InteractiveCanvas] *)

Module InteractiveCanvas.

Record Props : Type := mkProps {
  onCanvasClick : bool;          (* whether the callback is passed *)
  className : string;
  disableCanvasClick : bool;
  canvasRef : option DOMRect.t   (* canvasRef.current?.getBoundingClientRect() *)
}.

(** What the handlers ask of [e.target]. *)
Record Target : Type := mkTarget {
  isCanvasClick : bool;          (* classList has interactive-canvas or canvas-content *)
  isPersonNode : bool;           (* closest('.person-node') *)
  isInteractiveElement : bool    (* closest of [data-person-id], button, input, select *)
}.

Module WheelEvent.
Record t : Type := mk {
  ctrlKey : bool; metaKey : bool;
  deltaX : Q; deltaY : Q; clientX : Q; clientY : Q
}.
End WheelEvent.

Module MouseEvent.
Record t : Type := mk {
  button : Z; altKey : bool; clientX : Q; clientY : Q; target : Target
}.
End MouseEvent.

Module TouchEvent.
Record t : Type := mk { touches : list Touch.t; target : Target }.
End TouchEvent.

Record State : Type := mkState {
  zoom : Q;
  pan : Point.t;
  isPanning : bool;
  lastPanPoint : Point.t;
  isTouch : bool;
  lastTouchDistance : Q
}.

Definition initial : State :=
  {| zoom := 1; pan := Point.mk 0 0; isPanning := false;
     lastPanPoint := Point.mk 0 0; isTouch := false; lastTouchDistance := 0 |}.

Definition setZoom (v : Q) (s : State) : State :=
  mkState v (pan s) (isPanning s) (lastPanPoint s) (isTouch s) (lastTouchDistance s).
Definition setPan (v : Point.t) (s : State) : State :=
  mkState (zoom s) v (isPanning s) (lastPanPoint s) (isTouch s) (lastTouchDistance s).
Definition setIsPanning (v : bool) (s : State) : State :=
  mkState (zoom s) (pan s) v (lastPanPoint s) (isTouch s) (lastTouchDistance s).
Definition setLastPanPoint (v : Point.t) (s : State) : State :=
  mkState (zoom s) (pan s) (isPanning s) v (isTouch s) (lastTouchDistance s).
Definition setIsTouch (v : bool) (s : State) : State :=
  mkState (zoom s) (pan s) (isPanning s) (lastPanPoint s) v (lastTouchDistance s).
Definition setLastTouchDistance (v : Q) (s : State) : State :=
  mkState (zoom s) (pan s) (isPanning s) (lastPanPoint s) (isTouch s) v.

(** The callbacks the canvas invokes. *)
Inductive Effect : Type :=
  | CanvasClick (x y : Q).   (* onCanvasClick(x, y) *)

Definition Step : Type := result (State * list Effect).

Definition handleWheel (props : Props) (s : State) (e : WheelEvent.t) : Step :=
  if WheelEvent.ctrlKey e || WheelEvent.metaKey e then
    Ok (setPan (Point.mk (Point.x (pan s) - WheelEvent.deltaX e)
                         (Point.y (pan s) - WheelEvent.deltaY e)) s, [])
  else
    match canvasRef props with
    | None => Ok (s, [])
    | Some rect =>
      let mouseX := (WheelEvent.clientX e - DOMRect.left rect)%Q in
      let mouseY := (WheelEvent.clientY e - DOMRect.top rect)%Q in
      let zoomFactor := if Qltb 0 (WheelEvent.deltaY e) then (9 # 10)%Q else (11 # 10)%Q in
      let newZoom := Math_max (1 # 10) (Math_min 3 (zoom s * zoomFactor)) in
      let deltaZoom := (newZoom - zoom s)%Q in
      r ← fdiv deltaZoom (zoom s);
      let newPan :=
        Point.mk (Point.x (pan s) - (mouseX - Point.x (pan s)) * r)
                 (Point.y (pan s) - (mouseY - Point.y (pan s)) * r) in
      Ok (setPan newPan (setZoom newZoom s), [])
    end.

Definition startPanning (cx cy : Q) (s : State) : State :=
  setLastPanPoint (Point.mk cx cy) (setIsPanning true s).

Definition handleMouseDown (props : Props) (s : State) (e : MouseEvent.t) : Step :=
  let button := MouseEvent.button e in
  let target := MouseEvent.target e in
  if (button =? 1)%Z || ((button =? 0)%Z && MouseEvent.altKey e) then
    Ok (startPanning (MouseEvent.clientX e) (MouseEvent.clientY e) s, [])
  else if (button =? 0)%Z && negb (disableCanvasClick props) then
    if negb (isCanvasClick target) then Ok (s, [])
    else if isPersonNode target || isInteractiveElement target then Ok (s, [])
    else if onCanvasClick props && includes "mode-add-person" (className props) then
      match canvasRef props with
      | None => Ok (s, [])
      | Some rect =>
        x ← fdiv (MouseEvent.clientX e - DOMRect.left rect - Point.x (pan s)) (zoom s);
        y ← fdiv (MouseEvent.clientY e - DOMRect.top rect - Point.y (pan s)) (zoom s);
        Ok (s, [CanvasClick x y])
      end
    else if includes "mode-navigate" (className props) then
      Ok (startPanning (MouseEvent.clientX e) (MouseEvent.clientY e) s, [])
    else Ok (s, [])
  else Ok (s, []).

(** [handleMouseMove]; [panSpeed = 0.7]. *)
Definition handleMouseMove (s : State) (e : MouseEvent.t) : Step :=
  if isPanning s then
    let deltaX := (MouseEvent.clientX e - Point.x (lastPanPoint s))%Q in
    let deltaY := (MouseEvent.clientY e - Point.y (lastPanPoint s))%Q in
    let panSpeed := (7 # 10)%Q in
    Ok (setLastPanPoint (Point.mk (MouseEvent.clientX e) (MouseEvent.clientY e))
          (setPan (Point.mk (Point.x (pan s) + deltaX * panSpeed)
                            (Point.y (pan s) + deltaY * panSpeed)) s), [])
  else Ok (s, []).

Definition handleMouseUp (s : State) : Step := Ok (setIsPanning false s, []).

(** The listeners the panning effect registers on [document] while
    [isPanning]; [setPan(prev => ...)] adds to the pending pan, which is
    the snapshot's when the listener is the only handler of the event. *)
Definition handleGlobalMouseMove (s : State) (e : MouseEvent.t) : Step :=
  if isPanning s then
    let deltaX := (MouseEvent.clientX e - Point.x (lastPanPoint s))%Q in
    let deltaY := (MouseEvent.clientY e - Point.y (lastPanPoint s))%Q in
    let panSpeed := (7 # 10)%Q in
    Ok (setLastPanPoint (Point.mk (MouseEvent.clientX e) (MouseEvent.clientY e))
          (setPan (Point.mk (Point.x (pan s) + deltaX * panSpeed)
                            (Point.y (pan s) + deltaY * panSpeed)) s), [])
  else Ok (s, []).

Definition handleGlobalMouseUp (s : State) : Step := Ok (setIsPanning false s, []).

Definition resetView (s : State) : Step :=
  Ok (setPan (Point.mk 0 0) (setZoom 1 s), []).

Definition returnToOrigin (s : State) : Step :=
  Ok (setPan (Point.mk 0 0) (setZoom 1 s), []).

(** [setZoom(prev => Math.min(3, prev * 1.2))] *)
Definition zoomIn (s : State) : Step :=
  Ok (setZoom (Math_min 3 (zoom s * (6 # 5))) s, []).

(** [setZoom(prev => Math.max(0.1, prev / 1.2))] *)
Definition zoomOut (s : State) : Step :=
  Ok (setZoom (Math_max (1 # 10) (zoom s / (6 # 5))) s, []).

(** [handleTouchEnd]: the stored distance is reset when one or no
    finger remains. *)
Definition handleTouchEnd (s : State) (e : TouchEvent.t) : Step :=
  match TouchEvent.touches e with
  | [] => Ok (setLastTouchDistance 0 (setIsTouch false (setIsPanning false s)), [])
  | [touch] =>
    Ok (setLastTouchDistance 0
          (setLastPanPoint (Point.mk (Touch.clientX touch) (Touch.clientY touch)) s), [])
  | _ => Ok (s, [])
  end.

Section WithSqrt.
(** [Math.sqrt], which has no exact counterpart on rationals. *)
Variable Math_sqrt : Q -> Q.

Definition getTouchDistance (touches : list Touch.t) : Q :=
  match touches with
  | touch1 :: touch2 :: _ =>
    let dx := (Touch.clientX touch2 - Touch.clientX touch1)%Q in
    let dy := (Touch.clientY touch2 - Touch.clientY touch1)%Q in
    Math_sqrt (dx * dx + dy * dy)
  | _ => 0%Q
  end.

Definition getTouchCenter (touches : list Touch.t) : result Point.t :=
  match touches with
  | [touch] => Ok (Point.mk (Touch.clientX touch) (Touch.clientY touch))
  | touch1 :: touch2 :: _ =>
    Ok (Point.mk ((Touch.clientX touch1 + Touch.clientX touch2) / 2)
                 ((Touch.clientY touch1 + Touch.clientY touch2) / 2))
  | [] => Throw TypeError
  end.

Definition handleTouchStart (props : Props) (s : State) (e : TouchEvent.t) : Step :=
  let s1 := setIsTouch true s in
  match TouchEvent.touches e with
  | [touch] =>
    if negb (isCanvasClick (TouchEvent.target e)) then Ok (s1, [])
    else if onCanvasClick props && includes "mode-add-person" (className props) then
      match canvasRef props with
      | None => Ok (s1, [])
      | Some rect =>
        x ← fdiv (Touch.clientX touch - DOMRect.left rect - Point.x (pan s)) (zoom s);
        y ← fdiv (Touch.clientY touch - DOMRect.top rect - Point.y (pan s)) (zoom s);
        Ok (s1, [CanvasClick x y])
      end
    else Ok (startPanning (Touch.clientX touch) (Touch.clientY touch) s1, [])
  | [_; _] =>
    let distance := getTouchDistance (TouchEvent.touches e) in
    center ← getTouchCenter (TouchEvent.touches e);
    Ok (setLastPanPoint center (setLastTouchDistance distance (setIsPanning false s1)), [])
  | _ => Ok (s1, [])
  end.

(** The pinch branch of [handleTouchMove]: the rescaling guarded by
    [lastTouchDistance > 0] and by the canvas rectangle. *)
Definition pinchZoom (props : Props) (s : State) (distance : Q) (center : Point.t)
  : result State :=
  if Qltb 0 (lastTouchDistance s) then
    scale ← fdiv distance (lastTouchDistance s);
    let newZoom := Math_max (1 # 10) (Math_min 3 (zoom s * scale)) in
    match canvasRef props with
    | Some rect =>
      let centerX := (Point.x center - DOMRect.left rect)%Q in
      let centerY := (Point.y center - DOMRect.top rect)%Q in
      let deltaZoom := (newZoom - zoom s)%Q in
      r ← fdiv deltaZoom (zoom s);
      let newPan :=
        Point.mk (Point.x (pan s) - (centerX - Point.x (pan s)) * r)
                 (Point.y (pan s) - (centerY - Point.y (pan s)) * r) in
      Ok (setPan newPan (setZoom newZoom s))
    | None => Ok s
    end
  else Ok s.

Definition handleTouchMove (props : Props) (s : State) (e : TouchEvent.t) : Step :=
  match TouchEvent.touches e with
  | [touch] =>
    if isPanning s then
      let deltaX := (Touch.clientX touch - Point.x (lastPanPoint s))%Q in
      let deltaY := (Touch.clientY touch - Point.y (lastPanPoint s))%Q in
      let panSpeed := 1%Q in
      Ok (setLastPanPoint (Point.mk (Touch.clientX touch) (Touch.clientY touch))
            (setPan (Point.mk (Point.x (pan s) + deltaX * panSpeed)
                              (Point.y (pan s) + deltaY * panSpeed)) s), [])
    else Ok (s, [])
  | [_; _] =>
    let distance := getTouchDistance (TouchEvent.touches e) in
    center ← getTouchCenter (TouchEvent.touches e);
    s1 ← pinchZoom props s distance center;
    Ok (setLastPanPoint center (setLastTouchDistance distance s1), [])
  | _ => Ok (s, [])
  end.

(** Everything the canvas reacts to, one handler and one render per
    event.  The two [Document] events are the listeners the panning
    effect registers on [document]. *)
Inductive Event : Type :=
  | Wheel (e : WheelEvent.t)
  | MouseDown (e : MouseEvent.t)
  | MouseMove (e : MouseEvent.t)
  | MouseUp
  | TouchStart (e : TouchEvent.t)
  | TouchMove (e : TouchEvent.t)
  | TouchEnd (e : TouchEvent.t)
  | ClickZoomIn
  | ClickZoomOut
  | ClickResetView
  | ClickReturnToOrigin
  | DocumentMouseMove (e : MouseEvent.t)
  | DocumentMouseUp.

Definition step (props : Props) (s : State) (ev : Event) : Step :=
  match ev with
  | Wheel e => handleWheel props s e
  | MouseDown e => handleMouseDown props s e
  | MouseMove e => handleMouseMove s e
  | MouseUp => handleMouseUp s
  | TouchStart e => handleTouchStart props s e
  | TouchMove e => handleTouchMove props s e
  | TouchEnd e => handleTouchEnd s e
  | ClickZoomIn => zoomIn s
  | ClickZoomOut => zoomOut s
  | ClickResetView => resetView s
  | ClickReturnToOrigin => returnToOrigin s
  | DocumentMouseMove e => handleGlobalMouseMove s e
  | DocumentMouseUp => handleGlobalMouseUp s
  end.

(** A session: events in order, each under the props of its render. *)
Fixpoint run (s : State) (evs : list (Props * Event)) : result State :=
  match evs with
  | [] => Ok s
  | (props, ev) :: evs' =>
    r ← step props s ev;
    run (fst r) evs'
  end.

End WithSqrt.

End InteractiveCanvas.

(** ** The shared data model *)

Inductive InteractionMode : Type :=
  | navigate
  | add_person
  | connect.

Inductive RelationshipType : Type :=
  | parent
  | spouse
  | child.

Definition InteractionMode_eqb (a b : InteractionMode) : bool :=
  match a, b with
  | navigate, navigate | add_person, add_person | connect, connect => true
  | _, _ => false
  end.

Module Person.
Record t : Type := mk {
  id : string;
  name : string;
  x : Q;
  y : Q;
  birthDate : string;
  deathDate : string;
  gender : string
}.
(** [{ ...person, x: snappedX, y: snappedY }] *)
Definition moveTo (nx ny : Q) (p : t) : t :=
  mk (id p) (name p) nx ny (birthDate p) (deathDate p) (gender p).
End Person.

Module Relationship.
Record t : Type := mk {
  id : string;
  type : RelationshipType;
  from : string;
  to : string
}.
End Relationship.

Module FamilyTree.
Record t : Type := mk {
  people : list Person.t;
  relationships : list Relationship.t
}.
End FamilyTree.

(** [Math.round(v / gridSize) * gridSize] with [gridSize = 20] *)
Definition snapToGrid (v : Q) : Q := (Math_round (v / 20) * 20)%Q.

(** ** Timers: [setTimeout] and [clearTimeout]

    A pending timer is its handle, its deadline and what its callback
    closed over.  Handles are issued in increasing order and never
    reused. *)

Module Timers.
Section Table.
Context {A : Type}.

Record entry : Type := mkEntry { handle : nat; deadline : Z; closure : A }.

Record t : Type := mk { pending : list entry; next : nat }.

Definition empty : t := mk [] 1.

(** [setTimeout(callback, delay)] at time [now]; the handle returned is
    [next]. *)
Definition setTimeout (now delay : Z) (c : A) (tb : t) : t :=
  mk (mkEntry (next tb) (now + delay) c :: pending tb) (S (next tb)).

Definition clearTimeout (h : nat) (tb : t) : t :=
  mk (filter (fun e => handle e <> h) (pending tb)) (next tb).

Definition isPending (h : nat) (tb : t) : bool :=
  existsb (fun e => Nat.eqb (handle e) h) (pending tb).

(** The timer [h] is due at [now]: it leaves the table and its callback
    runs. *)
Definition due (h : nat) (now : Z) (tb : t) : option entry :=
  List.find (fun e => Nat.eqb (handle e) h && (deadline e <=? now)%Z) (pending tb).

End Table.
Arguments entry : clear implicits.
Arguments t : clear implicits.
End Timers.

(** ** The desktop node: [PersonNode] *)

Module PersonNode.

Record Props : Type := mkProps {
  person : Person.t;
  interactionMode : InteractionMode;
  connectionType : RelationshipType;
  canvasRef : option DOMRect.t;      (* canvasRef?.current, measured *)
  zoom : Q;                          (* default 1 *)
  pan : Point.t;                     (* default (0,0) *)
  isMobile : bool                    (* isMobile() *)
}.

Record State : Type := mkState {
  isDragging : bool;
  isConnecting : bool;
  isEditing : bool;
  dragStart : Point.t;
  longPressTimer : option nat;
  touchStartTime : Z
}.

Definition initial : State :=
  {| isDragging := false; isConnecting := false; isEditing := false;
     dragStart := Point.mk 0 0; longPressTimer := None; touchStartTime := 0 |}.

Definition setIsDragging (v : bool) (s : State) : State :=
  mkState v (isConnecting s) (isEditing s) (dragStart s) (longPressTimer s) (touchStartTime s).
Definition setIsConnecting (v : bool) (s : State) : State :=
  mkState (isDragging s) v (isEditing s) (dragStart s) (longPressTimer s) (touchStartTime s).
Definition setIsEditing (v : bool) (s : State) : State :=
  mkState (isDragging s) (isConnecting s) v (dragStart s) (longPressTimer s) (touchStartTime s).
Definition setDragStart (v : Point.t) (s : State) : State :=
  mkState (isDragging s) (isConnecting s) (isEditing s) v (longPressTimer s) (touchStartTime s).
Definition setLongPressTimer (v : option nat) (s : State) : State :=
  mkState (isDragging s) (isConnecting s) (isEditing s) (dragStart s) v (touchStartTime s).
Definition setTouchStartTime (v : Z) (s : State) : State :=
  mkState (isDragging s) (isConnecting s) (isEditing s) (dragStart s) (longPressTimer s) v.

(** What a handler does besides setting state, in the order of the
    calls. *)
Inductive Effect : Type :=
  | PersonUpdate (p : Person.t)                       (* onPersonUpdate(p) *)
  | PersonDelete (id : string)                        (* onPersonDelete(id) *)
  | Select                                            (* onSelect() *)
  | ConnectionDrag (id : string) (start current : Point.t)
  | ConnectionDragEnd
  | SetTimeout (delay : Z) (captured : InteractionMode)
  | ClearTimeout (h : nat).

Definition Step : Type := result (State * list Effect).

Module MouseEvent.
Record t : Type := mk { button : Z; clientX : Q; clientY : Q; tagName : string }.
End MouseEvent.

Definition screenToCanvasCoords (props : Props) (screenX screenY : Q) : result Point.t :=
  match canvasRef props with
  | None => Ok (Point.mk screenX screenY)
  | Some rect =>
    canvasX ← fdiv (screenX - DOMRect.left rect - Point.x (pan props)) (zoom props);
    canvasY ← fdiv (screenY - DOMRect.top rect - Point.y (pan props)) (zoom props);
    Ok (Point.mk canvasX canvasY)
  end.

Definition isFormElement (tag : string) : bool :=
  String.eqb tag "INPUT" || String.eqb tag "SELECT" || String.eqb tag "BUTTON".

(** The centre of the node: [person.x + 75], [person.y + 50]. *)
Definition center (p : Person.t) : Point.t :=
  Point.mk (Person.x p + 75) (Person.y p + 50).

Definition handleMouseDown (props : Props) (s : State) (e : MouseEvent.t) : Step :=
  if negb (MouseEvent.button e =? 0)%Z then Ok (s, [])
  else if isEditing s then Ok (s, [])
  else if isFormElement (MouseEvent.tagName e) then Ok (s, [])
  else
    match interactionMode props with
    | connect =>
      let c := center (person props) in
      currentPos ← screenToCanvasCoords props (MouseEvent.clientX e) (MouseEvent.clientY e);
      Ok (setDragStart c (setIsConnecting true s),
          [ConnectionDrag (Person.id (person props)) c currentPos; Select])
    | navigate | add_person =>
      Ok (setDragStart (Point.mk (MouseEvent.clientX e - Person.x (person props))
                                 (MouseEvent.clientY e - Person.y (person props)))
            (setIsDragging true s),
          [Select])
    end.

(** The position a drag moves the node to. *)
Definition dragged (props : Props) (s : State) (clientX clientY : Q) : Person.t :=
  let newX := (clientX - Point.x (dragStart s))%Q in
  let newY := (clientY - Point.y (dragStart s))%Q in
  Person.moveTo (snapToGrid newX) (snapToGrid newY) (person props).

(** [handleMouseMove], the listener on [document]. *)
Definition handleMouseMove (props : Props) (s : State) (e : MouseEvent.t) : Step :=
  if isDragging s then
    Ok (s, [PersonUpdate (dragged props s (MouseEvent.clientX e) (MouseEvent.clientY e))])
  else if isConnecting s then
    currentPos ← screenToCanvasCoords props (MouseEvent.clientX e) (MouseEvent.clientY e);
    Ok (s, [ConnectionDrag (Person.id (person props)) (dragStart s) currentPos])
  else Ok (s, []).

Definition handleMouseUp (props : Props) (s : State) : Step :=
  if isDragging s then Ok (setIsDragging false s, [])
  else if isConnecting s then Ok (setIsConnecting false s, [ConnectionDragEnd])
  else
    match interactionMode props with
    | connect => Ok (s, [Select])
    | _ => Ok (s, [])
    end.

Definition handleGlobalMouseUp (s : State) : Step :=
  if isDragging s then Ok (setIsDragging false s, [])
  else if isConnecting s then Ok (setIsConnecting false s, [ConnectionDragEnd])
  else Ok (s, []).

(** [if (longPressTimer) clearTimeout(longPressTimer)] *)
Definition clearPending (s : State) : list Effect :=
  match longPressTimer s with
  | Some h => [ClearTimeout h]
  | None => []
  end.

(** [handleTouchStart] at time [now]; [fresh] is the handle [setTimeout]
    returns. *)
Definition handleTouchStart (props : Props) (now : Z) (fresh : nat) (s : State)
    (touches : list Touch.t) : Step :=
  match touches with
  | [touch] =>
    if isEditing s then Ok (s, [])
    else
      let s1 := setTouchStartTime now s in
      match interactionMode props with
      | connect =>
        let c := center (person props) in
        currentPos ← screenToCanvasCoords props (Touch.clientX touch) (Touch.clientY touch);
        Ok (setDragStart c (setIsConnecting true s1),
            clearPending s ++
            [ConnectionDrag (Person.id (person props)) c currentPos; Select])
      | navigate | add_person =>
        Ok (setLongPressTimer (Some fresh)
              (setDragStart (Point.mk (Touch.clientX touch - Person.x (person props))
                                      (Touch.clientY touch - Person.y (person props))) s1),
            clearPending s ++ [SetTimeout 500 (interactionMode props); Select])
      end
  | _ => Ok (s, [])
  end.

(** The callback of the long-press timer, which closed over the
    interaction mode of the render that armed it. *)
Definition longPress (captured : InteractionMode) (s : State) : State :=
  match captured with
  | navigate => setIsEditing true s
  | _ => s
  end.

(** Movement since touch-down beyond [moveThreshold = 10] in either
    axis. *)
Definition movedTooMuch (p : Person.t) (start : Point.t) (touch : Touch.t) : bool :=
  let deltaX := Math_abs (Touch.clientX touch - (Person.x p + Point.x start)) in
  let deltaY := Math_abs (Touch.clientY touch - (Person.y p + Point.y start)) in
  Qltb 10 deltaX || Qltb 10 deltaY.

(** [interactionMode === 'navigate' || interactionMode === 'add-person'] *)
Definition dragsNodes (m : InteractionMode) : bool :=
  match m with
  | navigate | add_person => true
  | connect => false
  end.

Definition handleTouchMove (props : Props) (now : Z) (s : State)
    (touches : list Touch.t) : Step :=
  match touches with
  | [touch] =>
    let timeSinceStart := (now - touchStartTime s)%Z in
    let '(s1, cancelled) :=
      match longPressTimer s with
      | Some h =>
        if movedTooMuch (person props) (dragStart s) touch then
          let s' := setLongPressTimer None s in
          (if (timeSinceStart <? 200)%Z && dragsNodes (interactionMode props)
           then setIsDragging true s' else s',
           [ClearTimeout h])
        else (s, [])
      | None => (s, [])
      end in
    if isDragging s then
      Ok (s1, cancelled ++
              [PersonUpdate (dragged props s (Touch.clientX touch) (Touch.clientY touch))])
    else if isConnecting s then
      currentPos ← screenToCanvasCoords props (Touch.clientX touch) (Touch.clientY touch);
      Ok (s1, cancelled ++ [ConnectionDrag (Person.id (person props)) (dragStart s) currentPos])
    else Ok (s1, cancelled)
  | _ => Ok (s, [])
  end.

(** [handleTouchEnd]; [hitTest x y] is the person id of
    [document.elementFromPoint(x, y)?.closest('[data-person-id]')]. *)
Definition handleTouchEnd (props : Props) (hitTest : Q -> Q -> option string)
    (now : Z) (s : State) (changedTouches : list Touch.t) : Step :=
  let s1 := match longPressTimer s with Some _ => setLongPressTimer None s | None => s end in
  let touchDuration := (now - touchStartTime s)%Z in
  if isDragging s then Ok (setIsDragging false s1, clearPending s)
  else if isConnecting s then
    let targeted :=
      match changedTouches with
      | touch :: _ =>
        match hitTest (Touch.clientX touch) (Touch.clientY touch) with
        | Some target =>
          if negb (String.eqb target (Person.id (person props))) then [Select] else []
        | None => []
        end
      | [] => []
      end in
    Ok (setIsConnecting false s1, clearPending s ++ targeted ++ [ConnectionDragEnd])
  else
    match interactionMode props with
    | connect =>
      if (touchDuration <? 200)%Z then Ok (s1, clearPending s ++ [Select])
      else Ok (s1, clearPending s)
    | _ => Ok (s1, clearPending s)
    end.

Definition handleDoubleClick (props : Props) (s : State) : Step :=
  match interactionMode props with
  | navigate => if negb (isMobile props) then Ok (setIsEditing true s, []) else Ok (s, [])
  | _ => Ok (s, [])
  end.

Definition handleEditSubmit (s : State) : Step := Ok (setIsEditing false s, []).

(** The delete button of the edit form, confirmed. *)
Definition handleDelete (props : Props) (s : State) : Step :=
  Ok (s, [PersonDelete (Person.id (person props))]).

(** The cleanup of the timer effect: it runs with the handle of the
    render it belongs to when the handle changes and at unmount. *)
Definition timerCleanup (before after : option nat) : list Effect :=
  match before with
  | Some h => if decide (after = Some h) then [] else [ClearTimeout h]
  | None => []
  end.

(** The gesture state of section 4.3, read off the flags. *)
Inductive GestureState : Type :=
  | Idle
  | ArmedForLongPress
  | Dragging
  | ConnectingOut.

(** The node with the timers of its page. *)
Record World : Type := mkWorld {
  node : State;
  timers : Timers.t InteractionMode
}.

Definition gestureState (w : World) : GestureState :=
  if isDragging (node w) then Dragging
  else if isConnecting (node w) then ConnectingOut
  else match longPressTimer (node w) with
       | Some h => if Timers.isPending h (timers w) then ArmedForLongPress else Idle
       | None => Idle
       end.

Inductive Event : Type :=
  | MouseDown (e : MouseEvent.t)
  | MouseUp
  | DoubleClick
  | DocumentMouseMove (e : MouseEvent.t)
  | DocumentMouseUp
  | TouchStart (now : Z) (touches : list Touch.t)
  | TouchMove (now : Z) (touches : list Touch.t)
  | TouchEnd (now : Z) (changedTouches : list Touch.t)
  | TimerFires (h : nat) (now : Z)
  | EditSubmit
  | DeleteClick
  | Unmount.

(** The callbacks that reach the parent. *)
Definition isCallback (e : Effect) : bool :=
  match e with
  | SetTimeout _ _ | ClearTimeout _ => false
  | _ => true
  end.

Definition runEffect (now : Z) (tb : Timers.t InteractionMode) (e : Effect)
  : Timers.t InteractionMode :=
  match e with
  | SetTimeout delay captured => Timers.setTimeout now delay captured tb
  | ClearTimeout h => Timers.clearTimeout h tb
  | _ => tb
  end.

Definition settle (now : Z) (w : World) (r : State * list Effect) : World * list Effect :=
  let effs := snd r ++ timerCleanup (longPressTimer (node w)) (longPressTimer (fst r)) in
  (mkWorld (fst r) (fold_left (runEffect now) effs (timers w)),
   List.filter isCallback effs).

Arguments settle : simpl never.

(** The display node takes the mouse and touch events; while editing,
    the form is rendered in its place and only the form's buttons
    remain.  The document listeners are registered while dragging or
    connecting.  At unmount the timer cleanup runs and the state is
    gone; a node mounted afterwards starts from [initial]. *)
Definition step (props : Props) (hitTest : Q -> Q -> option string) (w : World)
    (ev : Event) : result (World * list Effect) :=
  let s := node w in
  let listening := isDragging s || isConnecting s in
  match ev with
  | MouseDown e =>
    if isEditing s then Ok (w, [])
    else r ← handleMouseDown props s e; Ok (settle 0 w r)
  | MouseUp =>
    if isEditing s then Ok (w, [])
    else r ← handleMouseUp props s; Ok (settle 0 w r)
  | DoubleClick =>
    if isEditing s then Ok (w, [])
    else r ← handleDoubleClick props s; Ok (settle 0 w r)
  | DocumentMouseMove e =>
    if listening then r ← handleMouseMove props s e; Ok (settle 0 w r) else Ok (w, [])
  | DocumentMouseUp =>
    if listening then r ← handleGlobalMouseUp s; Ok (settle 0 w r) else Ok (w, [])
  | TouchStart now touches =>
    if isEditing s then Ok (w, [])
    else r ← handleTouchStart props now (Timers.next (timers w)) s touches; Ok (settle now w r)
  | TouchMove now touches =>
    if isEditing s then Ok (w, [])
    else r ← handleTouchMove props now s touches; Ok (settle now w r)
  | TouchEnd now changedTouches =>
    if isEditing s then Ok (w, [])
    else r ← handleTouchEnd props hitTest now s changedTouches; Ok (settle now w r)
  | TimerFires h now =>
    match Timers.due h now (timers w) with
    | Some e =>
      Ok (mkWorld (longPress (Timers.closure e) s) (Timers.clearTimeout h (timers w)), [])
    | None => Ok (w, [])
    end
  | EditSubmit =>
    if isEditing s then r ← handleEditSubmit s; Ok (settle 0 w r) else Ok (w, [])
  | DeleteClick =>
    if isEditing s then r ← handleDelete props s; Ok (settle 0 w r) else Ok (w, [])
  | Unmount => Ok (settle 0 w (initial, []))
  end.

Fixpoint run (hitTest : Q -> Q -> option string) (w : World) (evs : list (Props * Event))
  : result (World * list Effect) :=
  match evs with
  | [] => Ok (w, [])
  | (props, ev) :: evs' =>
    r ← step props hitTest w ev;
    r' ← run hitTest (fst r) evs';
    Ok (fst r', snd r ++ snd r')
  end.

Definition start : World := mkWorld initial Timers.empty.

End PersonNode.

(** ** The mobile front end: [mobile-app.js] *)

Module Mobile.

(** *** [MobilePersonNode] *)

Module Node.

Record Props : Type := mkProps {
  person : Person.t;
  connectionMode : bool       (* mode === 'connect' *)
}.

Record State : Type := mkState {
  isEditing : bool;
  isDragging : bool;
  longPressTimer : option nat;
  dragStart : Point.t
}.

Definition initial : State :=
  {| isEditing := false; isDragging := false; longPressTimer := None;
     dragStart := Point.mk 0 0 |}.

Definition setIsEditing (v : bool) (s : State) : State :=
  mkState v (isDragging s) (longPressTimer s) (dragStart s).
Definition setIsDragging (v : bool) (s : State) : State :=
  mkState (isEditing s) v (longPressTimer s) (dragStart s).
Definition setLongPressTimer (v : option nat) (s : State) : State :=
  mkState (isEditing s) (isDragging s) v (dragStart s).
Definition setDragStart (v : Point.t) (s : State) : State :=
  mkState (isEditing s) (isDragging s) (longPressTimer s) v.

Inductive Effect : Type :=
  | PersonUpdate (p : Person.t)                  (* onPersonUpdate(p) *)
  | PersonDelete (id : string)                   (* onPersonDelete(id) *)
  | PersonSelect (id : string)                   (* onPersonSelect(id) *)
  | ConnectionStart (id : string) (x y : Q)      (* onConnectionStart(id, x, y) *)
  | SetTimeout (delay : Z)
  | ClearTimeout (h : nat).

Definition clearPending (s : State) : list Effect :=
  match longPressTimer s with
  | Some h => [ClearTimeout h]
  | None => []
  end.

(** [handleTouchStart]; [touch] is [e.touches[0]] and [fresh] the handle
    [setTimeout] returns. *)
Definition handleTouchStart (props : Props) (fresh : nat) (s : State) (touch : Touch.t)
  : State * list Effect :=
  if isEditing s then (s, [])
  else
    let p := person props in
    if connectionMode props then
      (s, clearPending s ++
          [ConnectionStart (Person.id p) (Person.x p + 60) (Person.y p + 30);
           PersonSelect (Person.id p)])
    else
      (setLongPressTimer (Some fresh)
         (setDragStart (Point.mk (Touch.clientX touch - Person.x p)
                                 (Touch.clientY touch - Person.y p)) s),
       clearPending s ++ [SetTimeout 600; PersonSelect (Person.id p)]).

(** The callback of the long-press timer. *)
Definition longPress (s : State) : State :=
  setLongPressTimer None (setIsEditing true s).

Definition movedTooMuch (p : Person.t) (start : Point.t) (touch : Touch.t) : bool :=
  let deltaX := Math_abs (Touch.clientX touch - (Person.x p + Point.x start)) in
  let deltaY := Math_abs (Touch.clientY touch - (Person.y p + Point.y start)) in
  Qltb 10 deltaX || Qltb 10 deltaY.

Definition dragged (props : Props) (s : State) (touch : Touch.t) : Person.t :=
  let newX := Math_max 0 (Touch.clientX touch - Point.x (dragStart s)) in
  let newY := Math_max 0 (Touch.clientY touch - Point.y (dragStart s)) in
  Person.moveTo (snapToGrid newX) (snapToGrid newY) (person props).

Definition handleTouchMove (props : Props) (s : State) (touch : Touch.t)
  : State * list Effect :=
  if isEditing s || connectionMode props then (s, [])
  else
    let '(s1, cancelled) :=
      match longPressTimer s with
      | Some h =>
        if movedTooMuch (person props) (dragStart s) touch then
          (setIsDragging true (setLongPressTimer None s), [ClearTimeout h])
        else (s, [])
      | None => (s, [])
      end in
    if isDragging s then (s1, cancelled ++ [PersonUpdate (dragged props s touch)])
    else (s1, cancelled).

Definition handleTouchEnd (s : State) : State * list Effect :=
  (setIsDragging false
     (match longPressTimer s with Some _ => setLongPressTimer None s | None => s end),
   clearPending s).

(** [handleEditSubmit(updatedPerson)] *)
Definition handleEditSubmit (updated : Person.t) (s : State) : State * list Effect :=
  (setIsEditing false s, [PersonUpdate updated]).

Definition handleEditCancel (s : State) : State * list Effect :=
  (setIsEditing false s, []).

(** [onDelete], confirmed. *)
Definition handleDelete (props : Props) (s : State) : State * list Effect :=
  (s, [PersonDelete (Person.id (person props))]).

End Node.

(** The fields of the edit form; the editor submits
    [{ ...person, ...formData }]. *)
Record FormData : Type := mkFormData {
  formName : string;
  formBirthDate : string;
  formDeathDate : string;
  formGender : string
}.

Definition withFormData (p : Person.t) (d : FormData) : Person.t :=
  Person.mk (Person.id p) (formName d) (Person.x p) (Person.y p)
            (formBirthDate d) (formDeathDate d) (formGender d).

(** *** [MobileCanvas] *)

Module Canvas.

Record Props : Type := mkProps {
  scale : Q;
  offset : Point.t;
  mode : InteractionMode;
  rect : DOMRect.t            (* canvasRef.current.getBoundingClientRect() *)
}.

Record Target : Type := mkTarget {
  onPersonNode : bool;        (* target.closest('[data-person-id]') *)
  onCanvas : bool             (* target === canvasRef.current || target.closest('.canvas-content') *)
}.

Record State : Type := mkState {
  isPanning : bool;
  isZooming : bool;
  lastTouchCenter : Point.t;
  lastTouchDistance : Q;
  touchStartTime : Z
}.

Definition initial : State :=
  {| isPanning := false; isZooming := false; lastTouchCenter := Point.mk 0 0;
     lastTouchDistance := 0; touchStartTime := 0 |}.

Definition setIsPanning (v : bool) (s : State) : State :=
  mkState v (isZooming s) (lastTouchCenter s) (lastTouchDistance s) (touchStartTime s).
Definition setIsZooming (v : bool) (s : State) : State :=
  mkState (isPanning s) v (lastTouchCenter s) (lastTouchDistance s) (touchStartTime s).
Definition setLastTouchCenter (v : Point.t) (s : State) : State :=
  mkState (isPanning s) (isZooming s) v (lastTouchDistance s) (touchStartTime s).
Definition setLastTouchDistance (v : Q) (s : State) : State :=
  mkState (isPanning s) (isZooming s) (lastTouchCenter s) v (touchStartTime s).
Definition setTouchStartTime (v : Z) (s : State) : State :=
  mkState (isPanning s) (isZooming s) (lastTouchCenter s) (lastTouchDistance s) v.

Inductive Effect : Type :=
  | CanvasTouch (x y : Q)            (* onCanvasTouch(x, y) *)
  | OffsetChange (p : Point.t).      (* onOffsetChange(p) *)

Definition Step : Type := result (State * list Effect).

(** The world point of a touch: [(clientX - rect.left - offset.x) / scale]. *)
Definition toCanvas (props : Props) (touch : Touch.t) : result Point.t :=
  x ← fdiv (Touch.clientX touch - DOMRect.left (rect props) - Point.x (offset props)) (scale props);
  y ← fdiv (Touch.clientY touch - DOMRect.top (rect props) - Point.y (offset props)) (scale props);
  Ok (Point.mk x y).

Definition pans (m : InteractionMode) : bool :=
  match m with
  | navigate | connect => true
  | add_person => false
  end.

Section WithSqrt.
Variable Math_sqrt : Q -> Q.

Definition getTouchDistance (touches : list Touch.t) : Q :=
  match touches with
  | touch1 :: touch2 :: _ =>
    let dx := (Touch.clientX touch2 - Touch.clientX touch1)%Q in
    let dy := (Touch.clientY touch2 - Touch.clientY touch1)%Q in
    Math_sqrt (dx * dx + dy * dy)
  | _ => 0%Q
  end.

Definition getTouchCenter (touches : list Touch.t) : result Point.t :=
  match touches with
  | [touch] => Ok (Point.mk (Touch.clientX touch) (Touch.clientY touch))
  | touch1 :: touch2 :: _ =>
    Ok (Point.mk ((Touch.clientX touch1 + Touch.clientX touch2) / 2)
                 ((Touch.clientY touch1 + Touch.clientY touch2) / 2))
  | [] => Throw TypeError
  end.

Definition handleTouchStart (props : Props) (now : Z) (s : State)
    (touches : list Touch.t) (target : Target) : Step :=
  let s0 := setTouchStartTime now s in
  if onPersonNode target then Ok (s0, [])
  else
    match touches with
    | [touch] =>
      let s1 := setLastTouchCenter (Point.mk (Touch.clientX touch) (Touch.clientY touch)) s0 in
      if InteractionMode_eqb (mode props) add_person && onCanvas target then
        w ← toCanvas props touch;
        Ok (s1, [CanvasTouch (Point.x w) (Point.y w)])
      else if pans (mode props) then Ok (setIsPanning true s1, [])
      else Ok (s1, [])
    | [_; _] =>
      let distance := getTouchDistance touches in
      center ← getTouchCenter touches;
      Ok (setLastTouchCenter center
            (setLastTouchDistance distance (setIsPanning false (setIsZooming true s0))), [])
    | _ => Ok (s0, [])
    end.

End WithSqrt.

Definition handleTouchMove (props : Props) (s : State) (touches : list Touch.t) : Step :=
  match touches with
  | [touch] =>
    if isPanning s && pans (mode props) then
      let deltaX := (Touch.clientX touch - Point.x (lastTouchCenter s))%Q in
      let deltaY := (Touch.clientY touch - Point.y (lastTouchCenter s))%Q in
      Ok (setLastTouchCenter (Point.mk (Touch.clientX touch) (Touch.clientY touch)) s,
          [OffsetChange (Point.mk (Point.x (offset props) + deltaX)
                                  (Point.y (offset props) + deltaY))])
    else Ok (s, [])
  | _ => Ok (s, [])
  end.

(** [handleTouchEnd]; [touches] are the fingers left and [changed] is
    [e.changedTouches[0]]. *)
Definition handleTouchEnd (props : Props) (now : Z) (s : State)
    (touches : list Touch.t) (changed : Touch.t) (target : Target) : Step :=
  let touchDuration := (now - touchStartTime s)%Z in
  match touches with
  | [] =>
    let s1 := setIsZooming false (setIsPanning false s) in
    if (touchDuration <? 200)%Z && InteractionMode_eqb (mode props) connect
       && negb (isPanning s) then
      if onCanvas target then
        w ← toCanvas props changed;
        Ok (s1, [CanvasTouch (Point.x w) (Point.y w)])
      else Ok (s1, [])
    else Ok (s1, [])
  | _ => Ok (s, [])
  end.

End Canvas.

(** *** [MobileFamilyTreeApp] *)

Module App.

(** [connectionStart]: the connection draft. *)
Record Draft : Type := mkDraft { personId : string; x : Q; y : Q }.

Record State : Type := mkState {
  familyTree : FamilyTree.t;
  selectedPersonId : option string;
  mode : InteractionMode;
  connectionType : RelationshipType;
  connectionStart : option Draft;
  scale : Q;
  offset : Point.t;
  showAddForm : bool;
  addPosition : Point.t;
  showMenu : bool
}.

Definition initial : State :=
  {| familyTree := FamilyTree.mk [] []; selectedPersonId := None; mode := navigate;
     connectionType := parent; connectionStart := None; scale := 1;
     offset := Point.mk 0 0; showAddForm := false; addPosition := Point.mk 0 0;
     showMenu := false |}.

Definition setFamilyTree (v : FamilyTree.t) (s : State) : State :=
  mkState v (selectedPersonId s) (mode s) (connectionType s) (connectionStart s)
          (scale s) (offset s) (showAddForm s) (addPosition s) (showMenu s).
Definition setSelectedPersonId (v : option string) (s : State) : State :=
  mkState (familyTree s) v (mode s) (connectionType s) (connectionStart s)
          (scale s) (offset s) (showAddForm s) (addPosition s) (showMenu s).
Definition setMode (v : InteractionMode) (s : State) : State :=
  mkState (familyTree s) (selectedPersonId s) v (connectionType s) (connectionStart s)
          (scale s) (offset s) (showAddForm s) (addPosition s) (showMenu s).
Definition setConnectionType (v : RelationshipType) (s : State) : State :=
  mkState (familyTree s) (selectedPersonId s) (mode s) v (connectionStart s)
          (scale s) (offset s) (showAddForm s) (addPosition s) (showMenu s).
Definition setConnectionStart (v : option Draft) (s : State) : State :=
  mkState (familyTree s) (selectedPersonId s) (mode s) (connectionType s) v
          (scale s) (offset s) (showAddForm s) (addPosition s) (showMenu s).
Definition setScale (v : Q) (s : State) : State :=
  mkState (familyTree s) (selectedPersonId s) (mode s) (connectionType s) (connectionStart s)
          v (offset s) (showAddForm s) (addPosition s) (showMenu s).
Definition setOffset (v : Point.t) (s : State) : State :=
  mkState (familyTree s) (selectedPersonId s) (mode s) (connectionType s) (connectionStart s)
          (scale s) v (showAddForm s) (addPosition s) (showMenu s).
Definition setShowAddForm (v : bool) (s : State) : State :=
  mkState (familyTree s) (selectedPersonId s) (mode s) (connectionType s) (connectionStart s)
          (scale s) (offset s) v (addPosition s) (showMenu s).
Definition setAddPosition (v : Point.t) (s : State) : State :=
  mkState (familyTree s) (selectedPersonId s) (mode s) (connectionType s) (connectionStart s)
          (scale s) (offset s) (showAddForm s) v (showMenu s).
Definition setShowMenu (v : bool) (s : State) : State :=
  mkState (familyTree s) (selectedPersonId s) (mode s) (connectionType s) (connectionStart s)
          (scale s) (offset s) (showAddForm s) (addPosition s) v.

(** Each handler takes the snapshot [snap] its closure was created
    with and the pending state [s] its [set] calls build up. *)

(** [Date.now().toString()] *)
Definition freshId (now : Z) : string := pretty now.

Definition addPerson (snap : State) (now : Z) (d : FormData) (s : State) : State :=
  let newPerson :=
    Person.mk (freshId now) (formName d) (Point.x (addPosition snap)) (Point.y (addPosition snap))
              (formBirthDate d) (formDeathDate d) (formGender d) in
  let prev := familyTree s in
  setShowAddForm false
    (setFamilyTree (FamilyTree.mk (FamilyTree.people prev ++ [newPerson])
                                  (FamilyTree.relationships prev)) s).

Definition updatePerson (updatedPerson : Person.t) (s : State) : State :=
  let prev := familyTree s in
  setFamilyTree
    (FamilyTree.mk
       (map (fun p => if String.eqb (Person.id p) (Person.id updatedPerson)
                      then updatedPerson else p)
            (FamilyTree.people prev))
       (FamilyTree.relationships prev)) s.

(** The tree [deletePerson(id)] stores. *)
Definition withoutPerson (id : string) (prev : FamilyTree.t) : FamilyTree.t :=
  FamilyTree.mk
    (List.filter (fun p => negb (String.eqb (Person.id p) id)) (FamilyTree.people prev))
    (List.filter (fun r => negb (String.eqb (Relationship.from r) id) &&
                           negb (String.eqb (Relationship.to r) id))
                 (FamilyTree.relationships prev)).

Definition deletePerson (id : string) (s : State) : State :=
  setSelectedPersonId None (setFamilyTree (withoutPerson id (familyTree s)) s).

Definition addRelationship (now : Z) (fromId toId : string) (type : RelationshipType)
    (s : State) : State :=
  let newRelationship := Relationship.mk (freshId now) type fromId toId in
  let prev := familyTree s in
  setFamilyTree (FamilyTree.mk (FamilyTree.people prev)
                               (FamilyTree.relationships prev ++ [newRelationship])) s.

Definition deleteRelationship (id : string) (s : State) : State :=
  let prev := familyTree s in
  setFamilyTree
    (FamilyTree.mk (FamilyTree.people prev)
       (List.filter (fun r => negb (String.eqb (Relationship.id r) id))
                    (FamilyTree.relationships prev))) s.

Definition handleCanvasTouch (snap : State) (x y : Q) (s : State) : State :=
  match mode snap with
  | add_person => setShowAddForm true (setAddPosition (Point.mk (x - 60) (y - 30)) s)
  | _ =>
    match connectionStart snap with
    | Some _ => setConnectionStart None s
    | None => s
    end
  end.

Definition handlePersonSelect (snap : State) (now : Z) (personId' : string) (s : State)
  : result State :=
  s1 ← match mode snap with
       | connect =>
         match connectionStart snap with
         | Some draft =>
           if negb (String.eqb (personId draft) personId') then
             Ok (setConnectionStart None
                   (addRelationship now (personId draft) personId' (connectionType snap) s))
           else Ok s
         | None =>
           match List.find (fun p => String.eqb (Person.id p) personId')
                           (FamilyTree.people (familyTree snap)) with
           | Some person =>
             Ok (setConnectionStart
                   (Some (mkDraft personId' (Person.x person + 60) (Person.y person + 30))) s)
           | None => Throw TypeError
           end
         end
       | _ => Ok s
       end;
  Ok (setSelectedPersonId (Some personId') s1).

Definition handleConnectionStart (snap : State) (personId' : string) (x' y' : Q) (s : State)
  : State :=
  match mode snap with
  | connect => setConnectionStart (Some (mkDraft personId' x' y')) s
  | _ => s
  end.

(** [handleImport], once the file is read. *)
Definition handleImport (imported : FamilyTree.t) (s : State) : State :=
  setScale 1 (setOffset (Point.mk 0 0) (setFamilyTree imported s)).

(** [handleClear], confirmed. *)
Definition handleClear (s : State) : State :=
  setScale 1 (setOffset (Point.mk 0 0) (setFamilyTree (FamilyTree.mk [] []) s)).

End App.

(** *** The mobile application as a whole

    The application state, the canvas state, the state of the node
    mounted for each person (keyed by person id, as React keys them)
    and the pending timers, each owned by the node that armed it. *)

Record System : Type := mkSystem {
  app : App.State;
  canvas : Canvas.State;
  nodes : gmap string Node.State;
  timers : Timers.t string
}.

(** The mounted application, [loadFamilyTree()] having returned [saved]. *)
Definition start (saved : FamilyTree.t) : System :=
  mkSystem (App.setFamilyTree saved App.initial) Canvas.initial ∅ Timers.empty.

Definition findPerson (id : string) (tree : FamilyTree.t) : option Person.t :=
  List.find (fun p => String.eqb (Person.id p) id) (FamilyTree.people tree).

Definition nodeState (sys : System) (id : string) : Node.State :=
  default Node.initial (nodes sys !! id).

Definition isMounted (id : string) (tree : FamilyTree.t) : bool :=
  existsb (fun p => String.eqb (Person.id p) id) (FamilyTree.people tree).

(** The nodes of people no longer listed are unmounted. *)
Definition unmountGone (tree : FamilyTree.t) (ns : gmap string Node.State)
  : gmap string Node.State :=
  filter (fun kv => isMounted (fst kv) tree = true) ns.

Inductive Event : Type :=
  | NodeTouchStart (id : string) (now : Z) (touch : Touch.t) (others : list Touch.t)
  | NodeTouchMove (id : string) (now : Z) (touch : Touch.t) (others : list Touch.t)
  | NodeTouchEnd (id : string) (now : Z) (remaining : list Touch.t) (changed : Touch.t)
  | TimerFires (h : nat) (now : Z)
  | EditorSubmit (id : string) (d : FormData)
  | EditorCancel (id : string)
  | EditorDelete (id : string)
  | CanvasTouchStart (now : Z) (touches : list Touch.t) (target : Canvas.Target)
  | CanvasTouchMove (touches : list Touch.t)
  | CanvasTouchEnd (now : Z) (remaining : list Touch.t) (changed : Touch.t) (target : Canvas.Target)
  | SetMode (m : InteractionMode)
  | SetConnectionType (t : RelationshipType)
  | AddFormSubmit (now : Z) (d : FormData)
  | AddFormCancel
  | EdgeDelete (id : string)
  | Import (tree : FamilyTree.t)
  | Clear
  | ShowMenu (v : bool).

(** The callbacks of a node, run in the order of the calls, against the
    snapshot [snap] of the application. *)
Definition runNodeEffect (snap : App.State) (now : Z) (owner : string)
    (acc : App.State * Timers.t string) (e : Node.Effect)
  : result (App.State * Timers.t string) :=
  let '(a, tb) := acc in
  match e with
  | Node.PersonUpdate p => Ok (App.updatePerson p a, tb)
  | Node.PersonDelete id => Ok (App.deletePerson id a, tb)
  | Node.PersonSelect id => a' ← App.handlePersonSelect snap now id a; Ok (a', tb)
  | Node.ConnectionStart id x y => Ok (App.handleConnectionStart snap id x y a, tb)
  | Node.SetTimeout delay => Ok (a, Timers.setTimeout now delay owner tb)
  | Node.ClearTimeout h => Ok (a, Timers.clearTimeout h tb)
  end.

Fixpoint runNodeEffects (snap : App.State) (now : Z) (owner : string)
    (acc : App.State * Timers.t string) (es : list Node.Effect)
  : result (App.State * Timers.t string) :=
  match es with
  | [] => Ok acc
  | e :: es' =>
    acc' ← runNodeEffect snap now owner acc e;
    runNodeEffects snap now owner acc' es'
  end.

Definition runCanvasEffect (snap : App.State) (a : App.State) (e : Canvas.Effect)
  : App.State :=
  match e with
  | Canvas.CanvasTouch x y => App.handleCanvasTouch snap x y a
  | Canvas.OffsetChange p => App.setOffset p a
  end.

Section WithHost.
Variable Math_sqrt : Q -> Q.
Variable canvasRect : DOMRect.t.

Definition canvasProps (a : App.State) : Canvas.Props :=
  Canvas.mkProps (App.scale a) (App.offset a) (App.mode a) canvasRect.

Definition nodeProps (a : App.State) (p : Person.t) : Node.Props :=
  Node.mkProps p (InteractionMode_eqb (App.mode a) connect).

(** The target of a touch that lands on a node: inside the node and
    inside the canvas content. *)
Definition onNode : Canvas.Target := Canvas.mkTarget true true.

(** A touch event on the node of [id]: the node's handler runs, then
    the event bubbles to the canvas; both were created by the same
    render.  No display node exists for an unlisted person or while the
    editor is shown in its place. *)
Definition onNodeEvent (sys : System) (id : string) (now : Z)
    (nodeHandler : Node.Props -> Node.State -> Node.State * list Node.Effect)
    (canvasHandler : Canvas.Props -> Canvas.State -> Canvas.Step)
  : result System :=
  match findPerson id (App.familyTree (app sys)) with
  | None => Ok sys
  | Some person =>
    let ns := nodeState sys id in
    if Node.isEditing ns then Ok sys
    else
      let snap := app sys in
      let '(ns', nodeEffects) := nodeHandler (nodeProps snap person) ns in
      acc ← runNodeEffects snap now id (snap, timers sys) nodeEffects;
      c ← canvasHandler (canvasProps snap) (canvas sys);
      let a' := fold_left (runCanvasEffect snap) (snd c) (fst acc) in
      Ok (mkSystem a' (fst c)
            (unmountGone (App.familyTree a') (<[id := ns']> (nodes sys)))
            (snd acc))
  end.

(** A button of the editor shown for [id]. *)
Definition onEditorEvent (sys : System) (id : string)
    (handler : Node.Props -> Node.State -> Node.State * list Node.Effect)
  : result System :=
  match findPerson id (App.familyTree (app sys)) with
  | None => Ok sys
  | Some person =>
    let ns := nodeState sys id in
    if Node.isEditing ns then
      let snap := app sys in
      let '(ns', nodeEffects) := handler (nodeProps snap person) ns in
      acc ← runNodeEffects snap 0 id (snap, timers sys) nodeEffects;
      Ok (mkSystem (fst acc) (canvas sys)
            (unmountGone (App.familyTree (fst acc)) (<[id := ns']> (nodes sys)))
            (snd acc))
    else Ok sys
  end.

Definition onCanvasEvent (sys : System) (r : Canvas.Step) : result System :=
  c ← r;
  let snap := app sys in
  Ok (mkSystem (fold_left (runCanvasEffect snap) (snd c) snap) (fst c)
               (nodes sys) (timers sys)).

Definition onAppEvent (sys : System) (a' : App.State) : result System :=
  Ok (mkSystem a' (canvas sys) (unmountGone (App.familyTree a') (nodes sys)) (timers sys)).

Definition step (sys : System) (ev : Event) : result System :=
  let snap := app sys in
  match ev with
  | NodeTouchStart id now touch others =>
    onNodeEvent sys id now
      (fun props ns => Node.handleTouchStart props (Timers.next (timers sys)) ns touch)
      (fun props cs => Canvas.handleTouchStart Math_sqrt props now cs (touch :: others) onNode)
  | NodeTouchMove id now touch others =>
    onNodeEvent sys id now
      (fun props ns => Node.handleTouchMove props ns touch)
      (fun props cs => Canvas.handleTouchMove props cs (touch :: others))
  | NodeTouchEnd id now remaining changed =>
    onNodeEvent sys id now
      (fun _ ns => Node.handleTouchEnd ns)
      (fun props cs => Canvas.handleTouchEnd props now cs remaining changed onNode)
  | TimerFires h now =>
    match Timers.due h now (timers sys) with
    | Some e =>
      let owner := Timers.closure e in
      let ns :=
        if isMounted owner (App.familyTree snap)
        then <[owner := Node.longPress (nodeState sys owner)]> (nodes sys)
        else nodes sys in
      Ok (mkSystem snap (canvas sys) ns (Timers.clearTimeout h (timers sys)))
    | None => Ok sys
    end
  | EditorSubmit id d =>
    onEditorEvent sys id
      (fun props ns => Node.handleEditSubmit (withFormData (Node.person props) d) ns)
  | EditorCancel id => onEditorEvent sys id (fun _ ns => Node.handleEditCancel ns)
  | EditorDelete id => onEditorEvent sys id Node.handleDelete
  | CanvasTouchStart now touches target =>
    onCanvasEvent sys
      (Canvas.handleTouchStart Math_sqrt (canvasProps snap) now (canvas sys) touches target)
  | CanvasTouchMove touches =>
    onCanvasEvent sys (Canvas.handleTouchMove (canvasProps snap) (canvas sys) touches)
  | CanvasTouchEnd now remaining changed target =>
    onCanvasEvent sys
      (Canvas.handleTouchEnd (canvasProps snap) now (canvas sys) remaining changed target)
  | SetMode m => onAppEvent sys (App.setMode m snap)
  | SetConnectionType t => onAppEvent sys (App.setConnectionType t snap)
  | AddFormSubmit now d =>
    if App.showAddForm snap then onAppEvent sys (App.addPerson snap now d snap) else Ok sys
  | AddFormCancel => onAppEvent sys (App.setShowAddForm false snap)
  | EdgeDelete id => onAppEvent sys (App.deleteRelationship id snap)
  | Import tree => onAppEvent sys (App.handleImport tree snap)
  | Clear => onAppEvent sys (App.handleClear snap)
  | ShowMenu v => onAppEvent sys (App.setShowMenu v snap)
  end.

Fixpoint run (sys : System) (evs : list Event) : result System :=
  match evs with
  | [] => Ok sys
  | ev :: evs' => sys' ← step sys ev; run sys' evs'
  end.

End WithHost.

End Mobile.

(** ** Well-formed trees *)

(** Some relationship of the tree has [id] as an end. *)
Definition references (id : string) (t : FamilyTree.t) : bool :=
  existsb (fun r => String.eqb (Relationship.from r) id || String.eqb (Relationship.to r) id)
          (FamilyTree.relationships t).

(** Both ends of every relationship are listed people. *)
Definition wellFormed (t : FamilyTree.t) : bool :=
  forallb (fun r => Mobile.isMounted (Relationship.from r) t &&
                    Mobile.isMounted (Relationship.to r) t)
          (FamilyTree.relationships t).

Definition selfLoop (r : Relationship.t) : bool :=
  String.eqb (Relationship.from r) (Relationship.to r).

(** Every relationship of [t'] is one of [t] or joins two different
    people. *)
Definition noNewLoops (t t' : FamilyTree.t) : Prop :=
  forall r, In r (FamilyTree.relationships t') ->
            In r (FamilyTree.relationships t) \/ Relationship.from r <> Relationship.to r.

(** ** Timers that can no longer fire *)

(** Every pending handle was issued. *)
Definition issued {A} (tb : Timers.t A) : Prop :=
  forall e, In e (Timers.pending tb) -> (Timers.handle e < Timers.next tb)%nat.

(** The handle [h] was issued and is not pending: its timer has fired
    or was cleared. *)
Definition spent {A} (h : nat) (tb : Timers.t A) : Prop :=
  (h < Timers.next tb)%nat /\ Timers.isPending h tb = false.

(** ** The view transform of the specification (section 4.1 and 4.2) *)

(** [toWorld(screenPoint, view) = (screenPoint - view.pan) / view.zoom] *)
Definition toWorld_spec (p pan : Point.t) (zoom : Q) : Point.t :=
  Point.mk ((Point.x p - Point.x pan) / zoom) ((Point.y p - Point.y pan) / zoom).

(** [zoomAt(screenPoint, factor)]: [z' = clamp(z * factor, 0.1, 3.0)] and
    [pan' = pan - (screenPoint - pan) * (z' - z) / z]. *)
Definition zoomAt_spec (p : Point.t) (factor : Q) (pan : Point.t) (z : Q) : Point.t * Q :=
  let z' := clampZoom (z * factor) in
  (Point.mk (Point.x pan - (Point.x p - Point.x pan) * (z' - z) / z)
            (Point.y pan - (Point.y p - Point.y pan) * (z' - z) / z),
   z').

Definition inRange (z : Q) : Prop := (1 # 10 <= z <= 3)%Q.

(** A square root on rationals for running the model: the exact root
    of a square of a rational, rounded down on numerator and
    denominator otherwise. *)
Definition sqrtQ (q : Q) : Q :=
  let r := Qred q in (Z.sqrt (Qnum r) # Pos.sqrt (Qden r))%Q.

(** [s'] is [s] after [zoomAt(p, f)]: zoom and pan are the ones of the
    specification, and the world point under [p] has not moved. *)
Definition zoomsAbout (p : Point.t) (f : Q) (s s' : InteractiveCanvas.State) : Prop :=
  let z := InteractiveCanvas.zoom s in
  let z' := InteractiveCanvas.zoom s' in
  let a := InteractiveCanvas.pan s in
  let a' := InteractiveCanvas.pan s' in
  z' = snd (zoomAt_spec p f a z) /\
  Point.equiv a' (fst (zoomAt_spec p f a z)) /\
  Point.equiv (toWorld_spec p a' z') (toWorld_spec p a z).

(** ** A small tree for running the model *)

Definition bea : Person.t := Person.mk "B" "Bea" 0 0 "" "" "".
Definition cy : Person.t := Person.mk "C" "Cy" 200 0 "" "" "".
Definition twoPeople : FamilyTree.t := FamilyTree.mk [bea; cy] [].
Definition origin : DOMRect.t := DOMRect.mk 0 0.

(** The desktop node of Bea, pressed at (10,10) at time 0 in navigate
    mode and not yet moved. *)
Definition beaProps : PersonNode.Props :=
  PersonNode.mkProps bea navigate parent (Some origin) 1 (Point.mk 0 0) true.

Definition beaPressed : PersonNode.World :=
  PersonNode.mkWorld
    (PersonNode.mkState false false false (Point.mk 10 10) (Some 1%nat) 0)
    (Timers.mk [Timers.mkEntry 1 500 navigate] 2).

Definition nothingThere : Q -> Q -> option string := fun _ _ => None.

(** ** What the views draw *)

(** The canvas content carries [transform: translate(pan) scale(zoom)]
    with [transformOrigin: '0 0'] inside the canvas element at [rect]:
    where a world point is drawn on the screen. *)
Definition contentToScreen (rect : DOMRect.t) (pan : Point.t) (zoom : Q) (w : Point.t)
  : Point.t :=
  Point.mk (DOMRect.left rect + (Point.x pan + zoom * Point.x w))
           (DOMRect.top rect + (Point.y pan + zoom * Point.y w)).

(** The line the mobile application draws for a relationship: from
    centre to centre, with the label at the middle; nothing when an end
    is not a listed person. *)
Module Edge.
Record t : Type := mk { fromPoint : Point.t; toPoint : Point.t; mid : Point.t }.
End Edge.

Definition renderEdge (tree : FamilyTree.t) (relationship : Relationship.t)
  : option Edge.t :=
  match Mobile.findPerson (Relationship.from relationship) tree,
        Mobile.findPerson (Relationship.to relationship) tree with
  | Some fromPerson, Some toPerson =>
    let fromX := (Person.x fromPerson + 60)%Q in
    let fromY := (Person.y fromPerson + 30)%Q in
    let toX := (Person.x toPerson + 60)%Q in
    let toY := (Person.y toPerson + 30)%Q in
    Some (Edge.mk (Point.mk fromX fromY) (Point.mk toX toY)
                  (Point.mk ((fromX + toX) / 2) ((fromY + toY) / 2)))
  | _, _ => None
  end.

(** The function [updatePerson] maps over the people:
    [p => p.id === updatedPerson.id ? updatedPerson : p]. *)
Definition replaceById (updatedPerson : Person.t) (p : Person.t) : Person.t :=
  if String.eqb (Person.id p) (Person.id updatedPerson) then updatedPerson else p.

(** ** Which canvas events touch the view *)

(** The events whose handlers call [setZoom]. *)
Definition mayRescale (ev : InteractiveCanvas.Event) : bool :=
  match ev with
  | InteractiveCanvas.Wheel e =>
    negb (InteractiveCanvas.WheelEvent.ctrlKey e || InteractiveCanvas.WheelEvent.metaKey e)
  | InteractiveCanvas.TouchMove e =>
    Nat.eqb (length (InteractiveCanvas.TouchEvent.touches e)) 2
  | InteractiveCanvas.ClickZoomIn | InteractiveCanvas.ClickZoomOut
  | InteractiveCanvas.ClickResetView | InteractiveCanvas.ClickReturnToOrigin => true
  | _ => false
  end.

(** The events whose handlers call [setPan]. *)
Definition mayMove (ev : InteractiveCanvas.Event) : bool :=
  match ev with
  | InteractiveCanvas.Wheel _ | InteractiveCanvas.MouseMove _
  | InteractiveCanvas.DocumentMouseMove _ | InteractiveCanvas.TouchMove _
  | InteractiveCanvas.ClickResetView | InteractiveCanvas.ClickReturnToOrigin => true
  | _ => false
  end.

(** The props a node receives from the canvas it is drawn in:
    [children({ canvasRef, zoom, pan })]. *)
Definition nodePropsFrom (cprops : InteractiveCanvas.Props) (s : InteractiveCanvas.State)
    (person : Person.t) (mode : InteractionMode) (type : RelationshipType) (mobile : bool)
  : PersonNode.Props :=
  PersonNode.mkProps person mode type (InteractiveCanvas.canvasRef cprops)
                     (InteractiveCanvas.zoom s) (InteractiveCanvas.pan s) mobile.

(** A finger dragged over the canvas: one single-touch move event per
    position. *)
Definition fingerMoves (l : list (InteractiveCanvas.Props * Touch.t * InteractiveCanvas.Target))
  : list (InteractiveCanvas.Props * InteractiveCanvas.Event) :=
  map (fun m => (fst (fst m),
                 InteractiveCanvas.TouchMove
                   (InteractiveCanvas.TouchEvent.mk [snd (fst m)] (snd m)))) l.

(** ** The timers of a desktop node *)

(** The calls of a handler that go to the timers. *)
Definition timerEffects (effs : list PersonNode.Effect) : list PersonNode.Effect :=
  List.filter (fun e => negb (PersonNode.isCallback e)) effs.

(** The node's books are in order: every handle came from the table,
    and a pending timer is the only one and the one the state holds. *)
Definition timersInOrder (w : PersonNode.World) : Prop :=
  let tb := PersonNode.timers w in
  issued tb /\
  (forall h, PersonNode.longPressTimer (PersonNode.node w) = Some h ->
             (h < Timers.next tb)%nat) /\
  (forall e, In e (Timers.pending tb) ->
             PersonNode.longPressTimer (PersonNode.node w) = Some (Timers.handle e)) /\
  (length (Timers.pending tb) <= 1)%nat.

(** What a handler may do to the timer: leave it, clear it and keep or
    drop the handle, or clear it and arm a new one. *)
Definition timerShape (old : option nat) (next : nat) (new : option nat)
    (teffs : list PersonNode.Effect) : Prop :=
  let clear := match old with Some h => [PersonNode.ClearTimeout h] | None => [] end in
  (new = old /\ teffs = []) \/
  (new = old /\ teffs = clear) \/
  (new = None /\ teffs = []) \/
  (new = None /\ teffs = clear) \/
  (exists d c, new = Some next /\ teffs = clear ++ [PersonNode.SetTimeout d c]).

(** ** The callbacks of a mobile node *)

(** Every [onPersonSelect] among the effects selects [pid]. *)
Definition selectsOnly (pid : string) (es : list Mobile.Node.Effect) : Prop :=
  forall e, In e es ->
    match e with
    | Mobile.Node.PersonSelect i => i = pid
    | _ => True
    end.

(** A finger dragged over the mobile canvas: one single-touch move
    event per position. *)
Definition canvasMoves (l : list Touch.t) : list Mobile.Event :=
  map (fun t => Mobile.CanvasTouchMove [t]) l.

(** ** More concrete inputs *)

(** The mobile application showing Bea and Cy in mode [m], nothing
    touched yet. *)
Definition twoPeopleIn (m : InteractionMode) : Mobile.System :=
  Mobile.mkSystem (Mobile.App.setMode m (Mobile.App.setFamilyTree twoPeople Mobile.App.initial))
                  Mobile.Canvas.initial ∅ Timers.empty.

(** Bea and Cy, married. *)
Definition married : FamilyTree.t :=
  FamilyTree.mk [bea; cy] [Relationship.mk "1" spouse "B" "C"].

(** Bea's desktop node in connect mode. *)
Definition beaConnecting : PersonNode.Props :=
  PersonNode.mkProps bea connect parent (Some origin) 1 (Point.mk 0 0) true.

Definition plainCanvas : InteractiveCanvas.Props :=
  InteractiveCanvas.mkProps false "mode-navigate" false (Some origin).

(** * Properties *)

(** ** Arithmetic *)

Lemma Qltb_lt a b : Qltb a b = true <-> (a < b)%Q.
Proof.
  unfold Qltb. rewrite negb_true_iff.
  destruct (Qle_bool b a) eqn:E.
  - apply Qle_bool_iff in E. split; [discriminate | intros H; lra].
  - split; [intros _ | reflexivity].
    destruct (Qlt_le_dec a b) as [H | H]; [exact H |].
    apply Qle_bool_iff in H. congruence.
Qed.

Lemma Qltb_ge a b : Qltb a b = false <-> (b <= a)%Q.
Proof.
  unfold Qltb. rewrite negb_false_iff. apply Qle_bool_iff.
Qed.

Lemma Math_max_cases a b :
  ((a <= b)%Q /\ Math_max a b = b) \/ ((b < a)%Q /\ Math_max a b = a).
Proof.
  unfold Math_max. destruct (Qle_bool a b) eqn:E.
  - left. split; [now apply Qle_bool_iff | reflexivity].
  - right. split; [| reflexivity].
    apply Qltb_lt. unfold Qltb. now rewrite E.
Qed.

Lemma Math_min_cases a b :
  ((a <= b)%Q /\ Math_min a b = a) \/ ((b < a)%Q /\ Math_min a b = b).
Proof.
  unfold Math_min. destruct (Qle_bool a b) eqn:E.
  - left. split; [now apply Qle_bool_iff | reflexivity].
  - right. split; [| reflexivity].
    apply Qltb_lt. unfold Qltb. now rewrite E.
Qed.

Lemma clampZoom_range v : (1 # 10 <= clampZoom v <= 3)%Q.
Proof.
  unfold clampZoom.
  destruct (Math_min_cases 3 v) as [[H1 ->] | [H1 ->]];
    [destruct (Math_max_cases (1 # 10) 3) as [[H2 ->] | [H2 ->]]
    |destruct (Math_max_cases (1 # 10) v) as [[H2 ->] | [H2 ->]]]; lra.
Qed.

Lemma clampZoom_id v : (1 # 10 <= v <= 3)%Q -> (clampZoom v == v)%Q.
Proof.
  intros [Hl Hu]. unfold clampZoom.
  destruct (Math_min_cases 3 v) as [[H1 ->] | [H1 ->]];
    [destruct (Math_max_cases (1 # 10) 3) as [[H2 ->] | [H2 ->]]
    |destruct (Math_max_cases (1 # 10) v) as [[H2 ->] | [H2 ->]]]; lra.
Qed.

Lemma fdiv_ok a b : ~ (b == 0)%Q -> fdiv a b = Ok (a / b)%Q.
Proof.
  intros Hb. unfold fdiv. destruct (Qeq_bool b 0) eqn:E; [| reflexivity].
  apply Qeq_bool_iff in E. contradiction.
Qed.

Lemma fdiv_zero a b : (b == 0)%Q -> fdiv a b = Throw NonFinite.
Proof.
  intros Hb. unfold fdiv. apply Qeq_bool_iff in Hb. now rewrite Hb.
Qed.

Section CanvasProperties.
Import InteractiveCanvas.
Variable Math_sqrt : Q -> Q.

Lemma zoom_fixpoint (p a z z' : Q) :
  ~ (z == 0)%Q -> ~ (z' == 0)%Q ->
  ((p - (a - (p - a) * ((z' - z) / z))) / z' == (p - a) / z)%Q.
Proof. intros Hz Hz'. field. split; assumption. Qed.

Lemma zoomAt_spec_pan (p a z z' : Q) :
  ~ (z == 0)%Q ->
  (a - (p - a) * ((z' - z) / z) == a - (p - a) * (z' - z) / z)%Q.
Proof. intros Hz. field. assumption. Qed.

Lemma handleWheel_zoom props s e rect :
  canvasRef props = Some rect ->
  WheelEvent.ctrlKey e = false -> WheelEvent.metaKey e = false ->
  ~ (zoom s == 0)%Q ->
  let f := if Qltb 0 (WheelEvent.deltaY e) then (9 # 10)%Q else (11 # 10)%Q in
  let z' := clampZoom (zoom s * f) in
  let mx := (WheelEvent.clientX e - DOMRect.left rect)%Q in
  let my := (WheelEvent.clientY e - DOMRect.top rect)%Q in
  handleWheel props s e =
    Ok (setPan (Point.mk (Point.x (pan s) - (mx - Point.x (pan s)) * ((z' - zoom s) / zoom s))
                         (Point.y (pan s) - (my - Point.y (pan s)) * ((z' - zoom s) / zoom s)))
          (setZoom z' s), []).
Proof.
  intros Hr Hc Hm Hz. unfold handleWheel. rewrite Hc, Hm, Hr. simpl.
  rewrite fdiv_ok by assumption. reflexivity.
Qed.

Lemma pinchZoom_zoom props s rect distance center :
  canvasRef props = Some rect ->
  (0 < lastTouchDistance s)%Q -> ~ (zoom s == 0)%Q ->
  let f := (distance / lastTouchDistance s)%Q in
  let z' := clampZoom (zoom s * f) in
  let cx := (Point.x center - DOMRect.left rect)%Q in
  let cy := (Point.y center - DOMRect.top rect)%Q in
  pinchZoom props s distance center =
    Ok (setPan (Point.mk (Point.x (pan s) - (cx - Point.x (pan s)) * ((z' - zoom s) / zoom s))
                         (Point.y (pan s) - (cy - Point.y (pan s)) * ((z' - zoom s) / zoom s)))
          (setZoom z' s)).
Proof.
  intros Hr Hd Hz. unfold pinchZoom. rewrite Hr.
  apply Qltb_lt in Hd as Hd'. rewrite Hd'.
  rewrite fdiv_ok by lra. simpl. rewrite fdiv_ok by assumption. reflexivity.
Qed.

Lemma pinchZoom_unarmed props s distance center :
  (lastTouchDistance s <= 0)%Q -> pinchZoom props s distance center = Ok s.
Proof.
  intros Hd. unfold pinchZoom. apply Qltb_ge in Hd. now rewrite Hd.
Qed.

Lemma clampZoom_nonzero v : ~ (clampZoom v == 0)%Q.
Proof. pose proof (clampZoom_range v). lra. Qed.

Lemma zoomsAbout_intro p s s' f :
  ~ (zoom s == 0)%Q ->
  zoom s' = clampZoom (zoom s * f) ->
  pan s' = Point.mk
    (Point.x (pan s) - (Point.x p - Point.x (pan s)) * ((zoom s' - zoom s) / zoom s))
    (Point.y (pan s) - (Point.y p - Point.y (pan s)) * ((zoom s' - zoom s) / zoom s)) ->
  zoomsAbout p f s s'.
Proof.
  intros Hz Hz' Hp. unfold zoomsAbout, zoomAt_spec, toWorld_spec, Point.equiv. simpl.
  rewrite Hp. simpl. rewrite <- Hz'.
  assert (~ (zoom s' == 0)%Q) by (rewrite Hz'; apply clampZoom_nonzero).
  repeat split; try reflexivity;
    first [ apply zoomAt_spec_pan; assumption | apply zoom_fixpoint; assumption ].
Qed.

(** C1 (P1, zoom-to-point invariance).  With the canvas mounted and a
    non-zero zoom, a plain wheel event is [zoomAt] at the cursor with
    factor 0.9 or 1.1, and a two-finger move with a positive stored
    distance is [zoomAt] at the pinch centre with factor
    [distance / lastTouchDistance]: the new zoom is the clamped product,
    the new pan is [pan - (p - pan) * (z' - z) / z], and the world point
    under [p] is the same before and after. *)
Theorem zoom_to_point_invariant props s rect :
  canvasRef props = Some rect ->
  (0 < zoom s)%Q ->
  (forall e,
     WheelEvent.ctrlKey e = false -> WheelEvent.metaKey e = false ->
     let p := Point.mk (WheelEvent.clientX e - DOMRect.left rect)
                       (WheelEvent.clientY e - DOMRect.top rect) in
     let f := if Qltb 0 (WheelEvent.deltaY e) then (9 # 10)%Q else (11 # 10)%Q in
     exists s', handleWheel props s e = Ok (s', []) /\ zoomsAbout p f s s') /\
  (forall t1 t2 target,
     (0 < lastTouchDistance s)%Q ->
     let touches := [t1; t2] in
     let p := Point.mk ((Touch.clientX t1 + Touch.clientX t2) / 2 - DOMRect.left rect)
                       ((Touch.clientY t1 + Touch.clientY t2) / 2 - DOMRect.top rect) in
     let f := (getTouchDistance Math_sqrt touches / lastTouchDistance s)%Q in
     exists s', handleTouchMove Math_sqrt props s (TouchEvent.mk touches target) = Ok (s', []) /\
                zoomsAbout p f s s').
Proof.
  intros Hr Hz. assert (Hz0 : ~ (zoom s == 0)%Q) by lra. split.
  - intros e Hc Hm p f. eexists. split.
    + apply handleWheel_zoom; eassumption.
    + apply zoomsAbout_intro; [assumption | reflexivity | reflexivity].
  - intros t1 t2 target Hd touches p f. unfold handleTouchMove. simpl TouchEvent.touches.
    cbv beta iota zeta. simpl getTouchCenter.
    change (mbind ?k (Ok ?a)) with (k a). cbv beta.
    rewrite (pinchZoom_zoom props s rect _ _ Hr Hd Hz0).
    change (mbind ?k (Ok ?a)) with (k a). cbv beta.
    eexists. split; [reflexivity |].
    apply zoomsAbout_intro; [assumption | reflexivity | reflexivity].
Qed.

Lemma zoomIn_range z : inRange z -> inRange (Math_min 3 (z * (6 # 5))).
Proof.
  unfold inRange. intros [Hl Hu].
  destruct (Math_min_cases 3 (z * (6 # 5))) as [[H ->] | [H ->]]; lra.
Qed.

Lemma zoomOut_range z : inRange z -> inRange (Math_max (1 # 10) (z / (6 # 5))).
Proof.
  unfold inRange. intros [Hl Hu].
  assert (E : (z / (6 # 5) == z * (5 # 6))%Q) by (field; lra).
  destruct (Math_max_cases (1 # 10) (z / (6 # 5))) as [[H ->] | [H ->]]; lra.
Qed.

Lemma inRange_nonzero z : inRange z -> ~ (z == 0)%Q.
Proof. unfold inRange. lra. Qed.

Lemma pinchZoom_range props s distance center :
  inRange (zoom s) ->
  exists s', pinchZoom props s distance center = Ok s' /\ inRange (zoom s') /\
             lastTouchDistance s' = lastTouchDistance s /\
             isPanning s' = isPanning s.
Proof.
  intros Hz. unfold pinchZoom.
  destruct (Qltb 0 (lastTouchDistance s)) eqn:Hd; [| eauto].
  apply Qltb_lt in Hd. rewrite fdiv_ok by lra. simpl.
  destruct (canvasRef props) as [rect |]; [| eauto].
  rewrite fdiv_ok by (apply inRange_nonzero; assumption). simpl.
  eexists. split; [reflexivity |]. simpl.
  split; [apply clampZoom_range | split; reflexivity].
Qed.

(** Every handler of the canvas keeps the zoom in range and ends
    without a fault. *)
Lemma step_preserves props s ev :
  inRange (zoom s) ->
  exists s' effs, step Math_sqrt props s ev = Ok (s', effs) /\ inRange (zoom s').
Proof.
  intros Hz. pose proof (inRange_nonzero _ Hz) as Hz0.
  destruct ev as [e | e | e | | e | e | e | | | | | e | ]; simpl.
  - unfold handleWheel.
    destruct (WheelEvent.ctrlKey e || WheelEvent.metaKey e); [eauto |].
    destruct (canvasRef props); [| eauto].
    rewrite fdiv_ok by assumption. simpl.
    do 2 eexists. split; [reflexivity | apply clampZoom_range].
  - unfold handleMouseDown.
    repeat match goal with
           | |- context [if ?b then _ else _] => destruct b
           | |- context [match canvasRef ?p with _ => _ end] => destruct (canvasRef p)
           end; try (do 2 eexists; split; [reflexivity | assumption]).
    rewrite !fdiv_ok by assumption. simpl. eauto.
  - unfold handleMouseMove. destruct (isPanning s); eauto.
  - unfold handleMouseUp. eauto.
  - unfold handleTouchStart.
    destruct (TouchEvent.touches e) as [| t1 [| t2 [| t3 ts]]]; simpl; eauto.
    repeat match goal with
           | |- context [if ?b then _ else _] => destruct b
           | |- context [match canvasRef ?p with _ => _ end] => destruct (canvasRef p)
           end; try (do 2 eexists; split; [reflexivity | assumption]).
    rewrite !fdiv_ok by assumption. simpl. eauto.
  - unfold handleTouchMove.
    destruct (TouchEvent.touches e) as [| t1 [| t2 [| t3 ts]]]; eauto.
    + destruct (isPanning s); eauto.
    + cbn [getTouchCenter]. change (mbind ?k (Ok ?a)) with (k a). cbv beta.
      match goal with
      | |- context [pinchZoom props s ?d ?c] =>
        destruct (pinchZoom_range props s d c Hz) as (s1 & -> & Hz1 & _)
      end.
      change (mbind ?k (Ok ?a)) with (k a). cbv beta. eauto.
  - unfold handleTouchEnd.
    destruct (TouchEvent.touches e) as [| t1 [| t2 ts]]; eauto.
  - unfold zoomIn. do 2 eexists. split; [reflexivity | apply zoomIn_range, Hz].
  - unfold zoomOut. do 2 eexists. split; [reflexivity | apply zoomOut_range, Hz].
  - unfold resetView. do 2 eexists. split; [reflexivity | unfold inRange; simpl; lra].
  - unfold returnToOrigin. do 2 eexists. split; [reflexivity | unfold inRange; simpl; lra].
  - unfold handleGlobalMouseMove. destruct (isPanning s); eauto.
  - unfold handleGlobalMouseUp. eauto.
Qed.

(** C2 (P2, zoom clamp).  From the initial view, every sequence of
    canvas events (wheel, pinch, the zoom buttons, the reset buttons and
    all the others, under any props) runs to the end without a fault and
    leaves the zoom in [0.1, 3]. *)
Theorem zoom_clamp_invariant (evs : list (Props * Event)) :
  exists s, run Math_sqrt initial evs = Ok s /\ inRange (zoom s).
Proof.
  assert (H : forall evs s, inRange (zoom s) ->
            exists s', run Math_sqrt s evs = Ok s' /\ inRange (zoom s')).
  { clear evs. induction evs as [| [props ev] evs IH]; intros s Hz; simpl.
    - eauto.
    - destruct (step_preserves props s ev Hz) as (s1 & effs & -> & Hz1). simpl.
      apply IH, Hz1. }
  apply H. unfold inRange. simpl. lra.
Qed.

Lemma quotient_same d z z' :
  ~ (z == 0)%Q -> ~ (z' == 0)%Q ->
  (d / z' == d / z)%Q <-> (d == 0)%Q \/ (z' == z)%Q.
Proof.
  intros Hz Hz'. split.
  - intros H.
    assert (E : (d * (z - z') == 0)%Q).
    { assert (E1 : (d == d / z' * z')%Q) by (field; assumption).
      assert (E2 : (d == d / z * z)%Q) by (field; assumption).
      assert (E3 : (d * z == d / z' * z' * z)%Q) by (rewrite <- E1; reflexivity).
      assert (E4 : (d * z' == d / z * z * z')%Q) by (rewrite <- E2; reflexivity).
      rewrite H in E3. lra. }
    apply Qmult_integral in E. destruct E as [E | E]; [left; exact E | right; lra].
  - intros [H | H]; [rewrite H | rewrite H; reflexivity].
    unfold Qdiv. rewrite !Qmult_0_l. reflexivity.
Qed.

(** The world point under [p] is kept by a change of zoom that leaves
    the pan alone only for [p = pan], the screen position of the world
    origin. *)
Lemma pan_kept_fixpoint p a z z' :
  ~ (z == 0)%Q -> ~ (z' == 0)%Q ->
  Point.equiv (toWorld_spec p a z') (toWorld_spec p a z) <->
  Point.equiv p a \/ (z' == z)%Q.
Proof.
  intros Hz Hz'. unfold Point.equiv, toWorld_spec. simpl.
  rewrite !quotient_same by assumption. split.
  - intros [[Hx | Hx] [Hy | Hy]]; auto. left. split; lra.
  - intros [[Hx Hy] | H]; [split; left; lra | split; right; exact H].
Qed.

(** C6 as the code has it.  With the zoom in range, the zoom-in button
    multiplies the zoom by 1.2 and the zoom-out button divides it by
    1.2, clamped to [0.1, 3], and both leave the pan as it is.  That is
    [zoomAt] about the screen point [pan] only: the world point under a
    screen point [p] stays where it was exactly when [p] is [pan] or
    the zoom did not change. *)
Theorem zoomStep_keeps_pan s :
  inRange (zoom s) ->
  (exists s', zoomIn s = Ok (s', []) /\
     (zoom s' == clampZoom (zoom s * (6 # 5)))%Q /\ pan s' = pan s /\
     Point.equiv (pan s') (fst (zoomAt_spec (pan s) (6 # 5) (pan s) (zoom s))) /\
     forall p, Point.equiv (toWorld_spec p (pan s') (zoom s')) (toWorld_spec p (pan s) (zoom s))
               <-> Point.equiv p (pan s) \/ (zoom s' == zoom s)%Q) /\
  (exists s', zoomOut s = Ok (s', []) /\
     (zoom s' == clampZoom (zoom s * (5 # 6)))%Q /\ pan s' = pan s /\
     Point.equiv (pan s') (fst (zoomAt_spec (pan s) (5 # 6) (pan s) (zoom s))) /\
     forall p, Point.equiv (toWorld_spec p (pan s') (zoom s')) (toWorld_spec p (pan s) (zoom s))
               <-> Point.equiv p (pan s) \/ (zoom s' == zoom s)%Q).
Proof.
  intros Hz. pose proof (inRange_nonzero _ Hz) as Hz0.
  assert (Hpan : forall f, Point.equiv (pan s) (fst (zoomAt_spec (pan s) f (pan s) (zoom s)))).
  { intros f. unfold Point.equiv, zoomAt_spec. simpl. split; field; assumption. }
  split.
  - pose proof (zoomIn_range _ Hz) as Hr.
    eexists. split; [reflexivity |]. simpl.
    split; [| split; [reflexivity | split; [apply Hpan |]]].
    + unfold clampZoom, inRange in *.
      destruct (Math_max_cases (1 # 10) (Math_min 3 (zoom s * (6 # 5))))
        as [[H ->] | [H ->]]; lra.
    + intros p. apply pan_kept_fixpoint; [assumption | apply inRange_nonzero, Hr].
  - pose proof (zoomOut_range _ Hz) as Hr.
    eexists. split; [reflexivity |]. simpl.
    split; [| split; [reflexivity | split; [apply Hpan |]]].
    + assert (E : (zoom s / (6 # 5) == zoom s * (5 # 6))%Q) by (field; lra).
      unfold inRange in *. unfold clampZoom.
      destruct (Math_max_cases (1 # 10) (zoom s / (6 # 5))) as [[H1 ->] | [H1 ->]];
      destruct (Math_min_cases 3 (zoom s * (5 # 6))) as [[H2 ->] | [H2 ->]];
      match goal with
      | |- context [Math_max ?a ?b] =>
        destruct (Math_max_cases a b) as [[H3 ->] | [H3 ->]]
      end; lra.
    + intros p. apply pan_kept_fixpoint; [assumption | apply inRange_nonzero, Hr].
Qed.

(** C7 (Scenario B, add-person tap).  In add-person mode a press on the
    empty canvas, by mouse or by one finger, invokes [onCanvasClick] with
    the world point [(s - pan) / zoom] of the canvas-relative screen
    point, and starts no pan; at screen (220,140) with pan (50,50) and
    zoom 2 the callback receives (85,45). *)
Theorem add_person_tap_world_point :
  (forall props s rect,
     canvasRef props = Some rect ->
     onCanvasClick props = true ->
     includes "mode-add-person" (className props) = true ->
     (0 < zoom s)%Q ->
     (forall e,
        MouseEvent.button e = 0%Z -> MouseEvent.altKey e = false ->
        disableCanvasClick props = false ->
        MouseEvent.target e = mkTarget true false false ->
        let w := toWorld_spec (Point.mk (MouseEvent.clientX e - DOMRect.left rect)
                                        (MouseEvent.clientY e - DOMRect.top rect))
                              (pan s) (zoom s) in
        handleMouseDown props s e = Ok (s, [CanvasClick (Point.x w) (Point.y w)])) /\
     (forall touch target,
        isCanvasClick target = true ->
        let w := toWorld_spec (Point.mk (Touch.clientX touch - DOMRect.left rect)
                                        (Touch.clientY touch - DOMRect.top rect))
                              (pan s) (zoom s) in
        handleTouchStart Math_sqrt props s (TouchEvent.mk [touch] target) =
          Ok (setIsTouch true s, [CanvasClick (Point.x w) (Point.y w)]))) /\
  (let props := mkProps true "mode-add-person" false (Some (DOMRect.mk 0 0)) in
   let s := setPan (Point.mk 50 50) (setZoom 2 initial) in
   let e := TouchEvent.mk [Touch.mk 220 140] (mkTarget true false false) in
   exists x y, handleTouchStart Math_sqrt props s e = Ok (setIsTouch true s, [CanvasClick x y]) /\
               (x == 85)%Q /\ (y == 45)%Q).
Proof.
  split.
  - intros props s rect Hr Hcb Hm Hz. assert (Hz0 : ~ (zoom s == 0)%Q) by lra. split.
    + intros e Hb Ha Hd Ht w. unfold handleMouseDown.
      rewrite Hb, Ha, Hd, Ht, Hcb, Hm, Hr. simpl.
      rewrite !fdiv_ok by assumption. reflexivity.
    + intros touch target Ht w. unfold handleTouchStart. simpl.
      rewrite Ht, Hcb, Hm, Hr. simpl.
      rewrite !fdiv_ok by assumption. reflexivity.
  - do 2 eexists. split; [vm_compute; reflexivity |]. split; reflexivity.
Qed.

(** C10 as the code has it.  The pinch branch divides by the stored
    distance only when it is strictly positive, so with a non-zero zoom
    a two-finger move never ends in the fault [NonFinite]; a touch end
    that leaves one finger or none resets the stored distance to 0; a
    two-finger move handled while the stored distance is not positive
    leaves zoom and pan as they were and only records the distance.  A
    two-finger touch start records the current distance, so the move
    that follows it already rescales by [distance / recorded]. *)
Theorem pinch_division_guard props s t1 t2 target :
  (0 < zoom s)%Q ->
  let e := TouchEvent.mk [t1; t2] target in
  let distance := getTouchDistance Math_sqrt [t1; t2] in
  (exists s', handleTouchMove Math_sqrt props s e = Ok (s', []) /\
              lastTouchDistance s' = distance /\
              ((lastTouchDistance s <= 0)%Q -> zoom s' = zoom s /\ pan s' = pan s) /\
              (~ (zoom s' == zoom s)%Q \/ pan s' <> pan s -> (0 < lastTouchDistance s)%Q) /\
              ((0 < lastTouchDistance s)%Q -> canvasRef props <> None ->
               zoom s' = clampZoom (zoom s * (distance / lastTouchDistance s)))) /\
  (forall touches s',
     handleTouchEnd s (TouchEvent.mk touches target) = Ok (s', []) ->
     (length touches <= 1)%nat -> lastTouchDistance s' = 0%Q) /\
  (exists s', handleTouchStart Math_sqrt props s e = Ok (s', []) /\
              lastTouchDistance s' = distance /\ zoom s' = zoom s /\ pan s' = pan s).
Proof.
  intros Hz e distance. assert (Hz0 : ~ (zoom s == 0)%Q) by lra.
  split; [| split].
  - unfold handleTouchMove, e. cbn [TouchEvent.touches getTouchCenter].
    change (mbind ?k (Ok ?a)) with (k a). cbv beta.
    destruct (Qlt_le_dec 0 (lastTouchDistance s)) as [Hd | Hd].
    + destruct (canvasRef props) as [rect |] eqn:Hr.
      * rewrite (pinchZoom_zoom props s rect _ _ Hr Hd Hz0).
        change (mbind ?k (Ok ?a)) with (k a). cbv beta.
        eexists. split; [reflexivity |]. simpl.
        split; [reflexivity | split; [intros; lra | split; [intros; assumption |]]].
        intros _ _. reflexivity.
      * unfold pinchZoom. apply Qltb_lt in Hd as Hd'. rewrite Hd', Hr.
        rewrite fdiv_ok by lra.
        change (mbind ?k (Ok ?a)) with (k a). cbv beta.
        change (mbind ?k (Ok ?a)) with (k a). cbv beta.
        eexists. split; [reflexivity |]. simpl.
        split; [reflexivity | split; [intros; lra | split; [intros; assumption |]]].
        intros _ H. congruence.
    + rewrite pinchZoom_unarmed by assumption.
      change (mbind ?k (Ok ?a)) with (k a). cbv beta.
      eexists. split; [reflexivity |]. simpl.
      split; [reflexivity | split; [intros; split; reflexivity | split]].
      * intros [H | H]; [exfalso; apply H; reflexivity | congruence].
      * intros H. lra.
  - intros touches s' H Hlen. unfold handleTouchEnd in H. simpl in H.
    destruct touches as [| t [| t' ts]]; simpl in Hlen; [| | lia];
      injection H as <-; reflexivity.
  - unfold handleTouchStart, e. cbn [TouchEvent.touches getTouchCenter].
    change (mbind ?k (Ok ?a)) with (k a). cbv beta.
    eexists. split; [reflexivity |]. simpl. repeat split.
Qed.

End CanvasProperties.

(** ** The canvas on concrete inputs *)

Lemma zoom_to_point_invariant_witness :
  let props := InteractiveCanvas.mkProps false "mode-navigate" false (Some (DOMRect.mk 0 0)) in
  let e := InteractiveCanvas.WheelEvent.mk false false 0 (-100) 400 300 in
  exists s', InteractiveCanvas.handleWheel props InteractiveCanvas.initial e = Ok (s', []) /\
             zoomsAbout (Point.mk (400 - 0) (300 - 0)) (11 # 10) InteractiveCanvas.initial s'.
Proof.
  intros props e.
  destruct (zoom_to_point_invariant sqrtQ props InteractiveCanvas.initial (DOMRect.mk 0 0))
    as [Hwheel _].
  - reflexivity.
  - reflexivity.
  - apply (Hwheel e); reflexivity.
Defined.

Lemma zoomStep_keeps_pan_witness :
  exists s', InteractiveCanvas.zoomIn InteractiveCanvas.initial = Ok (s', []) /\
             InteractiveCanvas.pan s' = InteractiveCanvas.pan InteractiveCanvas.initial.
Proof.
  destruct (zoomStep_keeps_pan InteractiveCanvas.initial) as [(s' & Hin & _ & Hpan & _) _].
  - unfold inRange. simpl. lra.
  - exists s'. split; assumption.
Defined.

(** After a one-finger touch at (400,300), the centre of an 800 by 600
    canvas and now the last known point, the zoom-in button leaves the
    pan at (0,0) where [zoomAt((400,300), 1.2)] moves it to (-80,-60),
    and the world point under (400,300) moves from (400,300) to
    (1000/3, 250). *)
Lemma zoomStep_counterexample :
  let props := InteractiveCanvas.mkProps false "mode-navigate" false (Some (DOMRect.mk 0 0)) in
  let canvas := InteractiveCanvas.mkTarget true false false in
  let down := InteractiveCanvas.TouchStart (InteractiveCanvas.TouchEvent.mk [Touch.mk 400 300] canvas) in
  let up := InteractiveCanvas.TouchEnd (InteractiveCanvas.TouchEvent.mk [] canvas) in
  let p := Point.mk 400 300 in
  exists s s',
    InteractiveCanvas.run sqrtQ InteractiveCanvas.initial [(props, down); (props, up)] = Ok s /\
    InteractiveCanvas.lastPanPoint s = p /\
    InteractiveCanvas.zoomIn s = Ok (s', []) /\
    ~ Point.equiv (InteractiveCanvas.pan s')
        (fst (zoomAt_spec p (6 # 5) (InteractiveCanvas.pan s) (InteractiveCanvas.zoom s))) /\
    ~ Point.equiv (toWorld_spec p (InteractiveCanvas.pan s') (InteractiveCanvas.zoom s'))
        (toWorld_spec p (InteractiveCanvas.pan s) (InteractiveCanvas.zoom s)).
Proof.
  intros props canvas down up p. do 2 eexists.
  split; [vm_compute; reflexivity |].
  split; [reflexivity |].
  split; [reflexivity |].
  split; intros [H _]; vm_compute in H; discriminate H.
Qed.

Lemma add_person_tap_world_point_witness :
  let props := InteractiveCanvas.mkProps true "mode-add-person" false (Some (DOMRect.mk 0 0)) in
  let s := InteractiveCanvas.setPan (Point.mk 50 50)
             (InteractiveCanvas.setZoom 2 InteractiveCanvas.initial) in
  let e := InteractiveCanvas.MouseEvent.mk 0 false 220 140
             (InteractiveCanvas.mkTarget true false false) in
  InteractiveCanvas.handleMouseDown props s e =
    Ok (s, [InteractiveCanvas.CanvasClick ((220 - 0 - 50) / 2) ((140 - 0 - 50) / 2)]).
Proof.
  intros props s e.
  destruct (add_person_tap_world_point sqrtQ) as [Hgen _].
  destruct (Hgen props s (DOMRect.mk 0 0)) as [Hmouse _];
    [reflexivity | reflexivity | reflexivity | reflexivity |].
  apply (Hmouse e); reflexivity.
Defined.

Lemma pinch_division_guard_witness :
  let props := InteractiveCanvas.mkProps false "mode-navigate" false (Some (DOMRect.mk 0 0)) in
  let e := InteractiveCanvas.TouchEvent.mk [Touch.mk 0 0; Touch.mk 3 4]
             (InteractiveCanvas.mkTarget true false false) in
  exists s', InteractiveCanvas.handleTouchMove sqrtQ props InteractiveCanvas.initial e = Ok (s', []) /\
             InteractiveCanvas.zoom s' = 1%Q /\ InteractiveCanvas.pan s' = Point.mk 0 0.
Proof.
  intros props e.
  destruct (pinch_division_guard sqrtQ props InteractiveCanvas.initial
              (Touch.mk 0 0) (Touch.mk 3 4) (InteractiveCanvas.mkTarget true false false))
    as [(s' & Hmove & _ & Hkeep & _) _].
  - reflexivity.
  - exists s'. split; [exact Hmove |]. apply Hkeep. simpl. lra.
Defined.

(** One finger down, a second finger down 5px away, the second finger
    lifted (the stored distance is reset to 0), the second finger down
    again, then the first two-finger move, with the fingers now 10px
    apart: the zoom goes from 1 to 2 and the pan from (0,0) to
    (-3,-4). *)
Lemma pinch_first_move_counterexample :
  let props := InteractiveCanvas.mkProps false "mode-navigate" false (Some (DOMRect.mk 0 0)) in
  let canvas := InteractiveCanvas.mkTarget true false false in
  let one := InteractiveCanvas.TouchEvent.mk [Touch.mk 0 0] canvas in
  let two a b := InteractiveCanvas.TouchEvent.mk [Touch.mk 0 0; Touch.mk a b] canvas in
  exists s0 s1 s2,
    InteractiveCanvas.run sqrtQ InteractiveCanvas.initial
      [(props, InteractiveCanvas.TouchStart one);
       (props, InteractiveCanvas.TouchStart (two 3%Q 4%Q));
       (props, InteractiveCanvas.TouchEnd one)] = Ok s0 /\
    InteractiveCanvas.lastTouchDistance s0 = 0%Q /\
    InteractiveCanvas.step sqrtQ props s0 (InteractiveCanvas.TouchStart (two 3%Q 4%Q)) = Ok (s1, []) /\
    InteractiveCanvas.zoom s1 = 1%Q /\ InteractiveCanvas.pan s1 = Point.mk 0 0 /\
    InteractiveCanvas.step sqrtQ props s1 (InteractiveCanvas.TouchMove (two 6%Q 8%Q)) = Ok (s2, []) /\
    (InteractiveCanvas.zoom s2 == 2)%Q /\
    ~ Point.equiv (InteractiveCanvas.pan s2) (InteractiveCanvas.pan s1).
Proof.
  intros props canvas one two. do 3 eexists.
  split; [vm_compute; reflexivity |].
  split; [reflexivity |].
  split; [vm_compute; reflexivity |].
  split; [reflexivity |].
  split; [reflexivity |].
  split; [vm_compute; reflexivity |].
  split; [reflexivity |].
  intros [H _]; vm_compute in H; discriminate H.
Qed.

(** ** The stored tree *)

Section TreeProperties.
Import Mobile.

Lemma eqb_neq_true (a b : string) : negb (String.eqb a b) = true <-> a <> b.
Proof.
  rewrite negb_true_iff. destruct (String.eqb_spec a b); split; congruence.
Qed.

Lemma withoutPerson_people id t p :
  In p (FamilyTree.people (App.withoutPerson id t)) <->
  In p (FamilyTree.people t) /\ Person.id p <> id.
Proof.
  unfold App.withoutPerson. simpl. rewrite filter_In, eqb_neq_true. reflexivity.
Qed.

Lemma withoutPerson_relationships id t r :
  In r (FamilyTree.relationships (App.withoutPerson id t)) <->
  In r (FamilyTree.relationships t) /\ Relationship.from r <> id /\ Relationship.to r <> id.
Proof.
  unfold App.withoutPerson. simpl.
  rewrite filter_In, andb_true_iff, !eqb_neq_true. reflexivity.
Qed.

Lemma isMounted_In id t :
  isMounted id t = true <-> exists p, In p (FamilyTree.people t) /\ Person.id p = id.
Proof.
  unfold isMounted. rewrite existsb_exists. split; intros (p & Hp & E); exists p; split; auto.
  - now apply String.eqb_eq.
  - now apply String.eqb_eq.
Qed.

Lemma findPerson_id id t p : findPerson id t = Some p -> Person.id p = id.
Proof.
  unfold findPerson. intros H. apply find_some in H. now apply String.eqb_eq.
Qed.

Lemma filter_sublist {A} (f : A -> bool) (l : list A) : sublist (List.filter f l) l.
Proof.
  induction l as [| a l IH]; simpl; [constructor |].
  destruct (f a); now constructor.
Qed.

Lemma references_false id t :
  references id t = false <->
  forall r, In r (FamilyTree.relationships t) ->
            Relationship.from r <> id /\ Relationship.to r <> id.
Proof.
  unfold references. rewrite <- not_true_iff_false, existsb_exists. split.
  - intros H r Hr. split; intros E; apply H; exists r; split; auto;
      rewrite orb_true_iff; [left | right]; now apply String.eqb_eq.
  - intros H (r & Hr & E). destruct (H r Hr) as [Hf Ht].
    apply orb_true_iff in E. destruct E as [E | E]; apply String.eqb_eq in E; congruence.
Qed.

Lemma wellFormed_true t :
  wellFormed t = true <->
  forall r, In r (FamilyTree.relationships t) ->
            isMounted (Relationship.from r) t = true /\ isMounted (Relationship.to r) t = true.
Proof.
  unfold wellFormed. rewrite forallb_forall. split; intros H r Hr.
  - apply andb_true_iff. now apply H.
  - apply andb_true_iff. now apply H.
Qed.

(** C9 as the code has it.  [deletePerson(id)] stores the tree without
    the people whose id is [id] and without the relationships that have
    [id] as an end; the others stay, in their order.  The stored tree no
    longer lists or references [id], and it is well formed if the tree
    before was.  The selection is cleared.  The editor's delete button
    is this operation. *)
Theorem deletePerson_cascades id s :
  let t := App.familyTree s in
  let s' := App.deletePerson id s in
  let t' := App.familyTree s' in
  (forall p, In p (FamilyTree.people t') <-> In p (FamilyTree.people t) /\ Person.id p <> id) /\
  (forall r, In r (FamilyTree.relationships t') <->
             In r (FamilyTree.relationships t) /\
             Relationship.from r <> id /\ Relationship.to r <> id) /\
  sublist (FamilyTree.people t') (FamilyTree.people t) /\
  sublist (FamilyTree.relationships t') (FamilyTree.relationships t) /\
  isMounted id t' = false /\
  references id t' = false /\
  (wellFormed t = true -> wellFormed t' = true) /\
  App.selectedPersonId s' = None /\
  (forall Math_sqrt rect sys person,
     app sys = s ->
     findPerson id t = Some person ->
     Node.isEditing (nodeState sys id) = true ->
     exists sys', step Math_sqrt rect sys (EditorDelete id) = Ok sys' /\ app sys' = s').
Proof.
  intros t s' t'.
  assert (Hp : forall p, In p (FamilyTree.people t') <->
                         In p (FamilyTree.people t) /\ Person.id p <> id)
    by (intros p; apply withoutPerson_people).
  assert (Hr : forall r, In r (FamilyTree.relationships t') <->
                         In r (FamilyTree.relationships t) /\
                         Relationship.from r <> id /\ Relationship.to r <> id)
    by (intros r; apply withoutPerson_relationships).
  split; [exact Hp |]. split; [exact Hr |].
  split; [apply filter_sublist |]. split; [apply filter_sublist |].
  split; [| split; [| split; [| split]]];
    try reflexivity.
  - apply not_true_iff_false. rewrite isMounted_In. intros (p & Hin & E).
    apply Hp in Hin. tauto.
  - apply references_false. intros r Hin. apply Hr in Hin. tauto.
  - rewrite !wellFormed_true. intros Hwf r Hin. apply Hr in Hin.
    destruct Hin as (Hin & Hf & Ht). destruct (Hwf r Hin) as [Hmf Hmt].
    rewrite !isMounted_In in *.
    destruct Hmf as (pf & Hpf & Ef). destruct Hmt as (pt & Hpt & Et).
    split; [exists pf | exists pt]; (split; [apply Hp; split; [assumption | congruence] | assumption]).
  - intros Math_sqrt rect sys person Happ Hfind Hedit.
    pose proof (findPerson_id _ _ _ Hfind) as Eid.
    unfold step, onEditorEvent. rewrite Happ. fold t. rewrite Hfind, Hedit.
    simpl. rewrite Eid. eexists. split; reflexivity.
Qed.

Lemma Ok_inj {A} (a b : A) : Ok a = Ok b -> a = b.
Proof. congruence. Qed.

Lemma bind_Ok {A B} (r : result A) (k : A -> result B) (b : B) :
  (r ≫= k) = Ok b -> exists a, r = Ok a /\ k a = Ok b.
Proof. destruct r as [a | f]; simpl; [eauto | discriminate]. Qed.

Lemma noNewLoops_refl t : noNewLoops t t.
Proof. intros r Hr. now left. Qed.

Lemma noNewLoops_same t t' :
  FamilyTree.relationships t' = FamilyTree.relationships t -> noNewLoops t t'.
Proof. intros E r Hr. left. now rewrite <- E. Qed.

Lemma noNewLoops_trans t1 t2 t3 : noNewLoops t1 t2 -> noNewLoops t2 t3 -> noNewLoops t1 t3.
Proof.
  intros H12 H23 r Hr. destruct (H23 r Hr) as [H | H]; [now apply H12 | now right].
Qed.

Lemma noNewLoops_filter f t t' :
  FamilyTree.relationships t' = List.filter f (FamilyTree.relationships t) ->
  noNewLoops t t'.
Proof. intros E r Hr. left. rewrite E in Hr. now apply filter_In in Hr. Qed.

(** What [handlePersonSelect] does to the tree. *)
Lemma handlePersonSelect_tree snap now pid s s' :
  App.handlePersonSelect snap now pid s = Ok s' ->
  FamilyTree.people (App.familyTree s') = FamilyTree.people (App.familyTree s) /\
  (FamilyTree.relationships (App.familyTree s') = FamilyTree.relationships (App.familyTree s) \/
   exists draft,
     App.mode snap = connect /\ App.connectionStart snap = Some draft /\
     App.personId draft <> pid /\
     FamilyTree.relationships (App.familyTree s') =
       FamilyTree.relationships (App.familyTree s) ++
       [Relationship.mk (App.freshId now) (App.connectionType snap) (App.personId draft) pid]).
Proof.
  unfold App.handlePersonSelect. intros H.
  apply bind_Ok in H. destruct H as (s1 & H1 & H2). injection H2 as <-.
  destruct (App.mode snap) eqn:Hm; try (injection H1 as <-; simpl; auto).
  destruct (App.connectionStart snap) as [draft |] eqn:Hd.
  - destruct (negb (String.eqb (App.personId draft) pid)) eqn:E;
      injection H1 as <-; simpl; [| auto].
    split; [reflexivity |]. right. exists draft.
    apply eqb_neq_true in E. auto.
  - destruct (List.find _ _); [injection H1 as <-; simpl; auto | discriminate].
Qed.

Lemma handlePersonSelect_noNewLoops snap now pid s s' :
  App.handlePersonSelect snap now pid s = Ok s' ->
  noNewLoops (App.familyTree s) (App.familyTree s').
Proof.
  intros H. apply handlePersonSelect_tree in H. destruct H as [_ [E | (d & _ & _ & Hne & E)]].
  - now apply noNewLoops_same.
  - intros r Hr. rewrite E in Hr. apply in_app_or in Hr. destruct Hr as [Hr | [<- | []]].
    + now left.
    + right. exact Hne.
Qed.

Lemma runNodeEffect_noNewLoops snap now owner a tb e a' tb' :
  runNodeEffect snap now owner (a, tb) e = Ok (a', tb') ->
  noNewLoops (App.familyTree a) (App.familyTree a').
Proof.
  destruct e; simpl; intros H.
  - injection H as <- <-. now apply noNewLoops_same.
  - injection H as <- <-. eapply noNewLoops_filter. reflexivity.
  - apply bind_Ok in H. destruct H as (a1 & H1 & H2). injection H2 as <- <-.
    now apply handlePersonSelect_noNewLoops in H1.
  - injection H as <- <-. unfold App.handleConnectionStart.
    destruct (App.mode snap); apply noNewLoops_refl.
  - injection H as <- <-. apply noNewLoops_refl.
  - injection H as <- <-. apply noNewLoops_refl.
Qed.

Lemma runNodeEffects_noNewLoops snap now owner es : forall a tb a' tb',
  runNodeEffects snap now owner (a, tb) es = Ok (a', tb') ->
  noNewLoops (App.familyTree a) (App.familyTree a').
Proof.
  induction es as [| e es IH]; simpl; intros a tb a' tb' H.
  - injection H as <- <-. apply noNewLoops_refl.
  - apply bind_Ok in H. destruct H as ([a1 tb1] & H1 & H2).
    eapply noNewLoops_trans; [eapply runNodeEffect_noNewLoops, H1 | eapply IH, H2].
Qed.

Lemma runCanvasEffects_tree snap es : forall a,
  App.familyTree (fold_left (runCanvasEffect snap) es a) = App.familyTree a.
Proof.
  induction es as [| e es IH]; simpl; intros a; [reflexivity |].
  rewrite IH. destruct e; simpl; [| reflexivity].
  unfold App.handleCanvasTouch.
  destruct (App.mode snap); try reflexivity; destruct (App.connectionStart snap); reflexivity.
Qed.

(** No step of the application but an import stores a relationship
    from a person to itself that was not stored before. *)
Lemma step_noNewLoops Math_sqrt rect sys ev sys' :
  step Math_sqrt rect sys ev = Ok sys' ->
  (forall t, ev <> Import t) ->
  noNewLoops (App.familyTree (app sys)) (App.familyTree (app sys')).
Proof.
  intros H Himport.
  assert (Hnode : forall id now nh ch,
            onNodeEvent rect sys id now nh ch = Ok sys' ->
            noNewLoops (App.familyTree (app sys)) (App.familyTree (app sys'))).
  { intros id now nh ch Hn. unfold onNodeEvent in Hn.
    destruct (findPerson id _); [| injection Hn as <-; apply noNewLoops_refl].
    destruct (Node.isEditing _); [injection Hn as <-; apply noNewLoops_refl |].
    destruct (nh _ _) as [ns' effs].
    apply bind_Ok in Hn. destruct Hn as ([a1 tb1] & H1 & Hn).
    apply bind_Ok in Hn. destruct Hn as (c & H2 & Hn). injection Hn as <-. simpl.
    rewrite runCanvasEffects_tree. eapply runNodeEffects_noNewLoops, H1. }
  assert (Heditor : forall id h,
            onEditorEvent sys id h = Ok sys' ->
            noNewLoops (App.familyTree (app sys)) (App.familyTree (app sys'))).
  { intros id h Hn. unfold onEditorEvent in Hn.
    destruct (findPerson id _); [| injection Hn as <-; apply noNewLoops_refl].
    destruct (Node.isEditing _); [| injection Hn as <-; apply noNewLoops_refl].
    destruct (h _ _) as [ns' effs].
    apply bind_Ok in Hn. destruct Hn as ([a1 tb1] & H1 & Hn). injection Hn as <-. simpl.
    eapply runNodeEffects_noNewLoops, H1. }
  assert (Hcanvas : forall r,
            onCanvasEvent sys r = Ok sys' ->
            noNewLoops (App.familyTree (app sys)) (App.familyTree (app sys'))).
  { intros r Hn. unfold onCanvasEvent in Hn.
    apply bind_Ok in Hn. destruct Hn as (c & _ & Hn). injection Hn as <-. simpl.
    rewrite runCanvasEffects_tree. apply noNewLoops_refl. }
  destruct ev as [id now touch others | id now touch others | id now rest changed
                 | h now | id d | id | id
                 | now touches target | touches | now rest changed target
                 | m | ty | now d | | id | tree | | v]; simpl in H.
  - eapply Hnode, H.
  - eapply Hnode, H.
  - eapply Hnode, H.
  - destruct (Timers.due _ _ _); injection H as <-; apply noNewLoops_refl.
  - eapply Heditor, H.
  - eapply Heditor, H.
  - eapply Heditor, H.
  - eapply Hcanvas, H.
  - eapply Hcanvas, H.
  - eapply Hcanvas, H.
  - injection H as <-. now apply noNewLoops_same.
  - injection H as <-. now apply noNewLoops_same.
  - clear Hnode Heditor Hcanvas.
    destruct (App.showAddForm _); injection H as <-; now apply noNewLoops_same.
  - injection H as <-. now apply noNewLoops_same.
  - injection H as <-. eapply noNewLoops_filter. reflexivity.
  - exfalso. eapply Himport. reflexivity.
  - injection H as <-. intros r [].
  - injection H as <-. now apply noNewLoops_same.
Qed.

(** C5 (P5, connection self-loop).  In the mobile application a
    relationship is stored only by the select handler, and only when a
    draft exists whose source differs from the selected person: a select
    of the draft's own source stores nothing, and no step of the
    application other than an import adds a relationship from a person
    to itself.  On the desktop node, the touch end of a connection drag
    calls [onSelect] only when the node under the finger exists and its
    id differs from the source's. *)
Theorem connection_self_loop_excluded :
  (forall snap now pid s s',
     App.handlePersonSelect snap now pid s = Ok s' ->
     FamilyTree.people (App.familyTree s') = FamilyTree.people (App.familyTree s) /\
     (FamilyTree.relationships (App.familyTree s') =
        FamilyTree.relationships (App.familyTree s) \/
      exists draft,
        App.mode snap = connect /\ App.connectionStart snap = Some draft /\
        App.personId draft <> pid /\
        FamilyTree.relationships (App.familyTree s') =
          FamilyTree.relationships (App.familyTree s) ++
          [Relationship.mk (App.freshId now) (App.connectionType snap)
                           (App.personId draft) pid])) /\
  (forall snap now pid s draft,
     App.connectionStart snap = Some draft -> App.personId draft = pid ->
     App.handlePersonSelect snap now pid s = Ok (App.setSelectedPersonId (Some pid) s)) /\
  (forall Math_sqrt rect sys ev sys',
     step Math_sqrt rect sys ev = Ok sys' ->
     (forall t, ev <> Import t) ->
     noNewLoops (App.familyTree (app sys)) (App.familyTree (app sys'))) /\
  (forall props hitTest now s changed,
     PersonNode.isDragging s = false -> PersonNode.isConnecting s = true ->
     exists s' effs,
       PersonNode.handleTouchEnd props hitTest now s changed = Ok (s', effs) /\
       PersonNode.isConnecting s' = false /\
       In PersonNode.ConnectionDragEnd effs /\
       (In PersonNode.Select effs <->
        exists touch rest target,
          changed = touch :: rest /\
          hitTest (Touch.clientX touch) (Touch.clientY touch) = Some target /\
          target <> Person.id (PersonNode.person props))).
Proof.
  split; [exact handlePersonSelect_tree |].
  split; [| split; [exact step_noNewLoops |]].
  - intros snap now pid s draft Hd <-. unfold App.handlePersonSelect.
    rewrite Hd, String.eqb_refl. simpl. destruct (App.mode snap); reflexivity.
  - intros props hitTest now s changed Hdrag Hconn.
    unfold PersonNode.handleTouchEnd. rewrite Hdrag, Hconn.
    do 2 eexists. split; [reflexivity |].
    split; [destruct (PersonNode.longPressTimer s); reflexivity |].
    split; [rewrite !in_app_iff; right; right; now left |].
    rewrite !in_app_iff. split.
    + intros [H | [H | H]].
      * unfold PersonNode.clearPending in H.
        destruct (PersonNode.longPressTimer s); simpl in H; [destruct H as [H | []] |];
          [discriminate | contradiction].
      * destruct changed as [| touch rest]; [contradiction |].
        destruct (hitTest _ _) as [target |] eqn:Hhit; [| contradiction].
        destruct (negb (String.eqb target _)) eqn:E; [| contradiction].
        apply eqb_neq_true in E. exists touch, rest, target. auto.
      * destruct H as [H | []]. discriminate.
    + intros (touch & rest & target & -> & Hhit & Hne). right. left.
      rewrite Hhit. apply eqb_neq_true in Hne. rewrite Hne. now left.
Qed.

End TreeProperties.

(** ** Timers *)

Section TimerProperties.
Context {A : Type}.
Implicit Types (tb : Timers.t A) (h : nat).

Lemma isPending_In h tb :
  Timers.isPending h tb = true <-> exists e, In e (Timers.pending tb) /\ Timers.handle e = h.
Proof.
  unfold Timers.isPending. rewrite existsb_exists.
  split; intros (e & He & E); exists e; (split; [assumption |]); now apply Nat.eqb_eq.
Qed.

Lemma clearTimeout_In h tb e :
  In e (Timers.pending (Timers.clearTimeout h tb)) <->
  In e (Timers.pending tb) /\ Timers.handle e <> h.
Proof.
  unfold Timers.clearTimeout. simpl.
  rewrite <- !list_elem_of_In, list_elem_of_filter. tauto.
Qed.

Lemma due_pending h now tb e :
  Timers.due h now tb = Some e ->
  In e (Timers.pending tb) /\ Timers.handle e = h /\ (Timers.deadline e <= now)%Z.
Proof.
  unfold Timers.due. intros H. apply find_some in H. destruct H as [Hin H].
  apply andb_true_iff in H. destruct H as [H1 H2].
  apply Nat.eqb_eq in H1. apply Z.leb_le in H2. auto.
Qed.

Lemma spent_not_due h now tb : spent h tb -> Timers.due h now tb = None.
Proof.
  intros [_ Hp]. destruct (Timers.due h now tb) as [e |] eqn:E; [| reflexivity].
  apply due_pending in E. destruct E as (Hin & Hh & _).
  assert (Timers.isPending h tb = true) by (apply isPending_In; eauto). congruence.
Qed.

Lemma issued_empty : issued (@Timers.empty A).
Proof. intros e []. Qed.

Lemma issued_setTimeout now delay c tb : issued tb -> issued (Timers.setTimeout now delay c tb).
Proof.
  intros H e [<- | He]; simpl; [lia |]. specialize (H e He). lia.
Qed.

Lemma issued_clearTimeout h tb : issued tb -> issued (Timers.clearTimeout h tb).
Proof. intros H e He. apply clearTimeout_In in He. now apply H. Qed.

Lemma spent_setTimeout h now delay c tb : spent h tb -> spent h (Timers.setTimeout now delay c tb).
Proof.
  intros [Hlt Hp]. split; [simpl; lia |].
  apply not_true_iff_false. rewrite isPending_In. intros (e & [<- | He] & E).
  - simpl in E. lia.
  - apply not_true_iff_false in Hp. apply Hp, isPending_In. eauto.
Qed.

Lemma spent_clearTimeout h h' tb : spent h tb -> spent h (Timers.clearTimeout h' tb).
Proof.
  intros [Hlt Hp]. split; [exact Hlt |].
  apply not_true_iff_false. rewrite isPending_In. intros (e & He & E).
  apply clearTimeout_In in He. destruct He as [He _].
  apply not_true_iff_false in Hp. apply Hp, isPending_In. eauto.
Qed.

Lemma clearTimeout_spent h tb : (h < Timers.next tb)%nat -> spent h (Timers.clearTimeout h tb).
Proof.
  intros Hlt. split; [exact Hlt |].
  apply not_true_iff_false. rewrite isPending_In. intros (e & He & E).
  apply clearTimeout_In in He. tauto.
Qed.

Lemma pending_issued h tb : issued tb -> Timers.isPending h tb = true -> (h < Timers.next tb)%nat.
Proof.
  intros Hi Hp. apply isPending_In in Hp. destruct Hp as (e & He & <-). now apply Hi.
Qed.

End TimerProperties.

(** ** The desktop node *)

Section DesktopNodeProperties.
Import PersonNode.
Variable hitTest : Q -> Q -> option string.

Lemma runEffects_spent h now effs : forall tb,
  spent h tb -> spent h (fold_left (runEffect now) effs tb).
Proof.
  induction effs as [| e effs IH]; simpl; intros tb H; [exact H |].
  apply IH. destruct e; simpl; auto using spent_setTimeout, spent_clearTimeout.
Qed.

Lemma runEffects_issued now effs : forall tb,
  issued tb -> issued (fold_left (runEffect now) effs tb).
Proof.
  induction effs as [| e effs IH]; simpl; intros tb H; [exact H |].
  apply IH. destruct e; simpl; auto using issued_setTimeout, issued_clearTimeout.
Qed.

Lemma step_timers props w ev w' effs :
  step props hitTest w ev = Ok (w', effs) ->
  w' = w \/
  (exists now r, w' = fst (settle now w r)) \/
  (exists h, timers w' = Timers.clearTimeout h (timers w)).
Proof.
  unfold step. intros H.
  destruct ev; simpl in H;
    repeat match type of H with
           | (if ?b then _ else _) = _ => destruct b
           | match ?o with Some _ => _ | None => _ end = _ => destruct o
           | (_ ≫= _) = Ok _ => apply bind_Ok in H; destruct H as (r & _ & H)
           end;
    apply Ok_inj in H;
    first [ right; left; do 2 eexists; rewrite H; reflexivity
          | injection H as <- <-;
            first [left; reflexivity | right; right; eexists; reflexivity] ].
Qed.

Lemma step_spent props w ev w' effs h :
  step props hitTest w ev = Ok (w', effs) -> spent h (timers w) -> spent h (timers w').
Proof.
  intros H Hs. apply step_timers in H.
  destruct H as [-> | [(now & r & ->) | (h' & ->)]]; [exact Hs | | ].
  - simpl. now apply runEffects_spent.
  - now apply spent_clearTimeout.
Qed.

Lemma step_issued props w ev w' effs :
  step props hitTest w ev = Ok (w', effs) -> issued (timers w) -> issued (timers w').
Proof.
  intros H Hs. apply step_timers in H.
  destruct H as [-> | [(now & r & ->) | (h' & ->)]]; [exact Hs | | ].
  - simpl. now apply runEffects_issued.
  - now apply issued_clearTimeout.
Qed.

Lemma run_spent h evs : forall w w' effs,
  run hitTest w evs = Ok (w', effs) -> spent h (timers w) -> spent h (timers w').
Proof.
  induction evs as [| [props ev] evs IH]; simpl; intros w w' effs H Hs.
  - injection H as <- _. exact Hs.
  - apply bind_Ok in H. destruct H as ([w1 e1] & H1 & H).
    apply bind_Ok in H. destruct H as ([w2 e2] & H2 & H). injection H as <- _.
    simpl in *. eapply IH; [exact H2 |]. eapply step_spent; eassumption.
Qed.

Lemma run_issued evs : forall w w' effs,
  run hitTest w evs = Ok (w', effs) -> issued (timers w) -> issued (timers w').
Proof.
  induction evs as [| [props ev] evs IH]; simpl; intros w w' effs H Hs.
  - injection H as <- _. exact Hs.
  - apply bind_Ok in H. destruct H as ([w1 e1] & H1 & H).
    apply bind_Ok in H. destruct H as ([w2 e2] & H2 & H). injection H as <- _.
    simpl in *. eapply IH; [exact H2 |]. eapply step_issued; eassumption.
Qed.

(** A spent timer does nothing when its time comes. *)
Lemma spent_never_fires props w h now :
  spent h (timers w) -> step props hitTest w (TimerFires h now) = Ok (w, []).
Proof. intros Hs. simpl. now rewrite (spent_not_due h now _ Hs). Qed.

Lemma gestureState_armed w :
  gestureState w = ArmedForLongPress ->
  isDragging (node w) = false /\ isConnecting (node w) = false /\
  exists h, longPressTimer (node w) = Some h /\ Timers.isPending h (timers w) = true.
Proof.
  unfold gestureState.
  destruct (isDragging (node w)); [discriminate |].
  destruct (isConnecting (node w)); [discriminate |].
  destruct (longPressTimer (node w)) as [h |]; [| discriminate].
  destruct (Timers.isPending h (timers w)) eqn:E; [eauto | discriminate].
Qed.

(** The desktop half of C4: the move that cancels the long press. *)
Lemma desktop_move_cancels props w now touch h :
  issued (timers w) ->
  isEditing (node w) = false ->
  gestureState w = ArmedForLongPress ->
  longPressTimer (node w) = Some h ->
  movedTooMuch (person props) (dragStart (node w)) touch = true ->
  exists w',
    step props hitTest w (TouchMove now [touch]) = Ok (w', []) /\
    longPressTimer (node w') = None /\
    isDragging (node w') =
      ((now - touchStartTime (node w) <? 200)%Z && dragsNodes (interactionMode props)) /\
    spent h (timers w') /\
    forall evs w'' effs,
      run hitTest w' evs = Ok (w'', effs) ->
      spent h (timers w'') /\
      forall props' now', step props' hitTest w'' (TimerFires h now') = Ok (w'', []).
Proof.
  intros Hi He Ha Ht Hm.
  destruct (gestureState_armed w Ha) as (Hd & Hc & h' & Ht' & Hp).
  rewrite Ht in Ht'. injection Ht' as <-.
  assert (Hs : spent h (Timers.clearTimeout h (Timers.clearTimeout h (timers w)))).
  { apply spent_clearTimeout, clearTimeout_spent. eapply pending_issued; eassumption. }
  unfold step. rewrite He. unfold handleTouchMove. rewrite Ht, Hm, Hd, Hc.
  destruct ((now - touchStartTime (node w) <? 200)%Z && dragsNodes (interactionMode props));
    simpl; unfold settle; simpl; rewrite Ht; unfold timerCleanup;
    (destruct (decide (None = Some h)) as [E | _]; [discriminate E |]); simpl;
    (eexists; split; [reflexivity |]; simpl;
     split; [reflexivity |]; split; [rewrite ?Hd; reflexivity |];
     split; [exact Hs |];
     intros evs w'' effs Hrun;
     assert (Hs'' : spent h (timers w'')) by (eapply run_spent; [exact Hrun | exact Hs]);
     split; [exact Hs'' | intros p' n'; exact (spent_never_fires p' w'' h n' Hs'')]).
Qed.

(** When a long-press timer fires, the node starts editing exactly if
    the mode its callback closed over is navigate; nothing is called
    back and the timer is gone. *)
Lemma desktop_timer_fires props w h t e :
  Timers.due h t (timers w) = Some e ->
  exists w',
    step props hitTest w (TimerFires h t) = Ok (w', []) /\
    node w' = longPress (Timers.closure e) (node w) /\
    (isEditing (node w') = true <->
     Timers.closure e = navigate \/ isEditing (node w) = true) /\
    Timers.isPending h (timers w') = false.
Proof.
  intros Hdue. simpl. rewrite Hdue. eexists. split; [reflexivity |]. simpl.
  split; [reflexivity |]. split.
  - destruct (Timers.closure e); simpl; split; intros H; auto;
      destruct H as [H | H]; auto; discriminate.
  - apply not_true_iff_false. rewrite isPending_In. intros (e' & He' & E).
    apply clearTimeout_In in He'. tauto.
Qed.

(** Scenario D on the desktop node: a touch held from [t0] on a fresh
    node in navigate or add-person mode, the timer firing at [t1].
    The only callback is the selection at touch-down, and the editing
    starts in navigate mode only. *)
Lemma desktop_hold props touch t0 t1 :
  dragsNodes (interactionMode props) = true ->
  (t0 + 500 <= t1)%Z ->
  exists w,
    run hitTest start [(props, TouchStart t0 [touch]); (props, TimerFires 1 t1)]
      = Ok (w, [Select]) /\
    isEditing (node w) =
      match interactionMode props with navigate => true | _ => false end /\
    isDragging (node w) = false /\
    forall props' t2, step props' hitTest w (TimerFires 1 t2) = Ok (w, []).
Proof.
  intros Hm Ht. apply Z.leb_le in Ht.
  destruct props as [person mode ct r z pan mob]; destruct mode; try discriminate Hm;
    unfold run, step, start, settle; simpl; unfold Timers.due; simpl; rewrite Ht; simpl;
    (eexists; split; [reflexivity |]; repeat split).
Qed.

End DesktopNodeProperties.

(** ** The mobile application *)

Section MobileProperties.
Import Mobile.
Variable Math_sqrt : Q -> Q.
Variable rect : DOMRect.t.

Lemma findPerson_mounted id t p : findPerson id t = Some p -> isMounted id t = true.
Proof.
  unfold findPerson. intros H. apply find_some in H. destruct H as [Hin E].
  apply isMounted_In. exists p. split; [assumption | now apply String.eqb_eq].
Qed.

Lemma unmountGone_lookup t (ns : gmap string Node.State) id :
  isMounted id t = true -> unmountGone t ns !! id = ns !! id.
Proof.
  intros Hm. unfold unmountGone.
  destruct (ns !! id) as [n |] eqn:E.
  - apply map_lookup_filter_Some. split; [assumption | exact Hm].
  - apply map_lookup_filter_None. left. assumption.
Qed.

Lemma nodeState_mounted a c (ns : gmap string Node.State) tb id n :
  isMounted id (App.familyTree a) = true ->
  nodeState (mkSystem a c (unmountGone (App.familyTree a) (<[id := n]> ns)) tb) id = n.
Proof.
  intros Hm. unfold nodeState. simpl.
  rewrite unmountGone_lookup by assumption. now rewrite lookup_insert_eq.
Qed.

Lemma runNodeEffects_timers (P : Timers.t string -> Prop) snap now owner es :
  (forall d c tb, P tb -> P (Timers.setTimeout now d c tb)) ->
  (forall h tb, P tb -> P (Timers.clearTimeout h tb)) ->
  forall a tb a' tb',
    runNodeEffects snap now owner (a, tb) es = Ok (a', tb') -> P tb -> P tb'.
Proof.
  intros Hset Hclear. induction es as [| e es IH]; simpl; intros a tb a' tb' H Hp.
  - injection H as <- <-. exact Hp.
  - apply bind_Ok in H. destruct H as ([a1 tb1] & H1 & H2).
    eapply IH; [exact H2 |].
    destruct e; simpl in H1;
      try (injection H1 as <- <-; auto; fail).
    apply bind_Ok in H1. destruct H1 as (a2 & _ & H1). now injection H1 as <- <-.
Qed.

Lemma system_step_timers (P : Timers.t string -> Prop) sys ev sys' :
  (forall now d c tb, P tb -> P (Timers.setTimeout now d c tb)) ->
  (forall h tb, P tb -> P (Timers.clearTimeout h tb)) ->
  step Math_sqrt rect sys ev = Ok sys' -> P (timers sys) -> P (timers sys').
Proof.
  intros Hset Hclear H Hp.
  assert (Hnode : forall id now nh ch,
            onNodeEvent rect sys id now nh ch = Ok sys' -> P (timers sys')).
  { intros id now nh ch Hn. unfold onNodeEvent in Hn.
    destruct (findPerson id _); [| now injection Hn as <-].
    destruct (Node.isEditing _); [now injection Hn as <- |].
    destruct (nh _ _) as [ns' effs].
    apply bind_Ok in Hn. destruct Hn as ([a1 tb1] & H1 & Hn).
    apply bind_Ok in Hn. destruct Hn as (c & H2 & Hn). injection Hn as <-. simpl.
    eapply (runNodeEffects_timers P); [apply Hset | apply Hclear | exact H1 | exact Hp]. }
  assert (Heditor : forall id h, onEditorEvent sys id h = Ok sys' -> P (timers sys')).
  { intros id h Hn. unfold onEditorEvent in Hn.
    destruct (findPerson id _); [| now injection Hn as <-].
    destruct (Node.isEditing _); [| now injection Hn as <-].
    destruct (h _ _) as [ns' effs].
    apply bind_Ok in Hn. destruct Hn as ([a1 tb1] & H1 & Hn). injection Hn as <-. simpl.
    eapply (runNodeEffects_timers P); [apply Hset | apply Hclear | exact H1 | exact Hp]. }
  assert (Hcanvas : forall r, onCanvasEvent sys r = Ok sys' -> P (timers sys')).
  { intros r Hn. unfold onCanvasEvent in Hn.
    apply bind_Ok in Hn. destruct Hn as (c & _ & Hn). now injection Hn as <-. }
  destruct ev as [id now touch others | id now touch others | id now rest changed
                 | h now | id d | id | id
                 | now touches target | touches | now rest changed target
                 | m | ty | now d | | id | tree | | v]; simpl in H;
    try (eapply Hnode, H); try (eapply Heditor, H); try (eapply Hcanvas, H);
    try (now injection H as <-).
  - destruct (Timers.due _ _ _); injection H as <-; simpl; auto.
  - clear Hnode Heditor Hcanvas. destruct (App.showAddForm _); now injection H as <-.
Qed.

Lemma system_run_spent h evs : forall sys sys',
  run Math_sqrt rect sys evs = Ok sys' -> spent h (timers sys) -> spent h (timers sys').
Proof.
  induction evs as [| ev evs IH]; simpl; intros sys sys' H Hs.
  - now injection H as <-.
  - apply bind_Ok in H. destruct H as (sys1 & H1 & H2).
    eapply IH; [exact H2 |].
    eapply (system_step_timers (spent h)); [| | exact H1 | exact Hs].
    + intros; now apply spent_setTimeout.
    + intros; now apply spent_clearTimeout.
Qed.

Lemma system_run_issued evs : forall sys sys',
  run Math_sqrt rect sys evs = Ok sys' -> issued (timers sys) -> issued (timers sys').
Proof.
  induction evs as [| ev evs IH]; simpl; intros sys sys' H Hs.
  - now injection H as <-.
  - apply bind_Ok in H. destruct H as (sys1 & H1 & H2).
    eapply IH; [exact H2 |].
    eapply (system_step_timers issued); [| | exact H1 | exact Hs].
    + intros; now apply issued_setTimeout.
    + intros; now apply issued_clearTimeout.
Qed.

Lemma system_spent_never_fires sys h now :
  spent h (timers sys) -> step Math_sqrt rect sys (TimerFires h now) = Ok sys.
Proof. intros Hs. simpl. now rewrite (spent_not_due h now _ Hs). Qed.

Lemma canvas_handleTouchMove_total props cs touches :
  exists c, Canvas.handleTouchMove props cs touches = Ok c.
Proof.
  unfold Canvas.handleTouchMove. destruct touches as [| t [| t' ts]]; eauto.
  destruct (Canvas.isPanning cs && Canvas.pans (Canvas.mode props)); eauto.
Qed.

Lemma mode_eqb_connect m : InteractionMode_eqb m connect = false <-> m <> connect.
Proof. destruct m; simpl; split; congruence. Qed.

Lemma node_handleTouchMove_armed props ns touch h :
  Node.isEditing ns = false ->
  Node.connectionMode props = false ->
  Node.isDragging ns = false ->
  Node.longPressTimer ns = Some h ->
  Node.movedTooMuch (Node.person props) (Node.dragStart ns) touch = true ->
  Node.handleTouchMove props ns touch =
    (Node.setIsDragging true (Node.setLongPressTimer None ns), [Node.ClearTimeout h]).
Proof.
  intros He Hc Hd Ht Hm. unfold Node.handleTouchMove.
  rewrite He, Hc, Ht, Hm, Hd. reflexivity.
Qed.

(** The mobile half of C4: the move that cancels the long press, at
    whatever time it comes. *)
Lemma mobile_move_cancels sys id person now touch others h :
  issued (timers sys) ->
  findPerson id (App.familyTree (app sys)) = Some person ->
  App.mode (app sys) <> connect ->
  Node.isEditing (nodeState sys id) = false ->
  Node.isDragging (nodeState sys id) = false ->
  Node.longPressTimer (nodeState sys id) = Some h ->
  Timers.isPending h (timers sys) = true ->
  Node.movedTooMuch person (Node.dragStart (nodeState sys id)) touch = true ->
  exists sys',
    step Math_sqrt rect sys (NodeTouchMove id now touch others) = Ok sys' /\
    nodeState sys' id =
      Node.setIsDragging true (Node.setLongPressTimer None (nodeState sys id)) /\
    App.familyTree (app sys') = App.familyTree (app sys) /\
    spent h (timers sys') /\
    forall evs sys'',
      run Math_sqrt rect sys' evs = Ok sys'' ->
      spent h (timers sys'') /\
      forall now', step Math_sqrt rect sys'' (TimerFires h now') = Ok sys''.
Proof.
  intros Hi Hf Hmode He Hd Ht Hp Hm.
  assert (Hs : spent h (Timers.clearTimeout h (timers sys)))
    by (apply clearTimeout_spent; eapply pending_issued; eassumption).
  apply mode_eqb_connect in Hmode.
  destruct (canvas_handleTouchMove_total (canvasProps rect (app sys)) (canvas sys)
              (touch :: others)) as (c & Hc).
  unfold step, onNodeEvent. rewrite Hf, He.
  rewrite (node_handleTouchMove_armed (nodeProps (app sys) person) _ touch h)
    by (try assumption; exact Hmode).
  cbn [runNodeEffects runNodeEffect]. change (mbind ?k (Ok ?a)) with (k a). cbv beta.
  change (mbind ?k (Ok ?a)) with (k a). cbv beta.
  rewrite Hc. change (mbind ?k (Ok ?a)) with (k a). cbv beta. cbn [fst snd].
  eexists. split; [reflexivity |].
  assert (Htree : App.familyTree (fold_left (runCanvasEffect (app sys)) c.2 (app sys))
                  = App.familyTree (app sys)) by apply runCanvasEffects_tree.
  split; [| split; [exact Htree | split; [exact Hs |]]].
  - apply nodeState_mounted. rewrite Htree. eapply findPerson_mounted, Hf.
  - intros evs sys'' Hrun.
    assert (Hs'' : spent h (timers sys''))
      by (eapply system_run_spent; [exact Hrun | exact Hs]).
    split; [exact Hs'' | intros now'; now apply system_spent_never_fires].
Qed.

(** C4 as the code has it.  While a node is armed for a long press, a
    one-finger move more than 10px away from the touch-down point in
    either axis clears the long-press timer, which from then on never
    fires, whatever happens and however much time passes.  The desktop
    node then starts dragging only if the move comes less than 200ms
    after touch-down and the mode is navigate or add-person; the mobile
    node starts dragging at any time. *)
Theorem long_press_cancellation :
  (forall hitTest props w now touch h,
     issued (PersonNode.timers w) ->
     PersonNode.isEditing (PersonNode.node w) = false ->
     PersonNode.gestureState w = PersonNode.ArmedForLongPress ->
     PersonNode.longPressTimer (PersonNode.node w) = Some h ->
     PersonNode.movedTooMuch (PersonNode.person props)
       (PersonNode.dragStart (PersonNode.node w)) touch = true ->
     exists w',
       PersonNode.step props hitTest w (PersonNode.TouchMove now [touch]) = Ok (w', []) /\
       PersonNode.longPressTimer (PersonNode.node w') = None /\
       PersonNode.isDragging (PersonNode.node w') =
         ((now - PersonNode.touchStartTime (PersonNode.node w) <? 200)%Z &&
          PersonNode.dragsNodes (PersonNode.interactionMode props)) /\
       spent h (PersonNode.timers w') /\
       forall evs w'' effs,
         PersonNode.run hitTest w' evs = Ok (w'', effs) ->
         spent h (PersonNode.timers w'') /\
         forall props' now',
           PersonNode.step props' hitTest w'' (PersonNode.TimerFires h now') = Ok (w'', [])) /\
  (forall sys id person now touch others h,
     issued (timers sys) ->
     findPerson id (App.familyTree (app sys)) = Some person ->
     App.mode (app sys) <> connect ->
     Node.isEditing (nodeState sys id) = false ->
     Node.isDragging (nodeState sys id) = false ->
     Node.longPressTimer (nodeState sys id) = Some h ->
     Timers.isPending h (timers sys) = true ->
     Node.movedTooMuch person (Node.dragStart (nodeState sys id)) touch = true ->
     exists sys',
       step Math_sqrt rect sys (NodeTouchMove id now touch others) = Ok sys' /\
       nodeState sys' id =
         Node.setIsDragging true (Node.setLongPressTimer None (nodeState sys id)) /\
       App.familyTree (app sys') = App.familyTree (app sys) /\
       spent h (timers sys') /\
       forall evs sys'',
         run Math_sqrt rect sys' evs = Ok sys'' ->
         spent h (timers sys'') /\
         forall now', step Math_sqrt rect sys'' (TimerFires h now') = Ok sys'').
Proof.
  split.
  - intros hitTest. apply desktop_move_cancels.
  - apply mobile_move_cancels.
Qed.

Lemma mobile_timer_fires sys h t e :
  Timers.due h t (timers sys) = Some e ->
  exists sys',
    step Math_sqrt rect sys (TimerFires h t) = Ok sys' /\
    app sys' = app sys /\
    (isMounted (Timers.closure e) (App.familyTree (app sys)) = true ->
     nodeState sys' (Timers.closure e) = Node.longPress (nodeState sys (Timers.closure e))) /\
    Timers.isPending h (timers sys') = false.
Proof.
  intros Hdue. simpl. rewrite Hdue. eexists. split; [reflexivity |]. simpl.
  split; [reflexivity |]. split.
  - intros ->. unfold nodeState at 1. simpl. now rewrite lookup_insert_eq.
  - apply not_true_iff_false. rewrite isPending_In. intros (e' & He' & E).
    apply clearTimeout_In in He'. tauto.
Qed.

Lemma handlePersonSelect_other_mode snap now pid s :
  App.mode snap <> connect ->
  App.handlePersonSelect snap now pid s = Ok (App.setSelectedPersonId (Some pid) s).
Proof.
  intros Hm. unfold App.handlePersonSelect.
  destruct (App.mode snap); [reflexivity | reflexivity | contradiction].
Qed.

Lemma canvas_handleTouchStart_onNode props now cs touches :
  Canvas.handleTouchStart Math_sqrt props now cs touches onNode =
    Ok (Canvas.setTouchStartTime now cs, []).
Proof. reflexivity. Qed.

(** A touch-down on an idle node outside connect mode selects the
    person and arms a 600ms timer owned by the node. *)
Lemma mobile_touch_start_arms sys id person now touch others :
  findPerson id (App.familyTree (app sys)) = Some person ->
  App.mode (app sys) <> connect ->
  Node.isEditing (nodeState sys id) = false ->
  Node.longPressTimer (nodeState sys id) = None ->
  let h := Timers.next (timers sys) in
  let ns' :=
    Node.setLongPressTimer (Some h)
      (Node.setDragStart (Point.mk (Touch.clientX touch - Person.x person)
                                   (Touch.clientY touch - Person.y person))
                         (nodeState sys id)) in
  step Math_sqrt rect sys (NodeTouchStart id now touch others) =
    Ok (mkSystem (App.setSelectedPersonId (Some id) (app sys))
                 (Canvas.setTouchStartTime now (canvas sys))
                 (unmountGone (App.familyTree (app sys)) (<[id := ns']> (nodes sys)))
                 (Timers.setTimeout now 600 id (timers sys))).
Proof.
  intros Hf Hmode He Ht h ns'. apply mode_eqb_connect in Hmode.
  pose proof (findPerson_id _ _ _ Hf) as Hid.
  unfold step, onNodeEvent. rewrite Hf, He.
  unfold Node.handleTouchStart, nodeProps, Node.clearPending.
  cbn [Node.person Node.connectionMode]. rewrite He, Hmode, Ht, Hid.
  rewrite app_nil_l. cbn [runNodeEffects runNodeEffect].
  change (mbind ?k (Ok ?a)) with (k a). cbv beta. unfold runNodeEffect.
  rewrite handlePersonSelect_other_mode by (now apply mode_eqb_connect).
  change (mbind ?k (Ok ?a)) with (k a). cbv beta.
  change (mbind ?k (Ok ?a)) with (k a). cbv beta.
  rewrite canvas_handleTouchStart_onNode.
  change (mbind ?k (Ok ?a)) with (k a). cbv beta.
  reflexivity.
Qed.

Lemma run_cons sys ev evs :
  run Math_sqrt rect sys (ev :: evs) =
  step Math_sqrt rect sys ev ≫= fun sys' => run Math_sqrt rect sys' evs.
Proof. reflexivity. Qed.

Lemma start_nodeState saved a c tb id :
  nodeState (mkSystem a c (unmountGone saved ∅) tb) id = Node.initial.
Proof.
  unfold nodeState, unmountGone. simpl. now rewrite map_filter_empty, lookup_empty.
Qed.

(** Scenario D on the mobile application: in navigate or add mode a
    touch held on a listed person from [t0], the timer firing at [t1].
    The person's editor opens and the tree is as it was. *)
Lemma mobile_hold saved id person touch t0 t1 m :
  findPerson id saved = Some person ->
  m <> connect ->
  (t0 + 600 <= t1)%Z ->
  exists sys,
    run Math_sqrt rect (start saved)
      [SetMode m; NodeTouchStart id t0 touch []; TimerFires 1 t1] = Ok sys /\
    Node.isEditing (nodeState sys id) = true /\
    App.familyTree (app sys) = saved /\
    App.mode (app sys) = m /\
    forall t2, step Math_sqrt rect sys (TimerFires 1 t2) = Ok sys.
Proof.
  intros Hf Hm Ht. apply Z.leb_le in Ht.
  pose proof (findPerson_mounted _ _ _ Hf) as Hmounted.
  set (sys0 := mkSystem (App.setMode m (App.setFamilyTree saved App.initial))
                        Canvas.initial (unmountGone saved ∅) Timers.empty).
  assert (H0 : step Math_sqrt rect (start saved) (SetMode m) = Ok sys0) by reflexivity.
  pose proof (mobile_touch_start_arms sys0 id person t0 touch [] Hf Hm) as H1.
  unfold sys0 in H1 at 1 2. rewrite !start_nodeState in H1.
  specialize (H1 eq_refl eq_refl). cbv zeta in H1.
  match type of H1 with
  | _ = Ok ?s =>
    destruct (mobile_timer_fires s 1 t1 (Timers.mkEntry 1 (t0 + 600) id))
      as (sys2 & H2 & Happ & Hnode & Hpend)
  end.
  { unfold Timers.due. simpl. now rewrite Ht. }
  exists sys2. split.
  - rewrite run_cons, H0. change (mbind ?k (Ok ?a)) with (k a). cbv beta.
    rewrite run_cons, H1. change (mbind ?k (Ok ?a)) with (k a). cbv beta.
    rewrite run_cons, H2. reflexivity.
  - simpl in Happ, Hnode. specialize (Hnode Hmounted).
    split; [now rewrite Hnode |].
    split; [now rewrite Happ |]. split; [now rewrite Happ |].
    intros t2. apply system_spent_never_fires. split; [| exact Hpend].
    apply (system_step_timers (fun tb => (1 < Timers.next tb)%nat)) in H2;
      [exact H2 | simpl; lia | simpl; lia | simpl; lia].
Qed.

Lemma desktop_armed_timer props now fresh s touches s' effs d c :
  PersonNode.handleTouchStart props now fresh s touches = Ok (s', effs) ->
  In (PersonNode.SetTimeout d c) effs ->
  d = 500%Z /\ c = PersonNode.interactionMode props /\ c <> connect.
Proof.
  unfold PersonNode.handleTouchStart. intros H Hin.
  destruct touches as [| touch [| t' ts]]; try (injection H as <- <-; contradiction).
  destruct (PersonNode.isEditing s); [injection H as <- <-; contradiction |].
  assert (Hclear : ~ In (PersonNode.SetTimeout d c) (PersonNode.clearPending s)).
  { unfold PersonNode.clearPending. destruct (PersonNode.longPressTimer s); simpl;
      [intros [E | []]; discriminate | tauto]. }
  destruct (PersonNode.interactionMode props) eqn:Hm.
  - injection H as <- <-. apply in_app_or in Hin.
    destruct Hin as [Hin | [E | [E | []]]]; [contradiction | | discriminate].
    injection E as <- <-. repeat split; congruence.
  - injection H as <- <-. apply in_app_or in Hin.
    destruct Hin as [Hin | [E | [E | []]]]; [contradiction | | discriminate].
    injection E as <- <-. repeat split; congruence.
  - apply bind_Ok in H. destruct H as (pos & _ & H). injection H as <- <-.
    apply in_app_or in Hin.
    destruct Hin as [Hin | [E | [E | []]]]; [contradiction | discriminate | discriminate].
Qed.

Lemma mobile_armed_timer props fresh s touch d :
  In (Node.SetTimeout d) (snd (Node.handleTouchStart props fresh s touch)) ->
  d = 600%Z /\ Node.connectionMode props = false /\ Node.isEditing s = false.
Proof.
  unfold Node.handleTouchStart. intros Hin.
  assert (Hclear : ~ In (Node.SetTimeout d) (Node.clearPending s)).
  { unfold Node.clearPending. destruct (Node.longPressTimer s); simpl;
      [intros [E | []]; discriminate | tauto]. }
  destruct (Node.isEditing s); [contradiction |].
  destruct (Node.connectionMode props); simpl in Hin; apply in_app_or in Hin;
    destruct Hin as [Hin | [E | [E | []]]]; try contradiction; try discriminate.
  injection E as <-. auto.
Qed.

(** C8 as the code has it.  A long-press timer that fires opens the
    editor of its node: on the desktop exactly when the interaction mode
    of the touch-down that armed it was navigate, on the mobile node
    whenever it was armed, which is at every touch-down outside connect
    mode (navigate and add alike).  The firing calls nothing back and
    uses the timer up.  A touch held for the threshold on a fresh node,
    500ms on the desktop in navigate mode and 600ms on mobile in
    navigate or add mode, opens the editor once; the only callback is
    the selection at touch-down and no position is updated. *)
Theorem long_press_edit_gating :
  (forall hitTest props w h t e,
     Timers.due h t (PersonNode.timers w) = Some e ->
     exists w',
       PersonNode.step props hitTest w (PersonNode.TimerFires h t) = Ok (w', []) /\
       PersonNode.node w' = PersonNode.longPress (Timers.closure e) (PersonNode.node w) /\
       (PersonNode.isEditing (PersonNode.node w') = true <->
        Timers.closure e = navigate \/ PersonNode.isEditing (PersonNode.node w) = true) /\
       Timers.isPending h (PersonNode.timers w') = false) /\
  (forall props now fresh s touches s' effs d c,
     PersonNode.handleTouchStart props now fresh s touches = Ok (s', effs) ->
     In (PersonNode.SetTimeout d c) effs ->
     d = 500%Z /\ c = PersonNode.interactionMode props /\ c <> connect) /\
  (forall hitTest props touch t0 t1,
     PersonNode.dragsNodes (PersonNode.interactionMode props) = true ->
     (t0 + 500 <= t1)%Z ->
     exists w,
       PersonNode.run hitTest PersonNode.start
         [(props, PersonNode.TouchStart t0 [touch]); (props, PersonNode.TimerFires 1 t1)]
         = Ok (w, [PersonNode.Select]) /\
       PersonNode.isEditing (PersonNode.node w) =
         match PersonNode.interactionMode props with navigate => true | _ => false end /\
       PersonNode.isDragging (PersonNode.node w) = false /\
       forall props' t2,
         PersonNode.step props' hitTest w (PersonNode.TimerFires 1 t2) = Ok (w, [])) /\
  (forall sys h t e,
     Timers.due h t (timers sys) = Some e ->
     exists sys',
       step Math_sqrt rect sys (TimerFires h t) = Ok sys' /\
       app sys' = app sys /\
       (isMounted (Timers.closure e) (App.familyTree (app sys)) = true ->
        nodeState sys' (Timers.closure e) =
          Node.longPress (nodeState sys (Timers.closure e))) /\
       Timers.isPending h (timers sys') = false) /\
  (forall props fresh s touch d,
     In (Node.SetTimeout d) (snd (Node.handleTouchStart props fresh s touch)) ->
     d = 600%Z /\ Node.connectionMode props = false /\ Node.isEditing s = false) /\
  (forall saved id person touch t0 t1 m,
     findPerson id saved = Some person ->
     m <> connect ->
     (t0 + 600 <= t1)%Z ->
     exists sys,
       run Math_sqrt rect (start saved)
         [SetMode m; NodeTouchStart id t0 touch []; TimerFires 1 t1] = Ok sys /\
       Node.isEditing (nodeState sys id) = true /\
       App.familyTree (app sys) = saved /\
       App.mode (app sys) = m /\
       forall t2, step Math_sqrt rect sys (TimerFires 1 t2) = Ok sys).
Proof.
  split; [intros hitTest; apply desktop_timer_fires |].
  split; [exact desktop_armed_timer |].
  split; [intros hitTest; apply desktop_hold |].
  split; [exact mobile_timer_fires |].
  split; [exact mobile_armed_timer | exact mobile_hold].
Qed.

(** C3 as the code has it.  Changing the interaction mode of the
    mobile application sets the mode and nothing else: the tree, and
    with it every person's [x] and [y], the connection draft, the
    selection, the canvas state, the pending timers and the state of
    every mounted node are what they were. *)
Theorem mode_switch_frame sys m :
  exists sys',
    step Math_sqrt rect sys (SetMode m) = Ok sys' /\
    App.mode (app sys') = m /\
    App.familyTree (app sys') = App.familyTree (app sys) /\
    App.connectionStart (app sys') = App.connectionStart (app sys) /\
    App.selectedPersonId (app sys') = App.selectedPersonId (app sys) /\
    App.offset (app sys') = App.offset (app sys) /\
    App.scale (app sys') = App.scale (app sys) /\
    canvas sys' = canvas sys /\
    timers sys' = timers sys /\
    forall id, isMounted id (App.familyTree (app sys)) = true ->
               nodes sys' !! id = nodes sys !! id.
Proof.
  eexists. split; [reflexivity |]. simpl. repeat split.
  intros id Hm. now apply unmountGone_lookup.
Qed.

End MobileProperties.

(** ** The mobile application on concrete inputs *)

(** Bea is pressed in connect mode and released 300ms later, which
    leaves a draft from Bea; in navigate mode she is then held until
    her editor opens and is deleted there.  The tree stored by the
    deletion lists Cy alone and has no relationship.  Back in connect
    mode a press on Cy completes the draft, which the select handler of
    that press still reads from its snapshot: the stored tree now has a
    relationship from the deleted Bea to Cy. *)
Lemma cascade_delete_counterexample :
  exists sys sys',
    Mobile.run sqrtQ origin (Mobile.start twoPeople)
      [Mobile.SetMode connect;
       Mobile.NodeTouchStart "B" 0 (Touch.mk 10 10) [];
       Mobile.NodeTouchEnd "B" 300 [] (Touch.mk 10 10);
       Mobile.SetMode navigate;
       Mobile.NodeTouchStart "B" 1000 (Touch.mk 10 10) [];
       Mobile.TimerFires 1 1600;
       Mobile.EditorDelete "B"] = Ok sys /\
    Mobile.App.familyTree (Mobile.app sys) = FamilyTree.mk [cy] [] /\
    Mobile.run sqrtQ origin sys
      [Mobile.SetMode connect;
       Mobile.NodeTouchStart "C" 5000 (Touch.mk 210 10) []] = Ok sys' /\
    Mobile.App.familyTree (Mobile.app sys') =
      FamilyTree.mk [cy] [Relationship.mk "5000" parent "B" "C"] /\
    references "B" (Mobile.App.familyTree (Mobile.app sys')) = true /\
    Mobile.isMounted "B" (Mobile.App.familyTree (Mobile.app sys')) = false /\
    wellFormed (Mobile.App.familyTree (Mobile.app sys')) = false.
Proof.
  do 2 eexists.
  split; [vm_compute; reflexivity |].
  split; [reflexivity |].
  split; [vm_compute; reflexivity |].
  repeat split.
Qed.

Lemma deletePerson_cascades_witness :
  wellFormed (Mobile.App.familyTree
                (Mobile.App.deletePerson "B"
                   (Mobile.App.setFamilyTree
                      (FamilyTree.mk [bea; cy] [Relationship.mk "1" spouse "B" "C"])
                      Mobile.App.initial))) = true.
Proof.
  destruct (deletePerson_cascades "B"
              (Mobile.App.setFamilyTree
                 (FamilyTree.mk [bea; cy] [Relationship.mk "1" spouse "B" "C"])
                 Mobile.App.initial))
    as (_ & _ & _ & _ & _ & _ & Hwf & _).
  apply Hwf. reflexivity.
Defined.

(** A drag of Bea is in flight when the mode changes to connect: her
    node is still dragging afterwards.  A draft from Bea exists when the
    mode changes from connect to navigate: it is still there
    afterwards.  Bea is held when the mode changes to connect: the
    timer still fires and opens her editor. *)
Lemma mode_switch_counterexample :
  (exists sys sys',
     Mobile.run sqrtQ origin (Mobile.start twoPeople)
       [Mobile.NodeTouchStart "B" 0 (Touch.mk 10 10) [];
        Mobile.NodeTouchMove "B" 50 (Touch.mk 40 10) []] = Ok sys /\
     Mobile.Node.isDragging (Mobile.nodeState sys "B") = true /\
     Mobile.step sqrtQ origin sys (Mobile.SetMode connect) = Ok sys' /\
     Mobile.Node.isDragging (Mobile.nodeState sys' "B") = true) /\
  (exists sys sys',
     Mobile.run sqrtQ origin (Mobile.start twoPeople)
       [Mobile.SetMode connect;
        Mobile.NodeTouchStart "B" 0 (Touch.mk 10 10) []] = Ok sys /\
     Mobile.App.connectionStart (Mobile.app sys) = Some (Mobile.App.mkDraft "B" 60 30) /\
     Mobile.step sqrtQ origin sys (Mobile.SetMode navigate) = Ok sys' /\
     Mobile.App.connectionStart (Mobile.app sys') = Some (Mobile.App.mkDraft "B" 60 30)) /\
  (exists sys sys',
     Mobile.run sqrtQ origin (Mobile.start twoPeople)
       [Mobile.NodeTouchStart "B" 0 (Touch.mk 10 10) []] = Ok sys /\
     Mobile.Node.longPressTimer (Mobile.nodeState sys "B") = Some 1%nat /\
     Mobile.run sqrtQ origin sys
       [Mobile.SetMode connect; Mobile.TimerFires 1 600] = Ok sys' /\
     Mobile.App.mode (Mobile.app sys') = connect /\
     Mobile.Node.isEditing (Mobile.nodeState sys' "B") = true).
Proof.
  split; [| split]; do 2 eexists;
    (split; [vm_compute; reflexivity |]); (split; [reflexivity |]);
    (split; [vm_compute; reflexivity |]); repeat split.
Qed.

(** On mobile a move of 30px that comes 450ms after touch-down still
    starts the drag. *)
Lemma long_press_window_counterexample :
  exists sys sys',
    Mobile.run sqrtQ origin (Mobile.start twoPeople)
      [Mobile.NodeTouchStart "B" 0 (Touch.mk 10 10) []] = Ok sys /\
    Mobile.Node.longPressTimer (Mobile.nodeState sys "B") = Some 1%nat /\
    Timers.isPending 1 (Mobile.timers sys) = true /\
    Mobile.step sqrtQ origin sys (Mobile.NodeTouchMove "B" 450 (Touch.mk 40 10) []) = Ok sys' /\
    Mobile.Node.isDragging (Mobile.nodeState sys' "B") = true.
Proof.
  do 2 eexists.
  split; [vm_compute; reflexivity |].
  split; [reflexivity |]. split; [reflexivity |].
  split; [vm_compute; reflexivity |]. reflexivity.
Qed.

(** On mobile, in add mode, a touch held on Bea for 600ms opens her
    editor. *)
Lemma long_press_edit_counterexample :
  exists sys,
    Mobile.run sqrtQ origin (Mobile.start twoPeople)
      [Mobile.SetMode add_person;
       Mobile.NodeTouchStart "B" 0 (Touch.mk 10 10) [];
       Mobile.TimerFires 1 600] = Ok sys /\
    Mobile.App.mode (Mobile.app sys) = add_person /\
    Mobile.Node.isEditing (Mobile.nodeState sys "B") = true.
Proof.
  eexists. split; [vm_compute; reflexivity |]. split; reflexivity.
Qed.

(** ** The nodes on concrete inputs *)

Lemma beaPressed_reached :
  PersonNode.run nothingThere PersonNode.start
    [(beaProps, PersonNode.TouchStart 0 [Touch.mk 10 10])]
  = Ok (beaPressed, [PersonNode.Select]).
Proof. reflexivity. Qed.

Lemma long_press_cancellation_witness :
  exists w',
    PersonNode.step beaProps nothingThere beaPressed
      (PersonNode.TouchMove 50 [Touch.mk 40 10]) = Ok (w', []) /\
    PersonNode.longPressTimer (PersonNode.node w') = None /\
    PersonNode.isDragging (PersonNode.node w') = true /\
    spent 1 (PersonNode.timers w').
Proof.
  destruct (long_press_cancellation sqrtQ origin) as [Hdesktop _].
  destruct (Hdesktop nothingThere beaProps beaPressed 50%Z (Touch.mk 40 10) 1%nat)
    as (w' & Hstep & Htimer & Hdrag & Hspent & _).
  - intros e [<- | []]. simpl. lia.
  - reflexivity.
  - reflexivity.
  - reflexivity.
  - reflexivity.
  - exists w'.
    split; [exact Hstep | split; [exact Htimer | split; [exact Hdrag | exact Hspent]]].
Defined.

Lemma connection_self_loop_excluded_witness :
  let snap := Mobile.App.setConnectionStart (Some (Mobile.App.mkDraft "B" 60 30))
                (Mobile.App.setMode connect
                   (Mobile.App.setFamilyTree twoPeople Mobile.App.initial)) in
  Mobile.App.handlePersonSelect snap 7 "B" snap =
    Ok (Mobile.App.setSelectedPersonId (Some "B") snap).
Proof.
  intros snap.
  destruct connection_self_loop_excluded as (_ & Hsame & _).
  apply (Hsame snap 7%Z "B" snap (Mobile.App.mkDraft "B" 60 30)); reflexivity.
Defined.

Lemma long_press_edit_gating_witness :
  exists w,
    PersonNode.run nothingThere PersonNode.start
      [(beaProps, PersonNode.TouchStart 0 [Touch.mk 10 10]);
       (beaProps, PersonNode.TimerFires 1 600)] = Ok (w, [PersonNode.Select]) /\
    PersonNode.isEditing (PersonNode.node w) = true.
Proof.
  destruct (long_press_edit_gating sqrtQ origin) as (_ & _ & Hhold & _).
  destruct (Hhold nothingThere beaProps (Touch.mk 10 10) 0%Z 600%Z)
    as (w & Hrun & Hedit & _).
  - reflexivity.
  - lia.
  - exists w. split; assumption.
Defined.

(** * Further properties of the code *)

(** ** Grid snapping *)

Section GridSnap.

Lemma snapToGrid_Qeq v w : (v == w)%Q -> snapToGrid v = snapToGrid w.
Proof.
  intros E. unfold snapToGrid, Math_round.
  assert (H : Qfloor (v / 20 + (1 # 2)) = Qfloor (w / 20 + (1 # 2)))
    by (apply Qfloor_comp; rewrite E; reflexivity).
  now rewrite H.
Qed.

Lemma snapToGrid_bounds v : (v - 10 < snapToGrid v /\ snapToGrid v <= v + 10)%Q.
Proof.
  unfold snapToGrid, Math_round.
  pose proof (Qfloor_le (v / 20 + (1 # 2))) as Hle.
  pose proof (Qlt_floor (v / 20 + (1 # 2))) as Hlt.
  rewrite inject_Z_plus in Hlt.
  assert (E : (v / 20 == v * (1 # 20))%Q) by (field; discriminate).
  set (q := (v / 20)%Q) in *.
  set (k := inject_Z (Qfloor (q + (1 # 2)))) in *.
  change (inject_Z 1) with 1%Q in Hlt.
  split; lra.
Qed.

Lemma snapToGrid_fixed (k : Z) : snapToGrid (inject_Z k * 20) = (inject_Z k * 20)%Q.
Proof.
  unfold snapToGrid, Math_round.
  assert (H : Qfloor (inject_Z k * 20 / 20 + (1 # 2)) = k).
  { assert (E : (inject_Z k * 20 / 20 + (1 # 2) == inject_Z k + (1 # 2))%Q)
      by (field; discriminate).
    rewrite (Qfloor_comp _ _ E).
    assert (Hk : (k <= Qfloor (inject_Z k + (1 # 2)))%Z).
    { rewrite <- (Qfloor_Z k) at 1. apply Qfloor_resp_le. lra. }
    assert (Hk' : (Qfloor (inject_Z k + (1 # 2)) < k + 1)%Z).
    { rewrite Zlt_Qlt. eapply Qle_lt_trans; [apply Qfloor_le |].
      rewrite inject_Z_plus. change (inject_Z 1) with 1%Q. lra. }
    lia. }
  now rewrite H.
Qed.

(** X1.  Grid snap.  A snapped coordinate is an
    integer multiple of 20, lies within 10 of the coordinate it came from
    (above by less than 10, below by at most 10), and snapping it again
    changes nothing. *)
Theorem grid_snap_idempotent v :
  (exists k : Z, snapToGrid v = (inject_Z k * 20)%Q) /\
  (v - 10 < snapToGrid v /\ snapToGrid v <= v + 10)%Q /\
  snapToGrid (snapToGrid v) = snapToGrid v.
Proof.
  split; [eexists; reflexivity |]. split; [apply snapToGrid_bounds |].
  unfold snapToGrid at 2 3. unfold Math_round. apply snapToGrid_fixed.
Qed.

End GridSnap.

(** ** Operations on the stored tree *)

Section TreeOperations.
Import Mobile.

Lemma findPerson_None id t : findPerson id t = None <-> isMounted id t = false.
Proof.
  unfold findPerson, isMounted. split.
  - intros H. apply not_true_iff_false. rewrite existsb_exists. intros (p & Hin & E).
    pose proof (find_none _ _ H p Hin) as Hn. simpl in Hn. congruence.
  - intros H. destruct (List.find _ _) as [p |] eqn:E; [| reflexivity].
    apply find_some in E. destruct E as [Hin E].
    assert (existsb (fun p => String.eqb (Person.id p) id) (FamilyTree.people t) = true)
      by (apply existsb_exists; eauto).
    congruence.
Qed.

Lemma isMounted_ids id t :
  isMounted id t = true <-> In id (map Person.id (FamilyTree.people t)).
Proof.
  rewrite isMounted_In, in_map_iff. split; intros (p & H1 & H2); exists p; auto.
Qed.

Lemma isMounted_same_ids t t' id :
  map Person.id (FamilyTree.people t') = map Person.id (FamilyTree.people t) ->
  isMounted id t' = isMounted id t.
Proof.
  intros E. apply eq_true_iff_eq. rewrite !isMounted_ids, E. reflexivity.
Qed.

Lemma wellFormed_transfer t t' :
  (forall id, isMounted id t = true -> isMounted id t' = true) ->
  (forall r, In r (FamilyTree.relationships t') -> In r (FamilyTree.relationships t)) ->
  wellFormed t = true -> wellFormed t' = true.
Proof.
  rewrite !wellFormed_true. intros Hm Hr Hwf r Hin.
  destruct (Hwf r (Hr r Hin)). auto.
Qed.

Lemma updatePerson_ids p l :
  map Person.id (map (replaceById p) l) = map Person.id l.
Proof.
  induction l as [| q l IH]; simpl; [reflexivity |]. rewrite IH. f_equal.
  unfold replaceById. destruct (String.eqb_spec (Person.id q) (Person.id p)); congruence.
Qed.

Lemma updatePerson_absent p l :
  ~ In (Person.id p) (map Person.id l) -> map (replaceById p) l = l.
Proof.
  induction l as [| q l IH]; simpl; intros H; [reflexivity |].
  rewrite IH by tauto. f_equal. unfold replaceById.
  destruct (String.eqb_spec (Person.id q) (Person.id p)); [| reflexivity].
  exfalso. apply H. now left.
Qed.

Lemma updatePerson_find p l :
  In (Person.id p) (map Person.id l) ->
  List.find (fun q => String.eqb (Person.id q) (Person.id p)) (map (replaceById p) l) = Some p.
Proof.
  induction l as [| q l IH]; simpl; intros H; [contradiction |].
  destruct (String.eqb_spec (Person.id q) (Person.id p)) as [E | E].
  - assert (Hq : replaceById p q = p).
    { unfold replaceById. apply String.eqb_eq in E. now rewrite E. }
    rewrite Hq, String.eqb_refl. reflexivity.
  - pose proof E as E'. apply String.eqb_neq in E'.
    assert (Hq : replaceById p q = q) by (unfold replaceById; now rewrite E').
    rewrite Hq, E'. apply IH. destruct H as [H | H]; [congruence | exact H].
Qed.

(** X2.  [updatePerson(p)] replaces the listed people whose id is [p]'s by
    [p] and nobody else: the ids of the people list, in their order, and
    the relationships are as before; for an id that is not listed the
    tree is unchanged; for a listed id the person found under it
    afterwards is [p]; and updating twice is updating once. *)
Theorem updatePerson_by_id p s :
  let t := App.familyTree s in
  let t' := App.familyTree (App.updatePerson p s) in
  map Person.id (FamilyTree.people t') = map Person.id (FamilyTree.people t) /\
  FamilyTree.relationships t' = FamilyTree.relationships t /\
  (isMounted (Person.id p) t = false -> t' = t) /\
  (isMounted (Person.id p) t = true -> findPerson (Person.id p) t' = Some p) /\
  (forall q, In q (FamilyTree.people t') ->
             q = p \/ (In q (FamilyTree.people t) /\ Person.id q <> Person.id p)) /\
  App.updatePerson p (App.updatePerson p s) = App.updatePerson p s.
Proof.
  intros t t'. unfold t', App.updatePerson. simpl.
  change (fun p0 => if String.eqb (Person.id p0) (Person.id p) then p else p0)
    with (replaceById p).
  split; [apply updatePerson_ids |]. split; [reflexivity |].
  split; [| split; [| split]].
  - intros Hm. destruct (App.familyTree s) as [people rels] eqn:Et. subst t. simpl in *.
    rewrite updatePerson_absent; [reflexivity |].
    intros Hin. apply (isMounted_ids (Person.id p) (FamilyTree.mk people rels)) in Hin.
    congruence.
  - intros Hm. unfold findPerson. simpl. apply updatePerson_find.
    now apply isMounted_ids.
  - intros q Hin. apply in_map_iff in Hin. destruct Hin as (q0 & <- & Hin).
    unfold replaceById.
    destruct (String.eqb_spec (Person.id q0) (Person.id p)); [now left | right; auto].
  - unfold App.setFamilyTree. simpl. f_equal. f_equal.
    rewrite map_map. apply map_ext. intros q. unfold replaceById.
    destruct (String.eqb_spec (Person.id q) (Person.id p)) as [E | E].
    + now rewrite String.eqb_refl.
    + apply String.eqb_neq in E. now rewrite E.
Qed.

(** X3.  [deleteRelationship(id)] removes the relationships whose id is [id]
    and keeps the others in order; the people are untouched; for an id
    no relationship has, the tree is unchanged; deleting twice is
    deleting once. *)
Theorem deleteRelationship_by_id id s :
  let t := App.familyTree s in
  let t' := App.familyTree (App.deleteRelationship id s) in
  FamilyTree.people t' = FamilyTree.people t /\
  (forall r, In r (FamilyTree.relationships t') <->
             In r (FamilyTree.relationships t) /\ Relationship.id r <> id) /\
  sublist (FamilyTree.relationships t') (FamilyTree.relationships t) /\
  ((forall r, In r (FamilyTree.relationships t) -> Relationship.id r <> id) -> t' = t) /\
  App.deleteRelationship id (App.deleteRelationship id s) = App.deleteRelationship id s.
Proof.
  intros t t'. unfold t', App.deleteRelationship. simpl.
  split; [reflexivity |]. split; [| split; [apply filter_sublist | split]].
  - intros r. rewrite filter_In, eqb_neq_true. reflexivity.
  - intros H. subst t. destruct (App.familyTree s) as [people rels]. simpl in *. f_equal.
    induction rels as [| r rels IH]; simpl; [reflexivity |].
    assert (Hr : negb (String.eqb (Relationship.id r) id) = true)
      by (apply eqb_neq_true, H; now left).
    rewrite Hr. f_equal. apply IH. intros r' Hin. apply H. now right.
  - unfold App.setFamilyTree. simpl. f_equal. f_equal.
    induction (FamilyTree.relationships (App.familyTree s)) as [| r rels IH];
      simpl; [reflexivity |].
    destruct (negb (String.eqb (Relationship.id r) id)) eqn:E; simpl; rewrite ?E, IH; reflexivity.
Qed.

Lemma isMounted_app id people extra rels rels' :
  isMounted id (FamilyTree.mk people rels) = true ->
  isMounted id (FamilyTree.mk (people ++ extra) rels') = true.
Proof.
  unfold isMounted. simpl. rewrite existsb_app. intros ->. reflexivity.
Qed.

(** X4.  The tree stays well formed, every relationship joining two listed
    people, under [addPerson], [updatePerson], [deleteRelationship] and
    [handleClear], and under a select that completes a connection as
    long as the draft's source and the selected person are both still
    listed. *)
Theorem wellFormed_preserved s :
  wellFormed (App.familyTree s) = true ->
  (forall snap now d, wellFormed (App.familyTree (App.addPerson snap now d s)) = true) /\
  (forall p, wellFormed (App.familyTree (App.updatePerson p s)) = true) /\
  (forall id, wellFormed (App.familyTree (App.deleteRelationship id s)) = true) /\
  wellFormed (App.familyTree (App.handleClear s)) = true /\
  (forall snap now pid s',
     (forall draft, App.connectionStart snap = Some draft ->
                    isMounted (App.personId draft) (App.familyTree s) = true) ->
     isMounted pid (App.familyTree s) = true ->
     App.handlePersonSelect snap now pid s = Ok s' ->
     wellFormed (App.familyTree s') = true).
Proof.
  intros Hwf. split; [| split; [| split; [| split]]].
  - intros snap now d. eapply wellFormed_transfer; [| | exact Hwf].
    + intros id Hm. unfold App.addPerson. simpl.
      destruct (App.familyTree s) as [people rels]. eapply isMounted_app, Hm.
    + intros r Hr. exact Hr.
  - intros p. eapply wellFormed_transfer; [| | exact Hwf].
    + intros id Hm. rewrite <- Hm. apply isMounted_same_ids.
      unfold App.updatePerson. simpl. apply (updatePerson_ids p).
    + intros r Hr. exact Hr.
  - intros id. eapply wellFormed_transfer; [| | exact Hwf].
    + intros id' Hm. exact Hm.
    + intros r Hr. unfold App.deleteRelationship in Hr. simpl in Hr.
      now apply filter_In in Hr.
  - reflexivity.
  - intros snap now pid s' Hdraft Hpid H.
    apply handlePersonSelect_tree in H. destruct H as [Hp [E | (d & _ & Hd & _ & E)]].
    + eapply wellFormed_transfer; [| | exact Hwf].
      * intros id Hm. rewrite <- Hm. apply isMounted_same_ids. now rewrite Hp.
      * intros r Hr. now rewrite <- E.
    + assert (Hsame : forall id, isMounted id (App.familyTree s') = isMounted id (App.familyTree s))
        by (intros id; apply isMounted_same_ids; now rewrite Hp).
      apply wellFormed_true. intros r Hr. rewrite !Hsame. rewrite E in Hr.
      apply in_app_or in Hr. destruct Hr as [Hr | [<- | []]].
      * pose proof (proj1 (wellFormed_true _) Hwf) as Hwf'. now apply Hwf'.
      * simpl. split; [now apply Hdraft | exact Hpid].
Qed.

Lemma findPerson_Some_mounted id t :
  isMounted id t = true -> exists p, findPerson id t = Some p.
Proof.
  intros Hm. destruct (findPerson id t) as [p |] eqn:E; [eauto |].
  apply findPerson_None in E. congruence.
Qed.

(** X5.  An edge is drawn exactly for the relationships whose two ends are
    listed people, so a tree is well formed exactly when every one of
    its relationships is drawn; a relationship with a missing end is
    skipped.  The label of a drawn edge sits at the midpoint of the two
    node centres. *)
Theorem edges_drawn t :
  (forall r, renderEdge t r = None <->
             isMounted (Relationship.from r) t = false \/
             isMounted (Relationship.to r) t = false) /\
  (wellFormed t = true <->
   forall r, In r (FamilyTree.relationships t) -> renderEdge t r <> None) /\
  (forall r e, renderEdge t r = Some e ->
     (Point.x (Edge.mid e) * 2 == Point.x (Edge.fromPoint e) + Point.x (Edge.toPoint e))%Q /\
     (Point.y (Edge.mid e) * 2 == Point.y (Edge.fromPoint e) + Point.y (Edge.toPoint e))%Q).
Proof.
  assert (Hnone : forall r, renderEdge t r = None <->
             isMounted (Relationship.from r) t = false \/
             isMounted (Relationship.to r) t = false).
  { intros r. unfold renderEdge.
    destruct (findPerson (Relationship.from r) t) as [pf |] eqn:Ef;
      destruct (findPerson (Relationship.to r) t) as [pt |] eqn:Et;
      rewrite <- !findPerson_None, ?Ef, ?Et; split; auto; try discriminate.
    intros [H | H]; discriminate. }
  split; [exact Hnone |]. split.
  - rewrite wellFormed_true. split.
    + intros Hwf r Hin Hn. apply Hnone in Hn. destruct (Hwf r Hin) as [H1 H2].
      destruct Hn; congruence.
    + intros H r Hin. specialize (H r Hin). rewrite Hnone in H.
      destruct (isMounted (Relationship.from r) t), (isMounted (Relationship.to r) t);
        auto; exfalso; apply H; auto.
  - intros r e H. unfold renderEdge in H.
    destruct (findPerson (Relationship.from r) t), (findPerson (Relationship.to r) t);
      try discriminate.
    injection H as <-. simpl. split; field.
Qed.

End TreeOperations.

(** ** More on the desktop canvas *)

Section CanvasView.
Import InteractiveCanvas.
Variable Math_sqrt : Q -> Q.

(** X6.  The zoom buttons undo each other away from the clamps: zoom in then
    out returns to the zoom before when [zoom * 1.2] does not exceed 3,
    zoom out then in when [zoom / 1.2] does not fall below 0.1; at a
    clamp the pair does not return (from 3, in then out gives 2.5).
    The pan stays as it was. *)
Theorem zoom_buttons_round_trip s :
  inRange (zoom s) ->
  (exists s1 s2, zoomIn s = Ok (s1, []) /\ zoomOut s1 = Ok (s2, []) /\ pan s2 = pan s /\
     ((zoom s * (6 # 5) <= 3)%Q -> (zoom s2 == zoom s)%Q) /\
     ((3 < zoom s * (6 # 5))%Q -> (zoom s2 == 5 # 2)%Q)) /\
  (exists s1 s2, zoomOut s = Ok (s1, []) /\ zoomIn s1 = Ok (s2, []) /\ pan s2 = pan s /\
     ((1 # 10 <= zoom s / (6 # 5))%Q -> (zoom s2 == zoom s)%Q) /\
     ((zoom s / (6 # 5) < 1 # 10)%Q -> (zoom s2 == 3 # 25)%Q)).
Proof.
  unfold inRange. intros [Hl Hu]. split.
  - do 2 eexists. split; [reflexivity |]. split; [reflexivity |]. simpl.
    split; [reflexivity |].
    destruct (Math_min_cases 3 (zoom s * (6 # 5))) as [[H1 ->] | [H1 ->]].
    + assert (E : (3 / (6 # 5) == 5 # 2)%Q) by reflexivity.
      destruct (Math_max_cases (1 # 10) (3 / (6 # 5))) as [[H2 ->] | [H2 ->]];
        split; intros H; lra.
    + assert (E : (zoom s * (6 # 5) / (6 # 5) == zoom s)%Q) by (field; discriminate).
      destruct (Math_max_cases (1 # 10) (zoom s * (6 # 5) / (6 # 5))) as [[H2 ->] | [H2 ->]];
        split; intros H; lra.
  - do 2 eexists. split; [reflexivity |]. split; [reflexivity |]. simpl.
    split; [reflexivity |].
    assert (Ed : (zoom s / (6 # 5) == zoom s * (5 # 6))%Q) by (field; discriminate).
    destruct (Math_max_cases (1 # 10) (zoom s / (6 # 5))) as [[H1 ->] | [H1 ->]].
    + assert (E : (zoom s / (6 # 5) * (6 # 5) == zoom s)%Q) by (field; discriminate).
      destruct (Math_min_cases 3 (zoom s / (6 # 5) * (6 # 5))) as [[H2 ->] | [H2 ->]];
        split; intros H; lra.
    + destruct (Math_min_cases 3 ((1 # 10) * (6 # 5))) as [[H2 ->] | [H2 ->]];
        split; intros H; lra.
Qed.

(** X7.  Presses, releases and the zoom-in and zoom-out buttons never move
    the pan, and only the plain wheel, the two-finger move and the four
    buttons ever change the zoom: panning by mouse, by one finger or by
    Ctrl+wheel never rescales. *)
Theorem view_frame props s ev s' effs :
  step Math_sqrt props s ev = Ok (s', effs) ->
  (mayRescale ev = false -> zoom s' = zoom s) /\
  (mayMove ev = false -> pan s' = pan s).
Proof.
  intros H.
  destruct ev as [e | e | e | | e | e | e | | | | | e | ]; simpl in *.
  - unfold handleWheel in H.
    destruct (WheelEvent.ctrlKey e || WheelEvent.metaKey e); simpl.
    + injection H as <- _. split; [reflexivity | discriminate].
    + split; discriminate.
  - unfold handleMouseDown in H.
    repeat match type of H with
           | (if ?b then _ else _) = _ => destruct b
           | match ?o with Some _ => _ | None => _ end = _ => destruct o
           | (_ ≫= _) = Ok _ => apply bind_Ok in H; destruct H as (? & _ & H)
           end; injection H as <- _; split; reflexivity.
  - unfold handleMouseMove in H. destruct (isPanning s); injection H as <- _;
      split; try reflexivity; discriminate.
  - injection H as <- _. split; reflexivity.
  - unfold handleTouchStart in H.
    destruct (TouchEvent.touches e) as [| t1 [| t2 [| t3 ts]]]; simpl in H;
    repeat match type of H with
           | (if ?b then _ else _) = _ => destruct b
           | match ?o with Some _ => _ | None => _ end = _ => destruct o
           | (_ ≫= _) = Ok _ => apply bind_Ok in H; destruct H as (? & _ & H)
           end; injection H as <- _; split; reflexivity.
  - unfold handleTouchMove in H.
    destruct (TouchEvent.touches e) as [| t1 [| t2 [| t3 ts]]]; simpl in *;
      try (injection H as <- _; split; [reflexivity | discriminate]).
    + destruct (isPanning s); injection H as <- _; split; try reflexivity; discriminate.
    + split; discriminate.
  - unfold handleTouchEnd in H.
    destruct (TouchEvent.touches e) as [| t1 [| t2 ts]]; injection H as <- _;
      split; reflexivity.
  - injection H as <- _. split; [discriminate | reflexivity].
  - injection H as <- _. split; [discriminate | reflexivity].
  - split; discriminate.
  - split; discriminate.
  - unfold handleGlobalMouseMove in H. destruct (isPanning s); injection H as <- _;
      split; try reflexivity; discriminate.
  - injection H as <- _. split; reflexivity.
Qed.

Lemma last_default {A} (l : list A) (a d d' : A) :
  List.last (a :: l) d = List.last (a :: l) d'.
Proof.
  revert a. induction l as [| b l IH]; intros a; [reflexivity |].
  change (List.last (b :: l) d = List.last (b :: l) d'). apply IH.
Qed.

(** X8.  One-finger panning tracks the finger 1:1.  While the canvas is
    panning, after any sequence of single-touch moves the zoom is as
    before, the canvas is still panning, the last pan point is the last
    touch position, and the pan has moved by exactly the finger's total
    displacement: [pan - lastPanPoint] is what it was, so the world
    point grabbed at touch-down is still under the finger. *)
Theorem touch_pan_tracks_finger l : forall s,
  isPanning s = true ->
  exists s',
    run Math_sqrt s (fingerMoves l) = Ok s' /\
    zoom s' = zoom s /\
    isPanning s' = true /\
    lastPanPoint s' =
      List.last
        (map (fun m => Point.mk (Touch.clientX (snd (fst m))) (Touch.clientY (snd (fst m)))) l)
        (lastPanPoint s) /\
    (Point.x (pan s') - Point.x (lastPanPoint s') ==
     Point.x (pan s) - Point.x (lastPanPoint s))%Q /\
    (Point.y (pan s') - Point.y (lastPanPoint s') ==
     Point.y (pan s) - Point.y (lastPanPoint s))%Q.
Proof.
  induction l as [| [[props touch] target] l IH]; intros s Hp.
  - exists s. split; [reflexivity |]. split; [reflexivity |]. split; [exact Hp |].
    split; [reflexivity |]. split; reflexivity.
  - cbn [fingerMoves map fst snd run step].
    unfold handleTouchMove. cbn [TouchEvent.touches]. rewrite Hp.
    change (mbind ?k (Ok ?a)) with (k a). cbv beta. cbn [fst].
    match goal with
    | |- context [run Math_sqrt ?s1 _] =>
      destruct (IH s1 Hp) as (s' & Hrun & Hz & Hp' & Hlast & Hx & Hy)
    end.
    exists s'. fold (fingerMoves l). split; [exact Hrun |].
    simpl in Hz, Hlast, Hx, Hy.
    split; [exact Hz |]. split; [exact Hp' |]. split.
    + rewrite Hlast. cbn [map fst snd]. destruct l as [| m l]; [reflexivity |].
      cbn [map]. symmetry.
      match goal with
      | |- List.last (?a :: ?b :: ?l') ?d = List.last _ ?d' =>
        change (List.last (b :: l') d = List.last (b :: l') d')
      end.
      apply last_default.
    + split; [rewrite Hx | rewrite Hy]; ring.
Qed.

(** X9.  The node and the canvas convert screen points alike: with the props
    the canvas hands to its children, [screenToCanvasCoords] of the
    position of an add-person click is the point the canvas passes to
    [onCanvasClick]; it inverts the transform the content is drawn with;
    and without a canvas element it returns the screen point as it is. *)
Theorem node_canvas_coordinates cprops s person mode type mobile :
  ~ (zoom s == 0)%Q ->
  let nprops := nodePropsFrom cprops s person mode type mobile in
  (forall e x y,
     handleMouseDown cprops s e = Ok (s, [CanvasClick x y]) ->
     PersonNode.screenToCanvasCoords nprops (MouseEvent.clientX e) (MouseEvent.clientY e)
       = Ok (Point.mk x y)) /\
  (forall rect w,
     canvasRef cprops = Some rect ->
     let p := contentToScreen rect (pan s) (zoom s) w in
     exists w', PersonNode.screenToCanvasCoords nprops (Point.x p) (Point.y p) = Ok w' /\
                Point.equiv w' w) /\
  (canvasRef cprops = None ->
   forall x y, PersonNode.screenToCanvasCoords nprops x y = Ok (Point.mk x y)).
Proof.
  intros Hz nprops. split; [| split].
  - intros e x y H. unfold handleMouseDown in H.
    unfold PersonNode.screenToCanvasCoords, nprops, nodePropsFrom. simpl.
    repeat match type of H with
           | (if ?b then _ else _) = _ => destruct b
           | Ok (_, []) = Ok (_, [_]) => discriminate H
           | Ok (startPanning _ _ _, _) = _ => discriminate H
           end.
    destruct (canvasRef cprops) as [rect |]; [| discriminate H].
    rewrite !fdiv_ok in * by assumption. simpl in *. injection H as <- <-. reflexivity.
  - intros rect w Hr p. unfold PersonNode.screenToCanvasCoords, nprops, nodePropsFrom. simpl.
    rewrite Hr. rewrite !fdiv_ok by assumption. simpl.
    eexists. split; [reflexivity |]. unfold Point.equiv. simpl. split; field; assumption.
  - intros Hr x y. unfold PersonNode.screenToCanvasCoords, nprops, nodePropsFrom. simpl.
    now rewrite Hr.
Qed.

End CanvasView.

(** ** More on the desktop node *)

Section DesktopNodeGestures.
Import PersonNode.
Variable hitTest : Q -> Q -> option string.

Lemma timerCleanup_same o : timerCleanup o o = [].
Proof.
  unfold timerCleanup. destruct o as [h |]; [| reflexivity].
  destruct (decide (Some h = Some h)); [reflexivity | congruence].
Qed.

(** A handler that leaves the timer handle alone and only calls back
    leaves the timers alone. *)
Lemma settle_callbacks now w s' effs :
  longPressTimer s' = longPressTimer (node w) ->
  forallb isCallback effs = true ->
  settle now w (s', effs) = (mkWorld s' (timers w), effs).
Proof.
  intros Ht Hc. unfold settle. simpl. rewrite Ht, timerCleanup_same, app_nil_r.
  f_equal.
  - f_equal. induction effs as [| e effs IH] in Hc |- * using rev_ind; [reflexivity |].
    rewrite forallb_app in Hc. apply andb_true_iff in Hc. destruct Hc as [Hc He].
    rewrite fold_left_app. simpl. rewrite IH by assumption.
    simpl in He. destruct e; simpl in *; try reflexivity; discriminate.
  - induction effs as [| e effs IH]; [reflexivity |]. simpl in *.
    apply andb_true_iff in Hc. destruct Hc as [He Hc]. rewrite He. f_equal. now apply IH.
Qed.

(** X10.  A mouse drag is absolute.  A left press on a node that is not
    being edited, in navigate or add-person mode, selects it and starts
    the drag; every later mouse move, whatever position the node has
    been given in between, asks for the position at the press plus the
    pointer's displacement since the press, snapped to the grid, and
    leaves the other fields of the person alone; after the release a
    move asks for nothing. *)
Theorem mouse_drag_absolute props props' w e0 e1 :
  isEditing (node w) = false ->
  MouseEvent.button e0 = 0%Z ->
  isFormElement (MouseEvent.tagName e0) = false ->
  dragsNodes (interactionMode props) = true ->
  let p := person props in
  let q := Person.moveTo
             (snapToGrid (Person.x p + (MouseEvent.clientX e1 - MouseEvent.clientX e0)))
             (snapToGrid (Person.y p + (MouseEvent.clientY e1 - MouseEvent.clientY e0)))
             (person props') in
  exists w1 w2,
    step props hitTest w (MouseDown e0) = Ok (w1, [Select]) /\
    isDragging (node w1) = true /\
    step props' hitTest w1 (DocumentMouseMove e1) = Ok (w1, [PersonUpdate q]) /\
    step props' hitTest w1 DocumentMouseUp = Ok (w2, []) /\
    isDragging (node w2) = false /\
    (isConnecting (node w) = false ->
     step props' hitTest w2 (DocumentMouseMove e1) = Ok (w2, [])).
Proof.
  intros He Hb Hf Hm p q.
  assert (Hdown : handleMouseDown props (node w) e0 =
            Ok (setDragStart (Point.mk (MouseEvent.clientX e0 - Person.x p)
                                       (MouseEvent.clientY e0 - Person.y p))
                  (setIsDragging true (node w)), [Select])).
  { unfold handleMouseDown. rewrite Hb, He, Hf. simpl.
    destruct (interactionMode props); try reflexivity. discriminate Hm. }
  do 2 eexists. split.
  { unfold step. rewrite He, Hdown. change (mbind ?k (Ok ?a)) with (k a). cbv beta.
    rewrite settle_callbacks by reflexivity. reflexivity. }
  split; [reflexivity |]. split.
  { unfold step. cbn [node isDragging setDragStart setIsDragging orb].
    unfold handleMouseMove. cbn [isDragging setDragStart setIsDragging].
    change (mbind ?k (Ok ?a)) with (k a). cbv beta.
    rewrite settle_callbacks by reflexivity.
    unfold dragged, q. cbn [dragStart setDragStart setIsDragging Point.x Point.y].
    rewrite (snapToGrid_Qeq (MouseEvent.clientX e1 - (MouseEvent.clientX e0 - Person.x p))
               (Person.x p + (MouseEvent.clientX e1 - MouseEvent.clientX e0))) by ring.
    rewrite (snapToGrid_Qeq (MouseEvent.clientY e1 - (MouseEvent.clientY e0 - Person.y p))
               (Person.y p + (MouseEvent.clientY e1 - MouseEvent.clientY e0))) by ring.
    reflexivity. }
  split.
  { unfold step. cbn [node isDragging setDragStart setIsDragging orb].
    unfold handleGlobalMouseUp. cbn [isDragging setDragStart setIsDragging].
    change (mbind ?k (Ok ?a)) with (k a). cbv beta.
    rewrite settle_callbacks by reflexivity. reflexivity. }
  split; [reflexivity |].
  intros Hc. unfold step. cbn [node isDragging isConnecting setDragStart setIsDragging orb].
  rewrite Hc. reflexivity.
Qed.

(** X11.  With a non-zero zoom, or without a canvas element, no event of the
    node ends in a fault: no coordinate it reports is the result of a
    division by zero. *)
Theorem node_never_faults props w ev :
  ~ (zoom props == 0)%Q \/ canvasRef props = None ->
  exists w' effs, step props hitTest w ev = Ok (w', effs).
Proof.
  intros Hz.
  assert (Hc : forall x y, exists pos, screenToCanvasCoords props x y = Ok pos).
  { intros x y. unfold screenToCanvasCoords. destruct Hz as [Hz | ->]; [| eauto].
    destruct (canvasRef props); [| eauto]. rewrite !fdiv_ok by assumption. simpl. eauto. }
  assert (Hsettle : forall now r, exists w' effs, Ok (settle now w r) = Ok (w', effs)).
  { intros now r. destruct (settle now w r) as [w' effs]. eauto. }
  destruct ev as [e | | | e | | now touches | now touches | now changed | h now | | | ];
    unfold step.
  - destruct (isEditing (node w)) eqn:He; [eauto |]. unfold handleMouseDown. rewrite He.
    destruct (negb _); [apply Hsettle |]. destruct (isFormElement _); [apply Hsettle |].
    destruct (interactionMode props); try apply Hsettle.
    destruct (Hc (MouseEvent.clientX e) (MouseEvent.clientY e)) as (pos & ->). apply Hsettle.
  - destruct (isEditing (node w)); [eauto |]. unfold handleMouseUp.
    destruct (isDragging _); [apply Hsettle |]. destruct (isConnecting _); [apply Hsettle |].
    destruct (interactionMode props); apply Hsettle.
  - destruct (isEditing (node w)); [eauto |]. unfold handleDoubleClick.
    destruct (interactionMode props); try apply Hsettle. destruct (negb _); apply Hsettle.
  - destruct (isDragging (node w) || isConnecting (node w)); [| eauto].
    unfold handleMouseMove. destruct (isDragging _); [apply Hsettle |].
    destruct (isConnecting _); [| apply Hsettle].
    destruct (Hc (MouseEvent.clientX e) (MouseEvent.clientY e)) as (pos & ->). apply Hsettle.
  - destruct (isDragging (node w) || isConnecting (node w)); [| eauto].
    unfold handleGlobalMouseUp. destruct (isDragging _); [apply Hsettle |].
    destruct (isConnecting _); apply Hsettle.
  - destruct (isEditing (node w)) eqn:He; [eauto |]. unfold handleTouchStart.
    destruct touches as [| touch [| t' ts]]; try apply Hsettle. rewrite He.
    destruct (interactionMode props); try apply Hsettle.
    destruct (Hc (Touch.clientX touch) (Touch.clientY touch)) as (pos & ->). apply Hsettle.
  - destruct (isEditing (node w)); [eauto |]. unfold handleTouchMove.
    destruct touches as [| touch [| t' ts]]; try apply Hsettle.
    destruct (match longPressTimer (node w) with Some _ => _ | None => _ end) as [s1 cancelled].
    destruct (isDragging _); [apply Hsettle |]. destruct (isConnecting _); [| apply Hsettle].
    destruct (Hc (Touch.clientX touch) (Touch.clientY touch)) as (pos & ->). apply Hsettle.
  - destruct (isEditing (node w)); [eauto |]. unfold handleTouchEnd.
    destruct (isDragging _); [apply Hsettle |]. destruct (isConnecting _); [apply Hsettle |].
    destruct (interactionMode props); try apply Hsettle. destruct (_ <? _)%Z; apply Hsettle.
  - destruct (Timers.due h now (timers w)); eauto.
  - destruct (isEditing (node w)); [apply Hsettle | eauto].
  - destruct (isEditing (node w)); [apply Hsettle | eauto].
  - apply Hsettle.
Qed.

(** *** At most one long-press timer *)

Lemma fold_timerEffects now effs : forall tb,
  fold_left (runEffect now) effs tb = fold_left (runEffect now) (timerEffects effs) tb.
Proof.
  induction effs as [| e effs IH]; intros tb; [reflexivity |].
  unfold timerEffects in *. simpl. destruct e; simpl; apply IH.
Qed.

Lemma filter_all_out {A} (P : A -> Prop) `{forall a, Decision (P a)} (l : list A) :
  (forall a, In a l -> ~ P a) -> filter P l = [].
Proof.
  induction l as [| a l IH]; intros Hl; [reflexivity |].
  rewrite filter_cons. destruct (decide (P a)) as [Hp | _].
  - exfalso. apply (Hl a); [now left | exact Hp].
  - apply IH. intros b Hb. apply Hl. now right.
Qed.

Lemma timersInOrder_cleared w h :
  timersInOrder w -> longPressTimer (node w) = Some h ->
  Timers.pending (Timers.clearTimeout h (timers w)) = [].
Proof.
  intros (_ & _ & H3 & _) Ht. unfold Timers.clearTimeout. simpl.
  apply filter_all_out. intros e He Hne. apply H3 in He. rewrite Ht in He.
  injection He as E. congruence.
Qed.

Lemma timersInOrder_none w :
  timersInOrder w -> longPressTimer (node w) = None -> Timers.pending (timers w) = [].
Proof.
  intros (_ & _ & H3 & _) Ht. destruct (Timers.pending (timers w)) as [| e l] eqn:E;
    [reflexivity |].
  specialize (H3 e (or_introl eq_refl)). congruence.
Qed.

Lemma timersInOrder_idle s tb :
  Timers.pending tb = [] ->
  (forall h, longPressTimer s = Some h -> (h < Timers.next tb)%nat) ->
  timersInOrder (mkWorld s tb).
Proof.
  intros Hp Hn. unfold timersInOrder, issued. cbn [node timers]. rewrite Hp.
  split; [intros e [] |]. split; [exact Hn |]. split; [intros e [] | simpl; lia].
Qed.

Lemma timersInOrder_armed s now d c tb :
  Timers.pending tb = [] ->
  longPressTimer s = Some (Timers.next tb) ->
  timersInOrder (mkWorld s (Timers.setTimeout now d c tb)).
Proof.
  intros Hp Hn. unfold timersInOrder, issued, Timers.setTimeout.
  cbn [node timers Timers.pending Timers.next]. rewrite Hp, Hn.
  split; [intros e [<- | []]; simpl; lia |].
  split; [intros h E; injection E as <-; lia |].
  split; [intros e [<- | []]; reflexivity | simpl; lia].
Qed.

Lemma timersInOrder_same s w :
  timersInOrder w -> longPressTimer s = longPressTimer (node w) ->
  timersInOrder (mkWorld s (timers w)).
Proof.
  intros H E. unfold timersInOrder in *. cbn [node timers]. rewrite E. exact H.
Qed.

Lemma clearTimeout_empty {A} h (tb : Timers.t A) :
  Timers.pending tb = [] -> Timers.pending (Timers.clearTimeout h tb) = [].
Proof. intros Hp. unfold Timers.clearTimeout. simpl. now rewrite Hp. Qed.

Lemma settle_timersInOrder now w s' effs :
  timersInOrder w ->
  timerShape (longPressTimer (node w)) (Timers.next (timers w)) (longPressTimer s')
             (timerEffects effs) ->
  timersInOrder (fst (settle now w (s', effs))).
Proof.
  intros Hinv Hshape. pose proof Hinv as (H1 & H2 & H3 & H4).
  unfold settle. cbn [fst snd node timers]. rewrite fold_left_app, (fold_timerEffects now effs).
  pose proof (fun h => timersInOrder_cleared w h Hinv) as Hclear.
  pose proof (timersInOrder_none w Hinv) as Hnone.
  pose proof (timersInOrder_same s' w Hinv) as Hsame.
  destruct (longPressTimer (node w)) as [h |] eqn:Ht.
  - specialize (Hclear h eq_refl). specialize (H2 h eq_refl).
    destruct Hshape as [(Hn & He) | [(Hn & He) | [(Hn & He) | [(Hn & He) | (d & c & Hn & He)]]]];
      rewrite He, Hn; unfold timerCleanup; cbn [fold_left runEffect].
    + destruct (decide (Some h = Some h)); [| congruence]. cbn [fold_left]. now apply Hsame.
    + destruct (decide (Some h = Some h)); [| congruence]. cbn [fold_left].
      apply timersInOrder_idle; [exact Hclear |].
      intros h' E. rewrite Hn in E. injection E as <-. exact H2.
    + destruct (decide (None = Some h)); [congruence |]. cbn [fold_left runEffect].
      apply timersInOrder_idle; [exact Hclear | rewrite Hn; discriminate].
    + destruct (decide (None = Some h)); [congruence |]. cbn [fold_left runEffect].
      apply timersInOrder_idle; [now apply clearTimeout_empty | rewrite Hn; discriminate].
    + destruct (decide (Some (Timers.next (timers w)) = Some h)) as [E | _];
        [injection E as E; lia |].
      cbn [app fold_left runEffect].
      set (tb1 := Timers.setTimeout now d c (Timers.clearTimeout h (timers w))).
      assert (Hin : timersInOrder (mkWorld s' tb1))
        by (apply timersInOrder_armed; [exact Hclear | exact Hn]).
      assert (Hk : Timers.clearTimeout h tb1 = tb1).
      { unfold tb1, Timers.setTimeout, Timers.clearTimeout at 1.
        cbn [Timers.pending Timers.next]. rewrite Hclear, filter_cons. cbn [Timers.handle].
        destruct (decide _) as [_ | E]; [reflexivity | simpl in E; lia]. }
      rewrite Hk. exact Hin.
  - specialize (Hnone eq_refl).
    destruct Hshape as [(Hn & He) | [(Hn & He) | [(Hn & He) | [(Hn & He) | (d & c & Hn & He)]]]];
      rewrite He, Hn; unfold timerCleanup; cbn [app fold_left runEffect];
      try (now apply Hsame);
      try (apply timersInOrder_idle; [exact Hnone | rewrite Hn; discriminate]).
    apply timersInOrder_armed; [exact Hnone | exact Hn].
Qed.

Ltac timer_shape Ht :=
  unfold timerShape, timerEffects, clearPending; cbn; rewrite ?Ht; cbn; eauto 12.

Ltac handler_cases H :=
  repeat match type of H with
         | (if ?b then _ else _) = _ => destruct b
         | (_ ≫= _) = Ok _ => apply bind_Ok in H; destruct H as (? & _ & H)
         | match ?o with navigate => _ | add_person => _ | connect => _ end = _ => destruct o
         | match ?o with [] => _ | _ :: _ => _ end = _ => destruct o
         | match ?o with Some _ => _ | None => _ end = _ => destruct o
         end;
  apply Ok_inj in H; injection H as <- <-.

Lemma handler_timerShape props w ev now next s' effs :
  match ev with
  | MouseDown e => handleMouseDown props (node w) e
  | MouseUp => handleMouseUp props (node w)
  | DoubleClick => handleDoubleClick props (node w)
  | DocumentMouseMove e => handleMouseMove props (node w) e
  | DocumentMouseUp => handleGlobalMouseUp (node w)
  | TouchStart _ touches => handleTouchStart props now next (node w) touches
  | TouchMove _ touches => handleTouchMove props now (node w) touches
  | TouchEnd _ changed => handleTouchEnd props hitTest now (node w) changed
  | TimerFires _ _ => Ok (node w, [])
  | EditSubmit => handleEditSubmit (node w)
  | DeleteClick => handleDelete props (node w)
  | Unmount => Ok (initial, [])
  end = Ok (s', effs) ->
  timerShape (longPressTimer (node w)) next (longPressTimer s') (timerEffects effs).
Proof.
  intros H. destruct (longPressTimer (node w)) as [h |] eqn:Ht;
    destruct ev as [e | | | e | | t touches | t touches | t changed | h' t | | | ];
    try (unfold handleMouseDown, handleMouseUp, handleDoubleClick, handleMouseMove,
           handleGlobalMouseUp, handleTouchStart, handleTouchEnd, handleEditSubmit,
           handleDelete in H;
         handler_cases H; timer_shape Ht; fail).
  - unfold handleTouchMove in H. rewrite Ht in H.
    destruct touches as [| touch [| t' ts]]; [handler_cases H; timer_shape Ht | |
                                              handler_cases H; timer_shape Ht].
    destruct (movedTooMuch _ _ _); [destruct (_ && _) |]; handler_cases H; timer_shape Ht.
  - unfold handleTouchEnd in H. rewrite Ht in H.
    destruct changed as [| touch rest];
      [| destruct (hitTest (Touch.clientX touch) (Touch.clientY touch)) as [target |];
         [destruct (negb (String.eqb target (Person.id (person props)))) |]];
      handler_cases H; timer_shape Ht.
  - unfold handleTouchMove in H. rewrite Ht in H.
    destruct touches as [| touch [| t' ts]]; handler_cases H; timer_shape Ht.
  - unfold handleTouchEnd in H. rewrite Ht in H.
    destruct changed as [| touch rest];
      [| destruct (hitTest (Touch.clientX touch) (Touch.clientY touch)) as [target |];
         [destruct (negb (String.eqb target (Person.id (person props)))) |]];
      handler_cases H; timer_shape Ht.
Qed.

Lemma step_timersInOrder props w ev w' effs :
  step props hitTest w ev = Ok (w', effs) -> timersInOrder w -> timersInOrder w'.
Proof.
  intros H Hinv.
  assert (Hs : forall now r,
            match ev with
            | MouseDown e => handleMouseDown props (node w) e
            | MouseUp => handleMouseUp props (node w)
            | DoubleClick => handleDoubleClick props (node w)
            | DocumentMouseMove e => handleMouseMove props (node w) e
            | DocumentMouseUp => handleGlobalMouseUp (node w)
            | TouchStart _ touches =>
              handleTouchStart props now (Timers.next (timers w)) (node w) touches
            | TouchMove _ touches => handleTouchMove props now (node w) touches
            | TouchEnd _ changed => handleTouchEnd props hitTest now (node w) changed
            | TimerFires _ _ => Ok (node w, [])
            | EditSubmit => handleEditSubmit (node w)
            | DeleteClick => handleDelete props (node w)
            | Unmount => Ok (initial, [])
            end = Ok r ->
            timersInOrder (fst (settle now w r))).
  { intros now [s1 es] Hr. apply settle_timersInOrder; [exact Hinv |].
    eapply handler_timerShape, Hr. }
  unfold step in H.
  destruct ev as [e | | | e | | t touches | t touches | t changed | h t | | | ];
    cbv zeta in H;
    try (destruct (isEditing (node w)); [apply Ok_inj in H; now injection H as <- _ |]);
    try (destruct (isDragging (node w) || isConnecting (node w));
         [| apply Ok_inj in H; now injection H as <- _]);
    try (apply bind_Ok in H; destruct H as (r & Hr & H); apply Ok_inj in H;
         injection H as <- _; first [apply (Hs 0%Z r Hr) | apply (Hs t r Hr)]; fail).
  - destruct (Timers.due h t (timers w)) as [e |]; apply Ok_inj in H; injection H as <- _;
      [| exact Hinv].
    destruct Hinv as (H1 & H2 & H3 & H4).
    assert (Hsub : forall x, In x (Timers.pending (Timers.clearTimeout h (timers w))) ->
                             In x (Timers.pending (timers w))).
    { intros x Hx. apply clearTimeout_In in Hx. tauto. }
    assert (Ht : longPressTimer (longPress (Timers.closure e) (node w)) =
                 longPressTimer (node w)) by (destruct (Timers.closure e); reflexivity).
    unfold timersInOrder. cbn [node timers]. rewrite Ht.
    split; [now apply issued_clearTimeout |]. split; [exact H2 |].
    split; [intros x Hx; apply H3, Hsub, Hx |].
    etransitivity; [| exact H4]. unfold Timers.clearTimeout. cbn [Timers.pending].
    apply length_filter.
  - destruct (isEditing (node w)).
    + apply bind_Ok in H; destruct H as (r & Hr & H); apply Ok_inj in H.
      injection H as <- _. apply (Hs 0%Z r Hr).
    + apply Ok_inj in H. now injection H as <- _.
  - destruct (isEditing (node w)).
    + apply bind_Ok in H; destruct H as (r & Hr & H); apply Ok_inj in H.
      injection H as <- _. apply (Hs 0%Z r Hr).
    + apply Ok_inj in H. now injection H as <- _.
  - apply Ok_inj in H. injection H as <- _. apply (Hs 0%Z (initial, []) eq_refl).
Qed.

Lemma run_timersInOrder evs : forall w w' effs,
  run hitTest w evs = Ok (w', effs) -> timersInOrder w -> timersInOrder w'.
Proof.
  induction evs as [| [props ev] evs IH]; simpl; intros w w' effs H Hs.
  - injection H as <- _. exact Hs.
  - apply bind_Ok in H. destruct H as ([w1 e1] & H1 & H).
    apply bind_Ok in H. destruct H as ([w2 e2] & H2 & H). injection H as <- _.
    simpl in *. eapply IH; [exact H2 |]. eapply step_timersInOrder; eassumption.
Qed.

Lemma start_timersInOrder : timersInOrder start.
Proof. apply timersInOrder_idle; [reflexivity | discriminate]. Qed.

(** X12.  Whatever has happened to a node since it was mounted, at most one
    long-press timer is pending, and it is the one whose handle the
    state holds: no timer of an earlier touch is left behind to open
    the editor later. *)
Theorem single_long_press_timer evs w effs :
  run hitTest start evs = Ok (w, effs) ->
  (length (Timers.pending (timers w)) <= 1)%nat /\
  (forall e, In e (Timers.pending (timers w)) ->
             longPressTimer (node w) = Some (Timers.handle e) /\
             (Timers.handle e < Timers.next (timers w))%nat) /\
  (longPressTimer (node w) = None -> Timers.pending (timers w) = []).
Proof.
  intros Hrun.
  assert (Hinv : timersInOrder w)
    by (eapply run_timersInOrder; [exact Hrun | exact start_timersInOrder]).
  pose proof Hinv as (H1 & H2 & H3 & H4).
  split; [exact H4 |]. split.
  - intros e He. split; [now apply H3 | now apply H1].
  - now apply timersInOrder_none.
Qed.

Lemma settle_snd now w s' effs :
  snd (settle now w (s', effs)) = List.filter isCallback effs.
Proof.
  unfold settle. cbn [fst snd]. rewrite List.filter_app.
  unfold timerCleanup. destruct (longPressTimer (node w)) as [h |]; [| apply app_nil_r].
  destruct (decide _); apply app_nil_r.
Qed.

Lemma handleTouchEnd_result props now s changed :
  exists s' es,
    handleTouchEnd props hitTest now s changed = Ok (s', es) /\
    longPressTimer s' = None /\ isDragging s' = false /\ isEditing s' = isEditing s /\
    forall e, In e (List.filter isCallback es) -> e = Select \/ e = ConnectionDragEnd.
Proof.
  unfold handleTouchEnd, clearPending.
  destruct (longPressTimer s) as [h |] eqn:Ht;
    destruct (isDragging s) eqn:Hd;
    [ | destruct (isConnecting s);
        [destruct changed as [| touch rest];
         [| destruct (hitTest (Touch.clientX touch) (Touch.clientY touch)) as [target |];
            [destruct (negb (String.eqb target (Person.id (person props)))) |]]
        | destruct (interactionMode props); [| | destruct (_ <? _)%Z]]
    | | destruct (isConnecting s);
        [destruct changed as [| touch rest];
         [| destruct (hitTest (Touch.clientX touch) (Touch.clientY touch)) as [target |];
            [destruct (negb (String.eqb target (Person.id (person props)))) |]]
        | destruct (interactionMode props); [| | destruct (_ <? _)%Z]] ];
    (do 2 eexists; split; [reflexivity |]; cbn; rewrite ?Ht, ?Hd;
     repeat split; try reflexivity; intros e He; cbn in He; intuition auto).
Qed.

(** X13.  When the finger lifts from a node that is not being edited, no
    timer is left pending: the press is over, the drag is over, and in
    the state reached no timer callback does anything, whenever it is
    run.  A touch shorter than the long-press delay does not start
    editing. *)
Theorem touch_end_disarms evs w effs0 props now changed :
  run hitTest start evs = Ok (w, effs0) ->
  isEditing (node w) = false ->
  exists w' effs,
    step props hitTest w (TouchEnd now changed) = Ok (w', effs) /\
    Timers.pending (timers w') = [] /\
    longPressTimer (node w') = None /\
    isDragging (node w') = false /\
    isEditing (node w') = false /\
    (forall e, In e effs -> e = Select \/ e = ConnectionDragEnd) /\
    forall props' h now', step props' hitTest w' (TimerFires h now') = Ok (w', []).
Proof.
  intros Hrun He.
  assert (Hinv : timersInOrder w)
    by (eapply run_timersInOrder; [exact Hrun | exact start_timersInOrder]).
  destruct (handleTouchEnd_result props now (node w) changed)
    as (s' & es & Hh & Ht & Hd & Hed & Hcb).
  assert (Hstep : step props hitTest w (TouchEnd now changed) = Ok (settle now w (s', es))).
  { unfold step. rewrite He, Hh. reflexivity. }
  assert (Hinv' : timersInOrder (fst (settle now w (s', es))))
    by (eapply step_timersInOrder; [| exact Hinv]; rewrite Hstep;
        now rewrite <- surjective_pairing).
  assert (Hnode : node (fst (settle now w (s', es))) = s') by reflexivity.
  assert (Hp : Timers.pending (timers (fst (settle now w (s', es)))) = [])
    by (apply timersInOrder_none; [exact Hinv' | now rewrite Hnode]).
  exists (fst (settle now w (s', es))), (snd (settle now w (s', es))).
  split; [now rewrite Hstep, <- surjective_pairing |].
  split; [exact Hp |]. rewrite Hnode.
  split; [exact Ht |]. split; [exact Hd |]. split; [now rewrite Hed |].
  split; [rewrite settle_snd; exact Hcb |].
  intros props' h now'. unfold step, Timers.due. now rewrite Hp.
Qed.

Lemma movedTooMuch_from p (a b : Touch.t) :
  (10 < Qabs (Touch.clientX b - Touch.clientX a) \/
   10 < Qabs (Touch.clientY b - Touch.clientY a))%Q ->
  movedTooMuch p (Point.mk (Touch.clientX a - Person.x p) (Touch.clientY a - Person.y p)) b
    = true.
Proof.
  intros H. unfold movedTooMuch, Math_abs, Qltb. cbn [Point.x Point.y].
  apply orb_true_iff.
  assert (Ex : (Touch.clientX b - (Person.x p + (Touch.clientX a - Person.x p)) ==
                Touch.clientX b - Touch.clientX a)%Q) by ring.
  assert (Ey : (Touch.clientY b - (Person.y p + (Touch.clientY a - Person.y p)) ==
                Touch.clientY b - Touch.clientY a)%Q) by ring.
  destruct H as [H | H]; [left | right]; apply negb_true_iff, not_true_iff_false;
    rewrite Qle_bool_iff; [rewrite Ex | rewrite Ey]; lra.
Qed.

(** X14.  A touch drag on the desktop node.  The touch-down selects the
    person; the first move beyond 10px, less than 200ms later, starts
    the drag without moving the person; every move after it asks for
    the position at touch-down plus the finger's displacement since
    touch-down, snapped to the grid. *)
Theorem touch_drag_absolute props props' w t0 t1 t2 (a b c : Touch.t) :
  isEditing (node w) = false ->
  isDragging (node w) = false ->
  isConnecting (node w) = false ->
  dragsNodes (interactionMode props) = true ->
  (t1 - t0 < 200)%Z ->
  (10 < Qabs (Touch.clientX b - Touch.clientX a) \/
   10 < Qabs (Touch.clientY b - Touch.clientY a))%Q ->
  let p := person props in
  let q := Person.moveTo
             (snapToGrid (Person.x p + (Touch.clientX c - Touch.clientX a)))
             (snapToGrid (Person.y p + (Touch.clientY c - Touch.clientY a)))
             (person props') in
  exists w1 w2,
    step props hitTest w (TouchStart t0 [a]) = Ok (w1, [Select]) /\
    step props hitTest w1 (TouchMove t1 [b]) = Ok (w2, []) /\
    isDragging (node w2) = true /\
    longPressTimer (node w2) = None /\
    step props' hitTest w2 (TouchMove t2 [c]) = Ok (w2, [PersonUpdate q]).
Proof.
  intros He Hd Hc Hm Ht Hmove p q.
  set (s1 := setLongPressTimer (Some (Timers.next (timers w)))
               (setDragStart (Point.mk (Touch.clientX a - Person.x p)
                                       (Touch.clientY a - Person.y p))
                             (setTouchStartTime t0 (node w)))).
  set (r1 := (s1, clearPending (node w) ++ [SetTimeout 500 (interactionMode props); Select])).
  assert (H1 : handleTouchStart props t0 (Timers.next (timers w)) (node w) [a] = Ok r1).
  { unfold handleTouchStart. rewrite He.
    destruct (interactionMode props); try reflexivity. discriminate Hm. }
  set (w1 := fst (settle t0 w r1)).
  set (s2 := setIsDragging true (setLongPressTimer None s1)).
  set (r2 := (s2, [ClearTimeout (Timers.next (timers w))])).
  assert (H2 : handleTouchMove props t1 s1 [b] = Ok r2).
  { unfold handleTouchMove.
    replace (longPressTimer s1) with (Some (Timers.next (timers w))) by reflexivity.
    replace (dragStart s1) with (Point.mk (Touch.clientX a - Person.x p)
                                          (Touch.clientY a - Person.y p)) by reflexivity.
    unfold p. rewrite (movedTooMuch_from _ a b Hmove).
    replace (touchStartTime s1) with t0 by reflexivity.
    replace (isDragging s1) with (isDragging (node w)) by reflexivity.
    replace (isConnecting s1) with (isConnecting (node w)) by reflexivity.
    rewrite Hd, Hc, Hm. apply Z.ltb_lt in Ht. rewrite Ht. reflexivity. }
  set (w2 := fst (settle t1 w1 r2)).
  exists w1, w2. split.
  { unfold step. rewrite He, H1. change (mbind ?k (Ok ?a)) with (k a). cbv beta.
    rewrite (surjective_pairing (settle t0 w r1)). unfold r1 at 2. rewrite settle_snd.
    unfold clearPending. destruct (longPressTimer (node w)); reflexivity. }
  split.
  { unfold step. replace (node w1) with s1 by reflexivity.
    replace (isEditing s1) with (isEditing (node w)) by reflexivity.
    rewrite He, H2. change (mbind ?k (Ok ?a)) with (k a). cbv beta.
    rewrite (surjective_pairing (settle t1 w1 r2)). unfold r2 at 2. rewrite settle_snd.
    reflexivity. }
  split; [reflexivity |]. split; [reflexivity |].
  unfold step. replace (node w2) with s2 by reflexivity.
  replace (isEditing s2) with (isEditing (node w)) by reflexivity. rewrite He.
  unfold handleTouchMove.
  replace (longPressTimer s2) with (@None nat) by reflexivity.
  replace (isDragging s2) with true by reflexivity.
  change (mbind ?k (Ok ?a)) with (k a). cbv beta.
  rewrite settle_callbacks by reflexivity. cbn [app].
  unfold dragged, q.
  replace (dragStart s2) with (Point.mk (Touch.clientX a - Person.x p)
                                        (Touch.clientY a - Person.y p)) by reflexivity.
  cbn [Point.x Point.y].
  rewrite (snapToGrid_Qeq (Touch.clientX c - (Touch.clientX a - Person.x p))
             (Person.x p + (Touch.clientX c - Touch.clientX a))) by ring.
  rewrite (snapToGrid_Qeq (Touch.clientY c - (Touch.clientY a - Person.y p))
             (Person.y p + (Touch.clientY c - Touch.clientY a))) by ring.
  unfold w2, settle. reflexivity.
Qed.

(** X15.  Drawing a connection from the desktop node by touch, in connect
    mode.  The touch-down selects the person and starts a line from the
    centre of its box (75 right and 50 below its corner) to the finger,
    in canvas coordinates; every move reports the line from that same
    centre, wherever the person has been put since, to the finger; the
    release calls back the selection of what lies under the finger, if
    anything, and then the end of the line as its last callback, and
    the node stops connecting. *)
Theorem connection_drag_anchored props props' w t0 t1 t2 (a b : Touch.t) changed pa pb :
  isEditing (node w) = false ->
  isDragging (node w) = false ->
  longPressTimer (node w) = None ->
  interactionMode props = connect ->
  screenToCanvasCoords props (Touch.clientX a) (Touch.clientY a) = Ok pa ->
  screenToCanvasCoords props' (Touch.clientX b) (Touch.clientY b) = Ok pb ->
  let c := center (person props) in
  exists w1 w2 effs,
    step props hitTest w (TouchStart t0 [a]) =
      Ok (w1, [ConnectionDrag (Person.id (person props)) c pa; Select]) /\
    isConnecting (node w1) = true /\
    step props' hitTest w1 (TouchMove t1 [b]) =
      Ok (w1, [ConnectionDrag (Person.id (person props')) c pb]) /\
    step props' hitTest w1 (TouchEnd t2 changed) = Ok (w2, effs ++ [ConnectionDragEnd]) /\
    (forall e, In e effs -> e = Select) /\
    isConnecting (node w2) = false /\
    timers w2 = timers w.
Proof.
  intros He Hd Ht Hm Hpa Hpb c.
  set (s1 := setDragStart c (setIsConnecting true (setTouchStartTime t0 (node w)))).
  assert (H1 : handleTouchStart props t0 (Timers.next (timers w)) (node w) [a] =
               Ok (s1, [ConnectionDrag (Person.id (person props)) c pa; Select])).
  { unfold handleTouchStart, clearPending. rewrite He, Hm, Hpa, Ht. reflexivity. }
  set (targeted :=
         match changed with
         | touch :: _ =>
           match hitTest (Touch.clientX touch) (Touch.clientY touch) with
           | Some target =>
             if negb (String.eqb target (Person.id (person props'))) then [Select] else []
           | None => []
           end
         | [] => []
         end).
  exists (mkWorld s1 (timers w)), (mkWorld (setIsConnecting false s1) (timers w)), targeted.
  split.
  { unfold step. rewrite He, H1. change (mbind ?k (Ok ?x)) with (k x). cbv beta.
    rewrite settle_callbacks by reflexivity. reflexivity. }
  split; [reflexivity |]. split.
  { unfold step. cbn [node]. replace (isEditing s1) with (isEditing (node w)) by reflexivity.
    rewrite He. unfold handleTouchMove.
    replace (longPressTimer s1) with (@None nat) by (symmetry; exact Ht).
    replace (isDragging s1) with (isDragging (node w)) by reflexivity. rewrite Hd.
    replace (isConnecting s1) with true by reflexivity. rewrite Hpb.
    repeat (change (mbind ?k (Ok ?x)) with (k x); cbv beta). cbn [app].
    rewrite settle_callbacks; reflexivity. }
  split.
  { unfold step. cbn [node]. replace (isEditing s1) with (isEditing (node w)) by reflexivity.
    rewrite He. unfold handleTouchEnd, clearPending.
    replace (longPressTimer s1) with (@None nat) by (symmetry; exact Ht).
    replace (isDragging s1) with (isDragging (node w)) by reflexivity. rewrite Hd.
    replace (isConnecting s1) with true by reflexivity.
    change (mbind ?k (Ok ?x)) with (k x). cbv beta. fold targeted. cbn [app].
    assert (Hcb : forallb isCallback (targeted ++ [ConnectionDragEnd]) = true).
    { unfold targeted. destruct changed as [| touch rest]; [reflexivity |].
      destruct (hitTest _ _); [| reflexivity]. destruct (negb _); reflexivity. }
    rewrite settle_callbacks; [reflexivity | reflexivity | exact Hcb]. }
  split.
  { unfold targeted. intros e Hin. destruct changed as [| touch rest]; [destruct Hin |].
    destruct (hitTest _ _); [| destruct Hin].
    destruct (negb _); [| destruct Hin]. destruct Hin as [<- | []]. reflexivity. }
  split; reflexivity.
Qed.

End DesktopNodeGestures.

(** ** More on the mobile application *)

Section MobileApplication.
Import Mobile.
Variable Math_sqrt : Q -> Q.
Variable rect : DOMRect.t.

Lemma handlePersonSelect_total snap now pid a person :
  findPerson pid (App.familyTree snap) = Some person ->
  exists a', App.handlePersonSelect snap now pid a = Ok a' /\ App.scale a' = App.scale a.
Proof.
  intros Hf. unfold App.handlePersonSelect. unfold findPerson in Hf.
  destruct (App.mode snap); try (eexists; split; reflexivity).
  destruct (App.connectionStart snap) as [draft |].
  - destruct (negb _); eexists; split; reflexivity.
  - rewrite Hf. eexists; split; reflexivity.
Qed.

Lemma runNodeEffects_total snap now owner pid person es : forall a tb,
  findPerson pid (App.familyTree snap) = Some person ->
  selectsOnly pid es ->
  exists a' tb',
    runNodeEffects snap now owner (a, tb) es = Ok (a', tb') /\ App.scale a' = App.scale a.
Proof.
  induction es as [| e es IH]; intros a tb Hf Hsel; [simpl; eauto |].
  assert (Hes : selectsOnly pid es) by (intros x Hx; apply Hsel; now right).
  specialize (Hsel e (or_introl eq_refl)).
  assert (H1 : exists a1 tb1, runNodeEffect snap now owner (a, tb) e = Ok (a1, tb1) /\
                              App.scale a1 = App.scale a).
  { destruct e as [q | i | i | i x y | d | h]; simpl; try (do 2 eexists; split; reflexivity).
    - subst i. destruct (handlePersonSelect_total snap now pid a person Hf) as (a' & -> & Hs).
      do 2 eexists. split; [reflexivity | exact Hs].
    - unfold App.handleConnectionStart. destruct (App.mode snap);
        do 2 eexists; split; reflexivity. }
  destruct H1 as (a1 & tb1 & H1 & Hs1).
  destruct (IH a1 tb1 Hf Hes) as (a' & tb' & H2 & Hs2).
  exists a', tb'. cbn [runNodeEffects]. rewrite H1.
  change (mbind ?k (Ok ?x)) with (k x). cbv beta. split; [exact H2 | congruence].
Qed.

Lemma runCanvasEffects_scale snap es : forall a,
  App.scale (fold_left (runCanvasEffect snap) es a) = App.scale a.
Proof.
  induction es as [| e es IH]; simpl; intros a; [reflexivity |].
  rewrite IH. destruct e; simpl; [| reflexivity].
  unfold App.handleCanvasTouch.
  destruct (App.mode snap); try reflexivity; destruct (App.connectionStart snap); reflexivity.
Qed.

Lemma toCanvas_total props touch :
  Canvas.scale props = 1%Q -> exists w, Canvas.toCanvas props touch = Ok w.
Proof. intros Hs. unfold Canvas.toCanvas, fdiv. rewrite Hs. simpl. eauto. Qed.

Lemma canvas_handleTouchStart_total props now cs touches target :
  Canvas.scale props = 1%Q ->
  exists c, Canvas.handleTouchStart Math_sqrt props now cs touches target = Ok c.
Proof.
  intros Hs. unfold Canvas.handleTouchStart.
  destruct (Canvas.onPersonNode target); [eauto |].
  destruct touches as [| t1 [| t2 [| t3 ts]]]; simpl; eauto.
  destruct (_ && _).
  - destruct (toCanvas_total props t1 Hs) as (w & ->). simpl. eauto.
  - destruct (Canvas.pans _); eauto.
Qed.

Lemma canvas_handleTouchEnd_total props now cs touches changed target :
  Canvas.scale props = 1%Q ->
  exists c, Canvas.handleTouchEnd props now cs touches changed target = Ok c.
Proof.
  intros Hs. unfold Canvas.handleTouchEnd. destruct touches; [| eauto].
  destruct (_ && _); [| eauto]. destruct (Canvas.onCanvas target); [| eauto].
  destruct (toCanvas_total props changed Hs) as (w & ->). simpl. eauto.
Qed.

Lemma node_handlers_select props fresh ns touch :
  selectsOnly (Person.id (Node.person props)) (snd (Node.handleTouchStart props fresh ns touch)) /\
  selectsOnly (Person.id (Node.person props)) (snd (Node.handleTouchMove props ns touch)) /\
  selectsOnly (Person.id (Node.person props)) (snd (Node.handleTouchEnd ns)).
Proof.
  unfold selectsOnly, Node.handleTouchStart, Node.handleTouchMove, Node.handleTouchEnd,
    Node.clearPending.
  split; [| split].
  - destruct (Node.isEditing ns); [intros e [] |].
    destruct (Node.connectionMode props); destruct (Node.longPressTimer ns); simpl;
      intros e He; intuition (subst; auto).
  - destruct (_ || _); [intros e [] |].
    destruct (Node.longPressTimer ns); [destruct (Node.movedTooMuch _ _ _) | ];
      destruct (Node.isDragging ns); simpl; intros e He; intuition (subst; auto).
  - destruct (Node.longPressTimer ns); simpl; intros e He; intuition (subst; auto).
Qed.

Lemma onNodeEvent_total sys id now nh ch :
  App.scale (app sys) = 1%Q ->
  (forall person, findPerson id (App.familyTree (app sys)) = Some person ->
     selectsOnly id (snd (nh (nodeProps (app sys) person) (nodeState sys id)))) ->
  (exists c, ch (canvasProps rect (app sys)) (canvas sys) = Ok c) ->
  exists sys', onNodeEvent rect sys id now nh ch = Ok sys' /\ App.scale (app sys') = 1%Q.
Proof.
  intros Hs Hsel (c & Hc). unfold onNodeEvent.
  destruct (findPerson id _) as [person |] eqn:Hf; [| eauto].
  destruct (Node.isEditing _); [eauto |].
  specialize (Hsel person eq_refl).
  destruct (nh _ _) as [ns' es]. cbn [snd] in Hsel.
  destruct (runNodeEffects_total (app sys) now id id person es (app sys) (timers sys) Hf Hsel)
    as (a' & tb' & -> & Hs').
  change (mbind ?k (Ok ?x)) with (k x). cbv beta. rewrite Hc.
  change (mbind ?k (Ok ?x)) with (k x). cbv beta.
  eexists. split; [reflexivity |]. cbn [app fst snd].
  rewrite runCanvasEffects_scale. congruence.
Qed.

Lemma onEditorEvent_total sys id h :
  App.scale (app sys) = 1%Q ->
  (forall props ns, selectsOnly id (snd (h props ns))) ->
  exists sys', onEditorEvent sys id h = Ok sys' /\ App.scale (app sys') = 1%Q.
Proof.
  intros Hs Hsel. unfold onEditorEvent.
  destruct (findPerson id _) as [person |] eqn:Hf; [| eauto].
  destruct (Node.isEditing _); [| eauto].
  specialize (Hsel (nodeProps (app sys) person) (nodeState sys id)).
  destruct (h _ _) as [ns' es]. cbn [snd] in Hsel.
  destruct (runNodeEffects_total (app sys) 0 id id person es (app sys) (timers sys) Hf Hsel)
    as (a' & tb' & -> & Hs').
  change (mbind ?k (Ok ?x)) with (k x). cbv beta.
  eexists. split; [reflexivity |]. cbn [app fst]. congruence.
Qed.

Lemma onCanvasEvent_total sys r :
  App.scale (app sys) = 1%Q -> (exists c, r = Ok c) ->
  exists sys', onCanvasEvent sys r = Ok sys' /\ App.scale (app sys') = 1%Q.
Proof.
  intros Hs (c & ->). unfold onCanvasEvent.
  change (mbind ?k (Ok ?x)) with (k x). cbv beta.
  eexists. split; [reflexivity |]. cbn [app]. now rewrite runCanvasEffects_scale.
Qed.

Lemma system_step_total sys ev :
  App.scale (app sys) = 1%Q ->
  exists sys', step Math_sqrt rect sys ev = Ok sys' /\ App.scale (app sys') = 1%Q.
Proof.
  intros Hs.
  destruct ev as [id now touch others | id now touch others | id now rest changed
                 | h now | id d | id | id
                 | now touches target | touches | now rest changed target
                 | m | ty | now d | | id | tree | | v]; cbn [step].
  - apply onNodeEvent_total; [exact Hs | |
      apply canvas_handleTouchStart_total; exact Hs].
    intros person Hf. rewrite <- (findPerson_id _ _ _ Hf) at 1.
    apply (node_handlers_select (nodeProps (app sys) person)).
  - apply onNodeEvent_total; [exact Hs | | apply canvas_handleTouchMove_total].
    intros person Hf. rewrite <- (findPerson_id _ _ _ Hf) at 1.
    apply (node_handlers_select (nodeProps (app sys) person) 0%nat).
  - apply onNodeEvent_total; [exact Hs | | apply canvas_handleTouchEnd_total; exact Hs].
    intros person Hf. rewrite <- (findPerson_id _ _ _ Hf) at 1.
    apply (node_handlers_select (nodeProps (app sys) person) 0%nat _ changed).
  - destruct (Timers.due _ _ _); eauto.
  - apply onEditorEvent_total; [exact Hs |]. intros props ns e [<- | []]. exact I.
  - apply onEditorEvent_total; [exact Hs |]. intros props ns e [].
  - apply onEditorEvent_total; [exact Hs |]. intros props ns e [<- | []]. exact I.
  - apply onCanvasEvent_total; [exact Hs | apply canvas_handleTouchStart_total; exact Hs].
  - apply onCanvasEvent_total; [exact Hs | apply canvas_handleTouchMove_total].
  - apply onCanvasEvent_total; [exact Hs | apply canvas_handleTouchEnd_total; exact Hs].
  - eexists; split; [reflexivity | exact Hs].
  - eexists; split; [reflexivity | exact Hs].
  - destruct (App.showAddForm _); eexists; (split; [reflexivity | exact Hs]).
  - eexists; split; [reflexivity | exact Hs].
  - eexists; split; [reflexivity | exact Hs].
  - eexists; split; reflexivity.
  - eexists; split; reflexivity.
  - eexists; split; [reflexivity | exact Hs].
Qed.

(** X16.  The mobile application never faults and never zooms.  Whatever
    tree was saved and whatever events arrive, every handler returns:
    no coordinate is the result of a division by zero and no person is
    read that is not listed; and the scale stays 1, the two-finger
    gesture being a placeholder. *)
Theorem mobile_never_faults saved evs :
  exists sys, run Math_sqrt rect (start saved) evs = Ok sys /\ App.scale (app sys) = 1%Q.
Proof.
  assert (H : forall sys0, App.scale (app sys0) = 1%Q ->
            exists sys, run Math_sqrt rect sys0 evs = Ok sys /\ App.scale (app sys) = 1%Q).
  { induction evs as [| ev evs IH]; intros sys0 Hs; [simpl; eauto |].
    destruct (system_step_total sys0 ev Hs) as (sys1 & H1 & Hs1).
    destruct (IH sys1 Hs1) as (sys2 & H2 & Hs2).
    exists sys2. cbn [run]. rewrite H1. split; [exact H2 | exact Hs2]. }
  apply H. reflexivity.
Qed.

(** *** Which events change the settings *)

Lemma handlePersonSelect_settings snap now pid a a' :
  App.handlePersonSelect snap now pid a = Ok a' ->
  App.mode a' = App.mode a /\ App.connectionType a' = App.connectionType a /\
  App.offset a' = App.offset a /\ App.showAddForm a' = App.showAddForm a /\
  App.addPosition a' = App.addPosition a.
Proof.
  unfold App.handlePersonSelect. intros H.
  apply bind_Ok in H. destruct H as (s1 & H1 & H2). injection H2 as <-.
  destruct (App.mode snap); try (injection H1 as <-; repeat split; reflexivity).
  destruct (App.connectionStart snap) as [draft |].
  - destruct (negb _); injection H1 as <-; repeat split; reflexivity.
  - destruct (List.find _ _); [injection H1 as <-; repeat split; reflexivity | discriminate].
Qed.

Lemma runNodeEffects_settings snap now owner es : forall a tb a' tb',
  runNodeEffects snap now owner (a, tb) es = Ok (a', tb') ->
  App.mode a' = App.mode a /\ App.connectionType a' = App.connectionType a /\
  App.offset a' = App.offset a /\ App.showAddForm a' = App.showAddForm a /\
  App.addPosition a' = App.addPosition a.
Proof.
  induction es as [| e es IH]; simpl; intros a tb a' tb' H.
  - injection H as <- <-. repeat split; reflexivity.
  - apply bind_Ok in H. destruct H as ([a1 tb1] & H1 & H2).
    apply IH in H2. destruct H2 as (E1 & E2 & E3 & E4 & E5).
    rewrite E1, E2, E3, E4, E5. clear IH E1 E2 E3 E4 E5.
    destruct e as [q | i | i | i x y | d | h]; simpl in H1;
      try (injection H1 as <- <-; repeat split; reflexivity).
    + apply bind_Ok in H1. destruct H1 as (a2 & H1 & H3). injection H3 as <- <-.
      now apply handlePersonSelect_settings in H1.
    + injection H1 as <- <-. unfold App.handleConnectionStart.
      destruct (App.mode snap); repeat split; reflexivity.
Qed.

Lemma runCanvasEffects_settings snap es : forall a,
  App.mode (fold_left (runCanvasEffect snap) es a) = App.mode a /\
  App.connectionType (fold_left (runCanvasEffect snap) es a) = App.connectionType a.
Proof.
  induction es as [| e es IH]; simpl; intros a; [split; reflexivity |].
  destruct (IH (runCanvasEffect snap a e)) as (-> & ->).
  destruct e; simpl; [| split; reflexivity].
  unfold App.handleCanvasTouch.
  destruct (App.mode snap); try (split; reflexivity);
    destruct (App.connectionStart snap); split; reflexivity.
Qed.

Lemma system_step_mode sys ev sys' :
  step Math_sqrt rect sys ev = Ok sys' ->
  (forall m, ev <> SetMode m) -> App.mode (app sys') = App.mode (app sys).
Proof.
  intros H Hne.
  assert (Hnode : forall id now nh ch,
            onNodeEvent rect sys id now nh ch = Ok sys' ->
            App.mode (app sys') = App.mode (app sys)).
  { intros id now nh ch Hn. unfold onNodeEvent in Hn.
    destruct (findPerson id _); [| now injection Hn as <-].
    destruct (Node.isEditing _); [now injection Hn as <- |].
    destruct (nh _ _) as [ns' effs].
    apply bind_Ok in Hn. destruct Hn as ([a1 tb1] & H1 & Hn).
    apply bind_Ok in Hn. destruct Hn as (c & H2 & Hn). injection Hn as <-. cbn [app fst].
    apply runNodeEffects_settings in H1.
    rewrite (proj1 (runCanvasEffects_settings _ _ _)). tauto. }
  assert (Heditor : forall id h, onEditorEvent sys id h = Ok sys' ->
            App.mode (app sys') = App.mode (app sys)).
  { intros id h Hn. unfold onEditorEvent in Hn.
    destruct (findPerson id _); [| now injection Hn as <-].
    destruct (Node.isEditing _); [| now injection Hn as <-].
    destruct (h _ _) as [ns' effs].
    apply bind_Ok in Hn. destruct Hn as ([a1 tb1] & H1 & Hn). injection Hn as <-. cbn [app fst].
    apply runNodeEffects_settings in H1. tauto. }
  assert (Hcanvas : forall r, onCanvasEvent sys r = Ok sys' ->
            App.mode (app sys') = App.mode (app sys)).
  { intros r Hn. unfold onCanvasEvent in Hn.
    apply bind_Ok in Hn. destruct Hn as (c & _ & Hn). injection Hn as <-. cbn [app].
    apply runCanvasEffects_settings. }
  destruct ev as [id now touch others | id now touch others | id now rest changed
                 | h now | id d | id | id
                 | now touches target | touches | now rest changed target
                 | m | ty | now d | | id | tree | | v]; simpl in H;
    try (eapply Hnode, H); try (eapply Heditor, H); try (eapply Hcanvas, H);
    try (now injection H as <-).
  - destruct (Timers.due _ _ _); now injection H as <-.
  - now destruct (Hne m).
  - clear Hnode Heditor Hcanvas. destruct (App.showAddForm _); now injection H as <-.
Qed.

(** *** Dragging a person with the finger *)

Lemma Math_max_0_Qeq v w : (v == w)%Q -> (Math_max 0 v == Math_max 0 w)%Q.
Proof.
  intros E. unfold Math_max.
  destruct (Qle_bool 0 v) eqn:Hv; destruct (Qle_bool 0 w) eqn:Hw; try reflexivity;
    try exact E.
  - apply Qle_bool_iff in Hv. apply not_true_iff_false in Hw. rewrite Qle_bool_iff in Hw. lra.
  - apply Qle_bool_iff in Hw. apply not_true_iff_false in Hv. rewrite Qle_bool_iff in Hv. lra.
Qed.

Lemma snapToGrid_max_nonneg v : (0 <= snapToGrid (Math_max 0 v))%Q.
Proof.
  assert (Hm : (0 <= Math_max 0 v)%Q).
  { unfold Math_max. destruct (Qle_bool 0 v) eqn:Hv; [now apply Qle_bool_iff | lra]. }
  unfold snapToGrid, Math_round. set (u := Math_max 0 v) in *.
  assert (Hf : (0 <= Qfloor (u / 20 + (1 # 2)))%Z).
  { change 0%Z with (Qfloor 0). apply Qfloor_resp_le.
    assert (0 <= u / 20)%Q by (apply Qle_shift_div_l; lra). lra. }
  assert (Hq : (0 <= inject_Z (Qfloor (u / 20 + (1 # 2))))%Q)
    by (change 0%Q with (inject_Z 0); now rewrite <- Zle_Qle).
  nra.
Qed.

Lemma mobile_movedTooMuch_from p (a b : Touch.t) :
  (10 < Qabs (Touch.clientX b - Touch.clientX a) \/
   10 < Qabs (Touch.clientY b - Touch.clientY a))%Q ->
  Node.movedTooMuch p (Point.mk (Touch.clientX a - Person.x p) (Touch.clientY a - Person.y p)) b
    = true.
Proof.
  intros H. unfold Node.movedTooMuch, Math_abs, Qltb. cbn [Point.x Point.y].
  apply orb_true_iff.
  assert (Ex : (Touch.clientX b - (Person.x p + (Touch.clientX a - Person.x p)) ==
                Touch.clientX b - Touch.clientX a)%Q) by ring.
  assert (Ey : (Touch.clientY b - (Person.y p + (Touch.clientY a - Person.y p)) ==
                Touch.clientY b - Touch.clientY a)%Q) by ring.
  destruct H as [H | H]; [left | right]; apply negb_true_iff, not_true_iff_false;
    rewrite Qle_bool_iff; [rewrite Ex | rewrite Ey]; lra.
Qed.

(** A move of the finger on a node that is being dragged. *)
Lemma mobile_drag_step sys id person now touch others :
  findPerson id (App.familyTree (app sys)) = Some person ->
  App.mode (app sys) <> connect ->
  Node.isEditing (nodeState sys id) = false ->
  Node.isDragging (nodeState sys id) = true ->
  Node.longPressTimer (nodeState sys id) = None ->
  exists sys',
    step Math_sqrt rect sys (NodeTouchMove id now touch others) = Ok sys' /\
    App.familyTree (app sys') =
      App.familyTree
        (App.updatePerson (Node.dragged (nodeProps (app sys) person) (nodeState sys id) touch)
                          (app sys)) /\
    nodeState sys' id = nodeState sys id /\
    timers sys' = timers sys.
Proof.
  intros Hf Hmode He Hd Ht. apply mode_eqb_connect in Hmode.
  destruct (canvas_handleTouchMove_total (canvasProps rect (app sys)) (canvas sys)
              (touch :: others)) as (c & Hc).
  unfold step, onNodeEvent. rewrite Hf, He.
  unfold Node.handleTouchMove. cbn [nodeProps Node.connectionMode].
  rewrite He, Hmode, Ht, Hd. cbn [orb app runNodeEffects runNodeEffect].
  change (mbind ?k (Ok ?a)) with (k a). cbv beta.
  rewrite Hc. change (mbind ?k (Ok ?a)) with (k a). cbv beta. cbn [fst snd].
  eexists. split; [reflexivity |]. cbn [app timers].
  assert (Htree : forall a, App.familyTree (fold_left (runCanvasEffect (app sys)) c.2 a)
                            = App.familyTree a) by apply runCanvasEffects_tree.
  split; [apply Htree |]. split; [| reflexivity].
  apply nodeState_mounted. rewrite Htree.
  erewrite isMounted_same_ids; [eapply findPerson_mounted, Hf |].
  unfold App.updatePerson. cbn [App.familyTree App.setFamilyTree FamilyTree.people].
  apply updatePerson_ids.
Qed.

(** X17.  A touch drag on the mobile node, outside connect mode.  The
    touch-down arms the long press; the first move beyond 10px, however
    late, starts the drag without moving the person; the next move
    stores the person at the position at touch-down plus the finger's
    displacement since, kept at or above 0 in both axes and snapped to
    the grid.  Nobody else and no relationship changes, and in the
    state reached the timer armed at touch-down does nothing when its
    time comes. *)
Theorem mobile_touch_drag sys id person t0 t1 t2 (a b c : Touch.t) :
  issued (timers sys) ->
  findPerson id (App.familyTree (app sys)) = Some person ->
  App.mode (app sys) <> connect ->
  Node.isEditing (nodeState sys id) = false ->
  Node.isDragging (nodeState sys id) = false ->
  Node.longPressTimer (nodeState sys id) = None ->
  (10 < Qabs (Touch.clientX b - Touch.clientX a) \/
   10 < Qabs (Touch.clientY b - Touch.clientY a))%Q ->
  let q := Person.moveTo
             (snapToGrid (Math_max 0 (Person.x person + (Touch.clientX c - Touch.clientX a))))
             (snapToGrid (Math_max 0 (Person.y person + (Touch.clientY c - Touch.clientY a))))
             person in
  exists sys',
    run Math_sqrt rect sys
      [NodeTouchStart id t0 a []; NodeTouchMove id t1 b []; NodeTouchMove id t2 c []]
      = Ok sys' /\
    FamilyTree.people (App.familyTree (app sys')) =
      map (replaceById q) (FamilyTree.people (App.familyTree (app sys))) /\
    FamilyTree.relationships (App.familyTree (app sys')) =
      FamilyTree.relationships (App.familyTree (app sys)) /\
    findPerson id (App.familyTree (app sys')) = Some q /\
    (0 <= Person.x q)%Q /\ (0 <= Person.y q)%Q /\
    Node.isDragging (nodeState sys' id) = true /\
    Node.isEditing (nodeState sys' id) = false /\
    forall now, step Math_sqrt rect sys' (TimerFires (Timers.next (timers sys)) now) = Ok sys'.
Proof.
  intros Hi Hf Hmode He Hd Ht Hmove q.
  pose proof (findPerson_mounted _ _ _ Hf) as Hmounted.
  pose proof (findPerson_id _ _ _ Hf) as Hid.
  pose proof (mobile_touch_start_arms Math_sqrt rect sys id person t0 a [] Hf Hmode He Ht) as H1.
  cbv zeta in H1.
  set (h := Timers.next (timers sys)) in *.
  set (ns1 := Node.setLongPressTimer (Some h)
                (Node.setDragStart (Point.mk (Touch.clientX a - Person.x person)
                                             (Touch.clientY a - Person.y person))
                                   (nodeState sys id))) in *.
  set (sys1 := mkSystem (App.setSelectedPersonId (Some id) (app sys))
                 (Canvas.setTouchStartTime t0 (canvas sys))
                 (unmountGone (App.familyTree (app sys)) (<[id := ns1]> (nodes sys)))
                 (Timers.setTimeout t0 600 id (timers sys))) in *.
  assert (Hns1 : nodeState sys1 id = ns1)
    by exact (nodeState_mounted (App.setSelectedPersonId (Some id) (app sys)) _ _ _ id ns1
                Hmounted).
  destruct (mobile_move_cancels Math_sqrt rect sys1 id person t1 b [] h)
    as (sys2 & H2 & Hns2 & Htree2 & Hspent2 & Hlater).
  { now apply issued_setTimeout. }
  { exact Hf. }
  { exact Hmode. }
  { now rewrite Hns1. }
  { now rewrite Hns1. }
  { now rewrite Hns1. }
  { unfold sys1, Timers.isPending, Timers.setTimeout. cbn. now rewrite Nat.eqb_refl. }
  { rewrite Hns1. apply mobile_movedTooMuch_from. exact Hmove. }
  rewrite Hns1 in Hns2.
  assert (Hmode2 : App.mode (app sys2) <> connect).
  { rewrite (system_step_mode sys1 _ sys2 H2) by discriminate. exact Hmode. }
  assert (Hf2 : findPerson id (App.familyTree (app sys2)) = Some person)
    by (rewrite Htree2; exact Hf).
  destruct (mobile_drag_step sys2 id person t2 c [] Hf2 Hmode2)
    as (sys3 & H3 & Htree3 & Hns3 & Htimers3); try (rewrite Hns2; reflexivity).
  { rewrite Hns2. exact He. }
  assert (Hq : Node.dragged (nodeProps (app sys2) person) (nodeState sys2 id) c = q).
  { rewrite Hns2. unfold Node.dragged, q. cbn.
    rewrite (snapToGrid_Qeq
               (Math_max 0 (Touch.clientX c - (Touch.clientX a - Person.x person)))
               (Math_max 0 (Person.x person + (Touch.clientX c - Touch.clientX a))))
      by (apply Math_max_0_Qeq; ring).
    rewrite (snapToGrid_Qeq
               (Math_max 0 (Touch.clientY c - (Touch.clientY a - Person.y person)))
               (Math_max 0 (Person.y person + (Touch.clientY c - Touch.clientY a))))
      by (apply Math_max_0_Qeq; ring).
    reflexivity. }
  rewrite Hq in Htree3.
  exists sys3. split.
  { rewrite run_cons, H1. change (mbind ?k (Ok ?x)) with (k x). cbv beta.
    rewrite run_cons, H2. change (mbind ?k (Ok ?x)) with (k x). cbv beta.
    rewrite run_cons, H3. reflexivity. }
  rewrite Htree3, Hns3, Hns2. unfold App.updatePerson.
  cbn [App.familyTree App.setFamilyTree FamilyTree.people FamilyTree.relationships].
  rewrite Htree2.
  change (fun p0 => if String.eqb (Person.id p0) (Person.id q) then q else p0)
    with (replaceById q).
  split; [reflexivity |]. split; [reflexivity |]. split.
  { unfold findPerson. cbn [FamilyTree.people].
    replace id with (Person.id q) by exact Hid.
    apply updatePerson_find. apply isMounted_ids.
    replace (Person.id q) with id by (symmetry; exact Hid). exact Hmounted. }
  split; [apply snapToGrid_max_nonneg |]. split; [apply snapToGrid_max_nonneg |].
  split; [reflexivity |]. split; [exact He |].
  intros now. apply system_spent_never_fires. rewrite Htimers3. exact Hspent2.
Qed.

(** *** Connecting two people *)

Lemma runNodeEffects_clearPending snap now owner a tb ns es :
  runNodeEffects snap now owner (a, tb) (Node.clearPending ns ++ es) =
  runNodeEffects snap now owner
    (a, match Node.longPressTimer ns with
        | Some h => Timers.clearTimeout h tb
        | None => tb
        end) es.
Proof. unfold Node.clearPending. destruct (Node.longPressTimer ns); reflexivity. Qed.

Lemma nodeState_after a c (ns : gmap string Node.State) tb id n id' sys :
  nodes sys = ns ->
  isMounted id' (App.familyTree a) = true ->
  nodeState (mkSystem a c (unmountGone (App.familyTree a) (<[id := n]> ns)) tb) id' =
    if decide (id = id') then n else nodeState sys id'.
Proof.
  intros Hn Hm. unfold nodeState. cbn [nodes]. rewrite unmountGone_lookup by exact Hm.
  destruct (decide (id = id')) as [-> | Hne].
  - now rewrite lookup_insert_eq.
  - rewrite lookup_insert_ne by exact Hne. now rewrite Hn.
Qed.

(** A touch-down on a node in connect mode. *)
Lemma connect_press sys id person now touch others :
  App.mode (app sys) = connect ->
  findPerson id (App.familyTree (app sys)) = Some person ->
  Node.isEditing (nodeState sys id) = false ->
  let draft := App.mkDraft id (Person.x person + 60) (Person.y person + 30) in
  let rels := FamilyTree.relationships (App.familyTree (app sys)) in
  exists sys',
    step Math_sqrt rect sys (NodeTouchStart id now touch others) = Ok sys' /\
    App.mode (app sys') = connect /\
    App.connectionType (app sys') = App.connectionType (app sys) /\
    App.scale (app sys') = App.scale (app sys) /\
    App.selectedPersonId (app sys') = Some id /\
    FamilyTree.people (App.familyTree (app sys')) =
      FamilyTree.people (App.familyTree (app sys)) /\
    (App.connectionStart (app sys'), FamilyTree.relationships (App.familyTree (app sys'))) =
      match App.connectionStart (app sys) with
      | Some d =>
        if negb (String.eqb (App.personId d) id)
        then (None, rels ++ [Relationship.mk (App.freshId now) (App.connectionType (app sys))
                                             (App.personId d) id])
        else (Some draft, rels)
      | None => (Some draft, rels)
      end /\
    canvas sys' = Canvas.setTouchStartTime now (canvas sys) /\
    forall id', isMounted id' (App.familyTree (app sys)) = true ->
                nodeState sys' id' = nodeState sys id'.
Proof.
  intros Hmode Hf He draft rels.
  pose proof (findPerson_id _ _ _ Hf) as Hid.
  unfold step, onNodeEvent. rewrite Hf, He. unfold Node.handleTouchStart. rewrite He.
  cbn [nodeProps Node.connectionMode Node.person]. rewrite Hmode. cbn [InteractionMode_eqb].
  rewrite runNodeEffects_clearPending. cbn [runNodeEffects runNodeEffect].
  unfold App.handleConnectionStart. rewrite Hmode.
  change (mbind ?k (Ok ?a)) with (k a). cbv beta.
  cbn [runNodeEffects runNodeEffect].
  unfold App.handlePersonSelect. rewrite Hmode, Hid.
  assert (Hnodes : forall a c tb id',
            isMounted id' (App.familyTree (app sys)) = true ->
            App.familyTree a = App.familyTree (app sys) \/
            FamilyTree.people (App.familyTree a) = FamilyTree.people (App.familyTree (app sys)) ->
            nodeState (mkSystem a c (unmountGone (App.familyTree a)
                                       (<[id := nodeState sys id]> (nodes sys))) tb) id' =
            nodeState sys id').
  { intros a c tb id' Hm Ha.
    rewrite (nodeState_after a c (nodes sys) tb id (nodeState sys id) id' sys eq_refl).
    - destruct (decide (id = id')) as [-> |]; reflexivity.
    - erewrite isMounted_same_ids; [exact Hm |]. destruct Ha as [-> | ->]; reflexivity. }
  destruct (App.connectionStart (app sys)) as [d |] eqn:Hd.
  - destruct (negb (String.eqb (App.personId d) id)) eqn:Hneq;
      repeat (change (mbind ?k (Ok ?a)) with (k a); cbv beta);
      rewrite canvas_handleTouchStart_onNode;
      repeat (change (mbind ?k (Ok ?a)) with (k a); cbv beta);
      (eexists; split; [reflexivity |]); cbn [app canvas fst snd fold_left];
      (repeat split; try reflexivity; try exact Hmode);
      intros id' Hm; apply Hnodes; [exact Hm | right; reflexivity | exact Hm | left; reflexivity].
  - unfold findPerson in Hf. rewrite Hf.
    repeat (change (mbind ?k (Ok ?a)) with (k a); cbv beta).
    rewrite canvas_handleTouchStart_onNode.
    repeat (change (mbind ?k (Ok ?a)) with (k a); cbv beta).
    eexists. split; [reflexivity |]. cbn [app canvas fst snd fold_left].
    repeat split; try reflexivity; try exact Hmode.
    intros id' Hm. apply Hnodes; [exact Hm | left; reflexivity].
Qed.

(** The release of a touch on a node in connect mode: the canvas sees
    it too, and takes a release within 200ms of the touch-down for a
    tap that cancels the draft. *)
Lemma connect_release sys id person now changed :
  App.mode (app sys) = connect ->
  findPerson id (App.familyTree (app sys)) = Some person ->
  Node.isEditing (nodeState sys id) = false ->
  ~ (App.scale (app sys) == 0)%Q ->
  Canvas.isPanning (canvas sys) = false ->
  exists sys',
    step Math_sqrt rect sys (NodeTouchEnd id now [] changed) = Ok sys' /\
    App.mode (app sys') = connect /\
    App.connectionType (app sys') = App.connectionType (app sys) /\
    App.scale (app sys') = App.scale (app sys) /\
    App.familyTree (app sys') = App.familyTree (app sys) /\
    App.connectionStart (app sys') =
      (if (now - Canvas.touchStartTime (canvas sys) <? 200)%Z then None
       else App.connectionStart (app sys)) /\
    Canvas.isPanning (canvas sys') = false /\
    forall id', isMounted id' (App.familyTree (app sys)) = true ->
                Node.isEditing (nodeState sys' id') = Node.isEditing (nodeState sys id').
Proof.
  intros Hmode Hf He Hs Hp.
  unfold step, onNodeEvent. rewrite Hf, He. unfold Node.handleTouchEnd.
  rewrite <- (app_nil_r (Node.clearPending _)), runNodeEffects_clearPending.
  cbn [runNodeEffects]. change (mbind ?k (Ok ?a)) with (k a). cbv beta.
  unfold Canvas.handleTouchEnd. cbn [canvasProps Canvas.mode onNode Canvas.onCanvas].
  rewrite Hmode, Hp. cbn [InteractionMode_eqb negb andb].
  assert (Hnodes : forall a c tb n id',
            Node.isEditing n = Node.isEditing (nodeState sys id) ->
            isMounted id' (App.familyTree (app sys)) = true ->
            App.familyTree a = App.familyTree (app sys) ->
            Node.isEditing (nodeState (mkSystem a c (unmountGone (App.familyTree a)
                                       (<[id := n]> (nodes sys))) tb) id') =
            Node.isEditing (nodeState sys id')).
  { intros a c tb n id' Hn Hm Ha.
    rewrite (nodeState_after a c (nodes sys) tb id n id' sys eq_refl).
    - destruct (decide (id = id')) as [<- |]; [exact Hn | reflexivity].
    - now rewrite Ha. }
  assert (Hed : Node.isEditing
                  (Node.setIsDragging false
                     match Node.longPressTimer (nodeState sys id) with
                     | Some _ => Node.setLongPressTimer None (nodeState sys id)
                     | None => nodeState sys id
                     end) = Node.isEditing (nodeState sys id))
    by (destruct (Node.longPressTimer (nodeState sys id)); reflexivity).
  destruct (now - Canvas.touchStartTime (canvas sys) <? 200)%Z; cbn [andb].
  - unfold Canvas.toCanvas. cbn [Canvas.scale Canvas.offset Canvas.rect].
    rewrite !fdiv_ok by exact Hs.
    repeat (change (mbind ?k (Ok ?a)) with (k a); cbv beta).
    eexists. split; [reflexivity |]. cbn [app canvas fst snd fold_left runCanvasEffect].
    unfold App.handleCanvasTouch. rewrite Hmode.
    destruct (App.connectionStart (app sys)) eqn:Hd;
      (repeat split; try reflexivity; try exact Hmode; try exact Hd);
      intros id' Hm; apply Hnodes; [exact Hed | exact Hm | reflexivity |
                                    exact Hed | exact Hm | reflexivity].
  - repeat (change (mbind ?k (Ok ?a)) with (k a); cbv beta).
    eexists. split; [reflexivity |]. cbn [app canvas fst snd fold_left].
    repeat split; try reflexivity; try exact Hmode.
    intros id' Hm. apply Hnodes; [exact Hed | exact Hm | reflexivity].
Qed.

(** X18.  Connecting on the phone, from no draft: touch the first person,
    lift the finger, touch the second.  If the first touch lasted 200ms
    or more, exactly one relationship from the first to the second is
    stored, of the current type, and the draft is gone.  If it was
    shorter, the canvas took its release for a tap and cancelled the
    draft: nothing is stored, and the second person becomes the start
    of a new draft. *)
Theorem mobile_connect_gesture sys idA idB pa pb t0 t1 t2 (ta tb : Touch.t) :
  App.mode (app sys) = connect ->
  App.connectionStart (app sys) = None ->
  findPerson idA (App.familyTree (app sys)) = Some pa ->
  findPerson idB (App.familyTree (app sys)) = Some pb ->
  idA <> idB ->
  Node.isEditing (nodeState sys idA) = false ->
  Node.isEditing (nodeState sys idB) = false ->
  ~ (App.scale (app sys) == 0)%Q ->
  Canvas.isPanning (canvas sys) = false ->
  let rels := FamilyTree.relationships (App.familyTree (app sys)) in
  exists sys',
    run Math_sqrt rect sys
      [NodeTouchStart idA t0 ta []; NodeTouchEnd idA t1 [] ta; NodeTouchStart idB t2 tb []]
      = Ok sys' /\
    FamilyTree.people (App.familyTree (app sys')) =
      FamilyTree.people (App.familyTree (app sys)) /\
    App.selectedPersonId (app sys') = Some idB /\
    if (t1 - t0 <? 200)%Z then
      FamilyTree.relationships (App.familyTree (app sys')) = rels /\
      App.connectionStart (app sys') =
        Some (App.mkDraft idB (Person.x pb + 60) (Person.y pb + 30))
    else
      FamilyTree.relationships (App.familyTree (app sys')) =
        rels ++ [Relationship.mk (App.freshId t2) (App.connectionType (app sys)) idA idB] /\
      App.connectionStart (app sys') = None.
Proof.
  intros Hmode Hd HfA HfB Hne HeA HeB Hs Hp rels.
  pose proof (findPerson_mounted _ _ _ HfA) as HmA.
  pose proof (findPerson_mounted _ _ _ HfB) as HmB.
  destruct (connect_press sys idA pa t0 ta [] Hmode HfA HeA)
    as (sys1 & H1 & Hmode1 & Hty1 & Hs1 & _ & Hpeople1 & Hpair1 & Hc1 & Hns1).
  rewrite Hd in Hpair1. injection Hpair1 as Hd1 Hrels1.
  assert (Hfind1 : forall id, findPerson id (App.familyTree (app sys1)) =
                              findPerson id (App.familyTree (app sys)))
    by (intros id; unfold findPerson; now rewrite Hpeople1).
  assert (Hm1 : forall id, isMounted id (App.familyTree (app sys1)) =
                           isMounted id (App.familyTree (app sys)))
    by (intros id; unfold isMounted; now rewrite Hpeople1).
  destruct (connect_release sys1 idA pa t1 ta) as
    (sys2 & H2 & Hmode2 & Hty2 & Hs2 & Htree2 & Hd2 & Hp2 & Hns2).
  { exact Hmode1. }
  { now rewrite Hfind1. }
  { now rewrite Hns1. }
  { now rewrite Hs1. }
  { now rewrite Hc1. }
  rewrite Hc1 in Hd2. cbn [Canvas.touchStartTime Canvas.setTouchStartTime] in Hd2.
  destruct (connect_press sys2 idB pb t2 tb [])
    as (sys3 & H3 & Hmode3 & Hty3 & Hs3 & Hsel3 & Hpeople3 & Hpair3 & _ & _).
  { exact Hmode2. }
  { now rewrite Htree2, Hfind1. }
  { rewrite Hns2 by (now rewrite Hm1). now rewrite Hns1. }
  exists sys3. split.
  { rewrite run_cons, H1. change (mbind ?k (Ok ?x)) with (k x). cbv beta.
    rewrite run_cons, H2. change (mbind ?k (Ok ?x)) with (k x). cbv beta.
    rewrite run_cons, H3. reflexivity. }
  split; [now rewrite Hpeople3, Htree2 |]. split; [exact Hsel3 |].
  rewrite Hd2, Htree2, Hrels1, Hty2, Hty1 in Hpair3.
  destruct (t1 - t0 <? 200)%Z.
  - injection Hpair3 as -> ->. split; reflexivity.
  - rewrite Hd1 in Hpair3. cbn [App.personId] in Hpair3.
    apply String.eqb_neq in Hne. rewrite Hne in Hpair3. cbn [negb] in Hpair3.
    injection Hpair3 as -> ->. split; reflexivity.
Qed.

(** *** Adding a person *)


(** *** Panning *)

Lemma canvas_pan_step sys touch :
  Canvas.isPanning (canvas sys) = true ->
  Canvas.pans (App.mode (app sys)) = true ->
  step Math_sqrt rect sys (CanvasTouchMove [touch]) =
    Ok (mkSystem
          (App.setOffset
             (Point.mk (Point.x (App.offset (app sys)) +
                        (Touch.clientX touch - Point.x (Canvas.lastTouchCenter (canvas sys))))
                       (Point.y (App.offset (app sys)) +
                        (Touch.clientY touch - Point.y (Canvas.lastTouchCenter (canvas sys)))))
             (app sys))
          (Canvas.setLastTouchCenter (Point.mk (Touch.clientX touch) (Touch.clientY touch))
                                     (canvas sys))
          (nodes sys) (timers sys)).
Proof.
  intros Hp Hm. unfold step, onCanvasEvent, Canvas.handleTouchMove.
  cbn [canvasProps Canvas.mode Canvas.offset]. rewrite Hp, Hm. reflexivity.
Qed.

(** X20.  While the canvas is panning, in navigate or connect mode, the
    content follows the finger one to one: after any number of moves the
    offset has changed by exactly the finger's displacement, so the
    world point under the finger is the same; the tree, the scale, the
    mode and the nodes are untouched. *)
Theorem mobile_pan_tracks_finger l : forall sys,
  Canvas.isPanning (canvas sys) = true ->
  Canvas.pans (App.mode (app sys)) = true ->
  exists sys',
    run Math_sqrt rect sys (canvasMoves l) = Ok sys' /\
    Canvas.lastTouchCenter (canvas sys') =
      List.last (map (fun t => Point.mk (Touch.clientX t) (Touch.clientY t)) l)
                (Canvas.lastTouchCenter (canvas sys)) /\
    (Point.x (App.offset (app sys')) - Point.x (Canvas.lastTouchCenter (canvas sys')) ==
     Point.x (App.offset (app sys)) - Point.x (Canvas.lastTouchCenter (canvas sys)))%Q /\
    (Point.y (App.offset (app sys')) - Point.y (Canvas.lastTouchCenter (canvas sys')) ==
     Point.y (App.offset (app sys)) - Point.y (Canvas.lastTouchCenter (canvas sys)))%Q /\
    App.familyTree (app sys') = App.familyTree (app sys) /\
    App.scale (app sys') = App.scale (app sys) /\
    App.mode (app sys') = App.mode (app sys) /\
    Canvas.isPanning (canvas sys') = true /\
    nodes sys' = nodes sys.
Proof.
  induction l as [| t l IH]; intros sys Hp Hm.
  - exists sys. cbn. repeat split; try reflexivity. exact Hp.
  - pose proof (canvas_pan_step sys t Hp Hm) as H1.
    match type of H1 with _ = Ok ?s1 => set (sys1 := s1) in * end.
    destruct (IH sys1 Hp Hm) as (sys' & Hrun & Hlast & Hx & Hy & Htree & Hsc & Hmode & Hp' & Hn).
    exists sys'. split.
    { unfold canvasMoves. cbn [map]. rewrite run_cons, H1. exact Hrun. }
    split.
    { rewrite Hlast. cbn [map]. destruct l as [| t' l]; [reflexivity |].
      cbn [map]. symmetry.
      match goal with
      | |- List.last (?a :: ?b :: ?l') ?d = List.last _ ?d' =>
        change (List.last (b :: l') d = List.last (b :: l') d')
      end.
      apply last_default. }
    split; [rewrite Hx; unfold sys1; cbn; ring |].
    split; [rewrite Hy; unfold sys1; cbn; ring |].
    split; [now rewrite Htree |]. split; [now rewrite Hsc |].
    split; [now rewrite Hmode |]. split; [exact Hp' | now rewrite Hn].
Qed.

(** *** The editor *)


End MobileApplication.

(** ** The further properties on concrete inputs *)

Lemma wellFormed_preserved_witness :
  wellFormed
    (Mobile.App.familyTree
       (Mobile.App.updatePerson (Person.moveTo 40 60 bea)
          (Mobile.App.setFamilyTree married Mobile.App.initial))) = true.
Proof.
  destruct (wellFormed_preserved (Mobile.App.setFamilyTree married Mobile.App.initial))
    as (_ & Hupdate & _).
  - reflexivity.
  - apply Hupdate.
Defined.

Lemma zoom_buttons_round_trip_witness :
  exists s1 s2,
    InteractiveCanvas.zoomIn InteractiveCanvas.initial = Ok (s1, []) /\
    InteractiveCanvas.zoomOut s1 = Ok (s2, []) /\
    (InteractiveCanvas.zoom s2 == 1)%Q.
Proof.
  destruct (zoom_buttons_round_trip InteractiveCanvas.initial)
    as [(s1 & s2 & H1 & H2 & _ & Hle & _) _].
  - unfold inRange. simpl. lra.
  - exists s1, s2. split; [exact H1 |]. split; [exact H2 |]. apply Hle. simpl. lra.
Defined.

Lemma view_frame_witness :
  exists s' effs,
    InteractiveCanvas.step sqrtQ plainCanvas InteractiveCanvas.initial
      InteractiveCanvas.ClickZoomIn = Ok (s', effs) /\
    InteractiveCanvas.pan s' = InteractiveCanvas.pan InteractiveCanvas.initial.
Proof.
  destruct (InteractiveCanvas.step sqrtQ plainCanvas InteractiveCanvas.initial
              InteractiveCanvas.ClickZoomIn) as [[s' effs] | f] eqn:H.
  - exists s', effs. split; [reflexivity |].
    destruct (view_frame sqrtQ plainCanvas InteractiveCanvas.initial
                InteractiveCanvas.ClickZoomIn s' effs H) as [_ Hpan].
    apply Hpan. reflexivity.
  - vm_compute in H. discriminate H.
Defined.

Lemma touch_pan_tracks_finger_witness :
  let s := InteractiveCanvas.startPanning 0 0 InteractiveCanvas.initial in
  let bare := InteractiveCanvas.mkTarget true false false in
  exists s',
    InteractiveCanvas.run sqrtQ s
      (fingerMoves [(plainCanvas, Touch.mk 10 10, bare); (plainCanvas, Touch.mk 30 45, bare)])
      = Ok s' /\
    InteractiveCanvas.lastPanPoint s' = Point.mk 30 45.
Proof.
  intros s bare.
  destruct (touch_pan_tracks_finger sqrtQ
              [(plainCanvas, Touch.mk 10 10, bare); (plainCanvas, Touch.mk 30 45, bare)] s)
    as (s' & Hrun & _ & _ & Hlast & _).
  - reflexivity.
  - exists s'. split; [exact Hrun | exact Hlast].
Defined.

Lemma node_canvas_coordinates_witness :
  exists w',
    PersonNode.screenToCanvasCoords
      (nodePropsFrom plainCanvas InteractiveCanvas.initial bea navigate parent false)
      (Point.x (contentToScreen origin (Point.mk 0 0) 1 (Point.mk 40 60)))
      (Point.y (contentToScreen origin (Point.mk 0 0) 1 (Point.mk 40 60))) = Ok w' /\
    Point.equiv w' (Point.mk 40 60).
Proof.
  destruct (node_canvas_coordinates plainCanvas InteractiveCanvas.initial bea navigate
              parent false) as (_ & Hinv & _).
  - intros H. vm_compute in H. discriminate H.
  - apply (Hinv origin (Point.mk 40 60)). reflexivity.
Defined.

Lemma mouse_drag_absolute_witness :
  let e0 := PersonNode.MouseEvent.mk 0 10 10 "DIV" in
  let e1 := PersonNode.MouseEvent.mk 0 53 10 "DIV" in
  exists w1,
    PersonNode.step beaProps nothingThere PersonNode.start (PersonNode.MouseDown e0)
      = Ok (w1, [PersonNode.Select]) /\
    PersonNode.step beaProps nothingThere w1 (PersonNode.DocumentMouseMove e1)
      = Ok (w1, [PersonNode.PersonUpdate
                   (Person.moveTo (snapToGrid (0 + (53 - 10))) (snapToGrid (0 + (10 - 10)))
                                  bea)]).
Proof.
  intros e0 e1.
  destruct (mouse_drag_absolute nothingThere beaProps beaProps PersonNode.start e0 e1)
    as (w1 & w2 & Hdown & _ & Hmove & _).
  - reflexivity.
  - reflexivity.
  - reflexivity.
  - reflexivity.
  - exists w1. split; [exact Hdown | exact Hmove].
Defined.

Lemma node_never_faults_witness :
  exists w' effs,
    PersonNode.step beaConnecting nothingThere PersonNode.start
      (PersonNode.TouchStart 0 [Touch.mk 10 10]) = Ok (w', effs).
Proof.
  apply (node_never_faults nothingThere beaConnecting PersonNode.start).
  left. intros H. vm_compute in H. discriminate H.
Defined.

Lemma single_long_press_timer_witness :
  (length (Timers.pending (PersonNode.timers beaPressed)) <= 1)%nat /\
  forall e, In e (Timers.pending (PersonNode.timers beaPressed)) ->
            PersonNode.longPressTimer (PersonNode.node beaPressed) = Some (Timers.handle e).
Proof.
  destruct (single_long_press_timer nothingThere
              [(beaProps, PersonNode.TouchStart 0 [Touch.mk 10 10])]
              beaPressed [PersonNode.Select]) as (Hlen & Hin & _).
  - reflexivity.
  - split; [exact Hlen |]. intros e He. exact (proj1 (Hin e He)).
Defined.

Lemma touch_end_disarms_witness :
  exists w' effs,
    PersonNode.step beaProps nothingThere beaPressed
      (PersonNode.TouchEnd 100 [Touch.mk 10 10]) = Ok (w', effs) /\
    Timers.pending (PersonNode.timers w') = [] /\
    PersonNode.isEditing (PersonNode.node w') = false.
Proof.
  destruct (touch_end_disarms nothingThere
              [(beaProps, PersonNode.TouchStart 0 [Touch.mk 10 10])]
              beaPressed [PersonNode.Select] beaProps 100%Z [Touch.mk 10 10])
    as (w' & effs & Hstep & Hpending & _ & _ & Hedit & _).
  - reflexivity.
  - reflexivity.
  - exists w', effs. split; [exact Hstep |]. split; [exact Hpending | exact Hedit].
Defined.

Lemma touch_drag_absolute_witness :
  exists w1 w2,
    PersonNode.step beaProps nothingThere PersonNode.start
      (PersonNode.TouchStart 0 [Touch.mk 10 10]) = Ok (w1, [PersonNode.Select]) /\
    PersonNode.step beaProps nothingThere w1
      (PersonNode.TouchMove 100 [Touch.mk 40 10]) = Ok (w2, []) /\
    PersonNode.step beaProps nothingThere w2 (PersonNode.TouchMove 150 [Touch.mk 53 10])
      = Ok (w2, [PersonNode.PersonUpdate
                   (Person.moveTo (snapToGrid (0 + (53 - 10))) (snapToGrid (0 + (10 - 10)))
                                  bea)]).
Proof.
  destruct (touch_drag_absolute nothingThere beaProps beaProps PersonNode.start
              0%Z 100%Z 150%Z (Touch.mk 10 10) (Touch.mk 40 10) (Touch.mk 53 10))
    as (w1 & w2 & Hstart & Hfirst & _ & _ & Hnext).
  - reflexivity.
  - reflexivity.
  - reflexivity.
  - reflexivity.
  - lia.
  - left. vm_compute. reflexivity.
  - exists w1, w2. split; [exact Hstart |]. split; [exact Hfirst | exact Hnext].
Defined.

Lemma connection_drag_anchored_witness :
  exists w1 w2 effs,
    PersonNode.step beaConnecting nothingThere PersonNode.start
      (PersonNode.TouchStart 0 [Touch.mk 10 10])
      = Ok (w1, [PersonNode.ConnectionDrag "B" (Point.mk (0 + 75) (0 + 50)) (Point.mk 10 10);
                 PersonNode.Select]) /\
    PersonNode.step beaConnecting nothingThere w1 (PersonNode.TouchMove 50 [Touch.mk 90 20])
      = Ok (w1, [PersonNode.ConnectionDrag "B" (Point.mk (0 + 75) (0 + 50)) (Point.mk 90 20)]) /\
    PersonNode.step beaConnecting nothingThere w1 (PersonNode.TouchEnd 300 [Touch.mk 90 20])
      = Ok (w2, effs ++ [PersonNode.ConnectionDragEnd]).
Proof.
  destruct (connection_drag_anchored nothingThere beaConnecting beaConnecting PersonNode.start
              0%Z 50%Z 300%Z (Touch.mk 10 10) (Touch.mk 90 20) [Touch.mk 90 20]
              (Point.mk 10 10) (Point.mk 90 20))
    as (w1 & w2 & effs & Hstart & _ & Hmove & Hend & _).
  - reflexivity.
  - reflexivity.
  - reflexivity.
  - reflexivity.
  - reflexivity.
  - reflexivity.
  - exists w1, w2, effs. split; [exact Hstart |]. split; [exact Hmove | exact Hend].
Defined.

Lemma mobile_touch_drag_witness :
  exists sys',
    Mobile.run sqrtQ origin (twoPeopleIn navigate)
      [Mobile.NodeTouchStart "B" 0 (Touch.mk 10 10) [];
       Mobile.NodeTouchMove "B" 700 (Touch.mk 40 10) [];
       Mobile.NodeTouchMove "B" 750 (Touch.mk 53 (-30)) []] = Ok sys' /\
    Mobile.findPerson "B" (Mobile.App.familyTree (Mobile.app sys')) =
      Some (Person.moveTo (snapToGrid (Math_max 0 (0 + (53 - 10))))
                          (snapToGrid (Math_max 0 (0 + (-30 - 10)))) bea).
Proof.
  destruct (mobile_touch_drag sqrtQ origin (twoPeopleIn navigate) "B" bea 0%Z 700%Z 750%Z
              (Touch.mk 10 10) (Touch.mk 40 10) (Touch.mk 53 (-30)))
    as (sys' & Hrun & _ & _ & Hfind & _).
  - intros e [].
  - reflexivity.
  - discriminate.
  - reflexivity.
  - reflexivity.
  - reflexivity.
  - left. vm_compute. reflexivity.
  - exists sys'. split; [exact Hrun | exact Hfind].
Defined.

Lemma mobile_connect_gesture_witness :
  exists sys',
    Mobile.run sqrtQ origin (twoPeopleIn connect)
      [Mobile.NodeTouchStart "B" 0 (Touch.mk 10 10) [];
       Mobile.NodeTouchEnd "B" 300 [] (Touch.mk 10 10);
       Mobile.NodeTouchStart "C" 400 (Touch.mk 210 10) []] = Ok sys' /\
    FamilyTree.relationships (Mobile.App.familyTree (Mobile.app sys')) =
      [Relationship.mk (Mobile.App.freshId 400) parent "B" "C"] /\
    Mobile.App.connectionStart (Mobile.app sys') = None.
Proof.
  destruct (mobile_connect_gesture sqrtQ origin (twoPeopleIn connect) "B" "C" bea cy
              0%Z 300%Z 400%Z (Touch.mk 10 10) (Touch.mk 210 10))
    as (sys' & Hrun & _ & _ & Hrels & Hdraft).
  - reflexivity.
  - reflexivity.
  - reflexivity.
  - reflexivity.
  - discriminate.
  - reflexivity.
  - reflexivity.
  - intros H. vm_compute in H. discriminate H.
  - reflexivity.
  - exists sys'. split; [exact Hrun |]. split; [exact Hrels | exact Hdraft].
Defined.


Lemma mobile_pan_tracks_finger_witness :
  let sys := Mobile.mkSystem (Mobile.App.setFamilyTree twoPeople Mobile.App.initial)
               (Mobile.Canvas.setIsPanning true Mobile.Canvas.initial) ∅ Timers.empty in
  exists sys',
    Mobile.run sqrtQ origin sys (canvasMoves [Touch.mk 5 5; Touch.mk 30 45]) = Ok sys' /\
    Mobile.Canvas.lastTouchCenter (Mobile.canvas sys') = Point.mk 30 45 /\
    (Point.x (Mobile.App.offset (Mobile.app sys')) - 30 == 0 - 0)%Q.
Proof.
  intros sys.
  destruct (mobile_pan_tracks_finger sqrtQ origin [Touch.mk 5 5; Touch.mk 30 45] sys)
    as (sys' & Hrun & Hlast & Hx & _).
  - reflexivity.
  - reflexivity.
  - exists sys'. split; [exact Hrun |]. split; [exact Hlast |].
    rewrite Hlast in Hx. exact Hx.
Defined.

